(** * FastMRI workload (JAX): a shallow embedding of
      [algorithmic_efficiency/workloads/fastmri/fastmri_jax/workload.py]

    The file embeds the methods of [FastMRIWorkload] as Rocq functions and
    proves the properties stated for them.

    - Python exceptions are values of [PyError]; fallible code lives in the
      [result] monad.
    - Numbers held in JAX arrays are elements of an arithmetic [Arith]; the
      instance [binary32] is IEEE 754 single precision (the dtype the
      workload runs in), the instance [exactQ] is exact rational arithmetic.
    - Python's [int / int] and [math.ceil], which decide how many batches
      an evaluation pulls, are embedded on IEEE 754 double precision.
    - The workload object is a record [Workload]; methods thread it
      explicitly. *)

From Stdlib Require Import ZArith Lia Bool List Permutation.
From Stdlib Require Import Floats.SpecFloat.
From Stdlib Require Import QArith Qcanon Qcabs.
From stdpp Require Import gmap strings list.

#[local] Set Warnings "-register-all".

(** ** Python exceptions and fallible computations *)

Inductive PyError : Type :=
  | ZeroDivisionError
  | OverflowError
  | ValueError
  | AttributeError
  | KeyError
  | IndexError
  | TypeError.

Inductive result (A : Type) : Type :=
  | Ok (a : A)
  | Raise (e : PyError).
Arguments Ok {A} a.
Arguments Raise {A} e.

#[global] Instance result_ret : MRet result := fun _ a => Ok a.
#[global] Instance result_bind : MBind result := fun _ _ f m =>
  match m with
  | Ok a => f a
  | Raise e => Raise e
  end.

Definition is_Ok {A} (r : result A) : Prop := exists a, r = Ok a.

(** [mapM] in the [result] monad: the first failure, left to right, wins. *)
Fixpoint result_mapM {A B} (f : A -> result B) (l : list A) : result (list B) :=
  match l with
  | [] => Ok []
  | x :: l' => y ← f x; ys ← result_mapM f l'; Ok (y :: ys)
  end.

(** ** Python dictionaries with literal string keys

    Insertion-ordered, as Python's [dict] is. *)

Definition dict (V : Type) : Type := list (string * V).

Fixpoint dict_get {V} (d : dict V) (k : string) : result V :=
  match d with
  | [] => Raise KeyError
  | (k', v) :: d' => if decide (k' = k) then Ok v else dict_get d' k
  end.

Fixpoint dict_remove {V} (d : dict V) (k : string) : dict V :=
  match d with
  | [] => []
  | (k', v) :: d' => if decide (k' = k) then d' else (k', v) :: dict_remove d' k
  end.

(** [d.pop(k)]: the value and the dictionary without the key. *)
Definition dict_pop {V} (d : dict V) (k : string) : result (V * dict V) :=
  v ← dict_get d k; Ok (v, dict_remove d k).

(** ** Arithmetic of array elements *)

Class Arith : Type := {
  num : Type;
  fzero : num;
  fadd : num -> num -> num;
  fsub : num -> num -> num;
  fabs : num -> num;
  fdiv : num -> num -> num;
  (** the element count of a reduction, converted to the element type *)
  of_count : nat -> num;
  feqb : num -> num -> bool;
  fleb : num -> num -> bool
}.

(** IEEE 754 binary32, the default JAX dtype: 24 bits of precision,
    exponents below 128.  Comparisons are the IEEE ones: a NaN is neither
    equal to nor ordered with anything. *)
Definition binary32 : Arith := {|
  num := spec_float;
  fzero := S754_zero false;
  fadd := SFadd 24 128;
  fsub := SFsub 24 128;
  fabs := SFabs;
  fdiv := SFdiv 24 128;
  of_count := fun n => binary_normalize 24 128 (Z.of_nat n) 0 false;
  feqb := SFeqb;
  fleb := SFleb
|}.

Definition Qcle_bool (x y : Qc) : bool := Qle_bool x y.

(** Exact rational arithmetic: no rounding, no infinities, no NaN. *)
Definition exactQ : Arith := {|
  num := Qc;
  fzero := 0%Qc;
  fadd := Qcplus;
  fsub := Qcminus;
  fabs := Qcabs;
  fdiv := Qcdiv;
  of_count := fun n => Q2Qc (inject_Z (Z.of_nat n));
  feqb := Qc_eq_bool;
  fleb := Qcle_bool
|}.

(** ** Python's [int / int] and [math.ceil]

    CPython's true division of two integers returns the exact quotient
    rounded once, to nearest with ties to even, to binary64; it raises
    [ZeroDivisionError] for a zero divisor and [OverflowError] when the
    quotient is too large for a float.  [SFdiv_core_binary] and
    [binary_round_aux] are the Standard Library's specification of a
    correctly rounded division; they are applied to the integers
    themselves (exponent 0), so the operands are not rounded first. *)

Section PythonNumbers.
Local Open Scope Z_scope.

Definition int_true_divide (a b : Z) : result spec_float :=
  if b =? 0 then Raise ZeroDivisionError
  else if a =? 0 then Ok (S754_zero (b <? 0))
  else
    let '(q, e, l) := SFdiv_core_binary 53 1024 (Z.abs a) 0 (Z.abs b) 0 in
    match binary_round_aux 53 1024 (xorb (a <? 0) (b <? 0)) q e l with
    | S754_infinity _ => Raise OverflowError
    | x => Ok x
    end.

(** [math.ceil] of a float is an exact integer. *)
Definition math_ceil (x : spec_float) : result Z :=
  match x with
  | S754_zero _ => Ok 0
  | S754_infinity _ => Raise OverflowError
  | S754_nan => Raise ValueError
  | S754_finite s m e =>
      let v := cond_Zopp s (Z.pos m) in
      Ok (if 0 <=? e then v * 2 ^ e else - ((- v) / 2 ^ (- e)))
  end.

(** [int(math.ceil(num_examples / global_batch_size))] *)
Definition num_batches (num_examples global_batch_size : Z) : result Z :=
  x ← int_true_divide num_examples global_batch_size; math_ceil x.

(** The mathematical ceiling of [n / b] for positive [b]. *)
Definition ceil_div (n b : Z) : Z := (n + b - 1) / b.

(** Quantities of the rounding analysis: the location after one halving
    step, and the rounded significand on the scale of the quotient. *)
Definition halve_loc (q : Z) (l : location) : location :=
  loc_of_shr_record (shr_1 (shr_record_of_loc q l)).

Definition Mround (q : Z) (l : location) : Z :=
  if q <? 2 ^ 53 then round_nearest_even q l
  else 2 * round_nearest_even (q / 2) (halve_loc q l).
End PythonNumbers.

(** ** Tensors

    A JAX array is a nested list of elements; [Scalar] is a rank-0 array.
    [has_shape sh t] says that [t] is a (rectangular) array of shape [sh]. *)

Inductive tensor `{A : Arith} : Type :=
  | Scalar (x : num)
  | Arr (xs : list tensor).

Section Tensors.
Context `{A : Arith}.

Fixpoint has_shape (sh : list nat) (t : tensor) : bool :=
  match sh, t with
  | [], Scalar _ => true
  | n :: sh', Arr xs => Nat.eqb (length xs) n && forallb (has_shape sh') xs
  | _, _ => false
  end.

(** [x.shape] *)
Fixpoint shape (t : tensor) : list nat :=
  match t with
  | Scalar _ => []
  | Arr xs => length xs :: match xs with
                           | [] => []
                           | x :: _ => shape x
                           end
  end.

(** [jnp.zeros(sh)] *)
Fixpoint jnp_zeros (sh : list nat) : tensor :=
  match sh with
  | [] => Scalar fzero
  | n :: sh' => Arr (replicate n (jnp_zeros sh'))
  end.

(** The elements in row-major order. *)
Fixpoint flatten (t : tensor) : list num :=
  match t with
  | Scalar x => [x]
  | Arr xs => concat (List.map flatten xs)
  end.

(** Every element of [t] satisfies [P]. *)
Definition all_elements (P : num -> Prop) (t : tensor) : Prop :=
  Forall P (flatten t).

Fixpoint tmap (f : num -> num) (t : tensor) : tensor :=
  match t with
  | Scalar x => Scalar (f x)
  | Arr xs => Arr (List.map (tmap f) xs)
  end.

(** An elementwise binary operation on two arrays of one shape.  JAX
    raises [TypeError] for shapes it cannot broadcast; operands whose
    shapes differ but broadcast are outside this model and are reported
    as the same failure. *)
Fixpoint tmap2 (f : num -> num -> num) (a b : tensor) {struct a} : result tensor :=
  match a, b with
  | Scalar x, Scalar y => Ok (Scalar (f x y))
  | Arr xs, Arr ys =>
      zs ← (fix go (xs ys : list tensor) {struct xs} : result (list tensor) :=
              match xs, ys with
              | [], [] => Ok []
              | x :: xs', y :: ys' =>
                  z ← tmap2 f x y; zs ← go xs' ys'; Ok (z :: zs)
              | _, _ => Raise TypeError
              end) xs ys;
      Ok (Arr zs)
  | _, _ => Raise TypeError
  end.

(** A sum reduction.  The compiled reduction adds the elements in an
    order, and with a grouping, that the backend chooses; the model adds
    left to right, starting from zero.  In an arithmetic whose addition is
    associative and commutative with zero as neutral element (the exact
    one below) every order gives this value; in binary32 the value of the
    code can differ from it in the last bits and in the sign of a zero.
    What is stated of binary32 sums below holds for every order: signs,
    zeros, infinities and NaN.  Statements about the value of a sum are
    made in exact arithmetic. *)
Definition fsum (l : list num) : num := fold_left fadd l fzero.

(** [jnp.sum(t)] *)
Definition jnp_sum (t : tensor) : num := fsum (flatten t).

(** [jnp.abs(t)] and [a - b] *)
Definition jnp_abs (t : tensor) : tensor := tmap fabs t.
Definition jnp_sub (a b : tensor) : result tensor := tmap2 fsub a b.

(** The mean of all elements of [t]: their sum divided by their count.
    The compiled mean may multiply the sum by the rounded reciprocal of
    the count instead; in exact arithmetic the two agree for a count that
    is not zero, in binary32 they can differ in the last bit.  As for
    sums, only signs, zeros, infinities and NaN are stated of binary32
    means, and values are stated in exact arithmetic. *)
Definition mean_all (t : tensor) : num :=
  fdiv (jnp_sum t) (of_count (length (flatten t))).

(** [t.mean(axis=tuple(range(k, t.ndim)))]: every axis from [k] on is
    reduced, the first [k] axes are kept. *)
Fixpoint mean_from_axis (k : nat) (t : tensor) : tensor :=
  match k, t with
  | S k', Arr xs => Arr (List.map (mean_from_axis k') xs)
  | _, _ => Scalar (mean_all t)
  end.
End Tensors.

(** ** Parameter trees *)

Inductive pytree (T : Type) : Type :=
  | Leaf (x : T)
  | Node (children : list (string * pytree T)).
Arguments Leaf {T} x.
Arguments Node {T} children.

(** [jax.tree_map(f, tree)] *)
Fixpoint tree_map {T U} (f : T -> U) (t : pytree T) : pytree U :=
  match t with
  | Leaf x => Leaf (f x)
  | Node cs => Node (List.map (fun kv => (fst kv, tree_map f (snd kv))) cs)
  end.

(** The leaves, left to right. *)
Fixpoint tree_leaves {T} (t : pytree T) : list T :=
  match t with
  | Leaf x => [x]
  | Node cs => concat (List.map (fun kv => tree_leaves (snd kv)) cs)
  end.

(** ** Declarations of [algorithmic_efficiency.spec] *)

(** Modelled from the spec: the enumeration [spec.ForwardPassMode] is
    declared outside this file; the workload names its members [TRAIN] and
    [EVAL], and [OTHER_MODE] stands for any further value a caller passes. *)
Inductive ForwardPassMode : Type :=
  | TRAIN
  | EVAL
  | OTHER_MODE (tag : nat).

#[global] Instance ForwardPassMode_eq_dec : EqDecision ForwardPassMode.
Proof. solve_decision. Defined.

(** Modelled from the spec: the enumeration [spec.LossType] is declared
    outside this file; the workload names four of its members, and
    [OTHER_LOSS] stands for any further loss kind. *)
Inductive LossType : Type :=
  | SOFTMAX_CROSS_ENTROPY
  | SIGMOID_CROSS_ENTROPY
  | MEAN_SQUARED_ERROR
  | MEAN_ABSOLUTE_ERROR
  | OTHER_LOSS (tag : nat).

#[global] Instance LossType_eq_dec : EqDecision LossType.
Proof. solve_decision. Defined.

(** ** Batches *)

(** A batch: the mapping the input pipeline yields.  Inside the pmapped
    evaluator the same record holds one device's shard. *)
Record Batch `{A : Arith} : Type := {
  inputs : tensor;
  targets : tensor;
  mean : tensor;
  std : tensor;
  volume_max : tensor;
  weights : tensor
}.

(** The variable collections of a Flax module: [{'params': ...}]. *)
Record Variables `{A : Arith} : Type := {
  params_collection : pytree tensor
}.

(** ** The libraries the workload calls *)

Class Externals `{A : Arith} : Type := {
  RandomState : Type;
  (** [prng.split(rng, n)[i]] *)
  prng_split : RandomState -> nat -> nat -> RandomState;
  (** [jax.local_device_count()] *)
  local_device_count : nat;
  (** [jax.jit(models.UNet().init)(rngs, x)]: the variable collections *)
  unet_init : dict RandomState -> tensor -> Variables;
  (** [models.UNet(dropout_rate=r).apply(variables, x, rngs=rngs, train=train)] *)
  unet_apply : option spec_float -> Variables -> tensor ->
               dict RandomState -> bool -> tensor;
  (** [ssim(targets, outputs, mean=, std=, volume_max=)]: one score per example *)
  ssim : tensor -> tensor -> tensor -> tensor -> tensor -> tensor;
  jax_nn_softmax : tensor -> tensor;
  jax_nn_sigmoid : tensor -> tensor;
  (** [self.build_input_queue(rng, split, data_dir, global_batch_size=,
      repeat_final_dataset=)]: an iterator that repeats indefinitely; the
      [i]-th batch it yields *)
  build_input_queue : RandomState -> string -> string -> Z -> bool -> nat -> Batch
}.

(** ** The workload object *)

(** An input iterator: the sequence it was built over and how many batches
    have been drawn from it. *)
Record Iterator `{A : Arith} : Type := {
  it_stream : nat -> Batch;
  it_pos : nat
}.

(** The arguments of one call of [build_input_queue]. *)
Record QueueCall `{A : Arith} `{E : !Externals} : Type := {
  qc_rng : RandomState;
  qc_split : string;
  qc_data_dir : string;
  qc_global_batch_size : Z
}.

(** One device's slice of the arguments of the pmapped evaluator. *)
Record Shard `{A : Arith} `{E : !Externals} : Type := {
  shard_params : pytree tensor;
  shard_batch : Batch;
  shard_rng : RandomState
}.

(** The fields of [self] the methods read or write.  [queues_built] is
    ghost state: the calls of [build_input_queue] made so far, latest
    first. *)
Record Workload `{A : Arith} `{E : !Externals} : Type := {
  _param_shapes : option (pytree (list nat));
  _eval_iters : gmap string Iterator;
  queues_built : list QueueCall
}.

(** A scalar a Python variable holds: a Python [float], or a rank-0 JAX
    array.  Both carry the element value; [.item()] and [float()] widen a
    binary32 value to Python's binary64 exactly, and a Python scalar that
    meets a JAX array is weakly typed, so it is narrowed back exactly. *)
Inductive pyval `{A : Arith} : Type :=
  | PyFloat (x : num)
  | JaxArray (x : num).

Section FastMRIWorkload.
Context `{A : Arith} `{E : !Externals}.

Definition ModelAuxiliaryState : Type := option (pytree tensor).
Definition ParameterContainer : Type := pytree tensor.

Definition set_param_shapes (self : Workload) (s : pytree (list nat)) : Workload :=
  {| _param_shapes := Some s;
     _eval_iters := _eval_iters self;
     queues_built := queues_built self |}.

Definition set_eval_iters (self : Workload) (m : gmap string Iterator) : Workload :=
  {| _param_shapes := _param_shapes self;
     _eval_iters := m;
     queues_built := queues_built self |}.

Definition log_queue (self : Workload) (c : QueueCall) : Workload :=
  {| _param_shapes := _param_shapes self;
     _eval_iters := _eval_iters self;
     queues_built := c :: queues_built self |}.

(** *** [init_model_fn] *)

Definition fake_batch : tensor := jnp_zeros [13; 320; 320]%nat.

(** [jax_utils.replicate(tree)]: every leaf gets a leading axis with one
    copy per local device. *)
Definition jax_utils_replicate (tree : pytree tensor) : pytree tensor :=
  tree_map (fun x => Arr (replicate local_device_count x)) tree.

Definition init_model_fn (self : Workload) (rng : RandomState)
  : Workload * (ParameterContainer * ModelAuxiliaryState) :=
  let variables := unet_init [("params"%string, rng)] fake_batch in
  let params := params_collection variables in
  let self := set_param_shapes self (tree_map shape params) in
  let params := jax_utils_replicate params in
  (self, (params, None)).

(** *** [model_fn] *)

Definition model_fn (params : ParameterContainer)
    (augmented_and_preprocessed_input_batch : Batch)
    (model_state : ModelAuxiliaryState)
    (mode : ForwardPassMode)
    (rng : RandomState)
    (dropout_rate aux_dropout_rate : option spec_float)
    (update_batch_norm : bool) : tensor * ModelAuxiliaryState :=
  let train := bool_decide (mode = TRAIN) in
  let logits :=
    unet_apply dropout_rate {| params_collection := params |}
      (inputs augmented_and_preprocessed_input_batch)
      [("dropout"%string, rng)] train in
  (logits, None).

(** *** [output_activation_fn] *)

Definition activation_fn : list (LossType * (tensor -> tensor)) :=
  [ (SOFTMAX_CROSS_ENTROPY, jax_nn_softmax);
    (SIGMOID_CROSS_ENTROPY, jax_nn_sigmoid);
    (MEAN_SQUARED_ERROR, fun z => z);
    (MEAN_ABSOLUTE_ERROR, fun z => z) ].

(** [d[k]] for a dictionary keyed by loss kinds *)
Fixpoint lookup_loss {V} (d : list (LossType * V)) (k : LossType) : result V :=
  match d with
  | [] => Raise KeyError
  | (k', v) :: d' => if decide (k' = k) then Ok v else lookup_loss d' k
  end.

Definition output_activation_fn (logits_batch : tensor) (loss_type : LossType)
  : result tensor :=
  f ← lookup_loss activation_fn loss_type; Ok (f logits_batch).

(** *** [loss_fn] *)

Definition loss_fn (label_batch outputs_batch : tensor) : result tensor :=
  d ← jnp_sub outputs_batch label_batch;
  Ok (mean_from_axis 1 (jnp_abs d)).

(** The value [loss_fn] computes for one example, in the operations of
    the arithmetic: the model's sum of the absolute differences of the
    elements in row-major order, divided by their count. *)
Definition mean_abs_error (outputs targets : tensor) : num :=
  fdiv (fsum (zip_with (fun o t => fabs (fsub o t)) (flatten outputs) (flatten targets)))
       (of_count (length (flatten outputs))).

(** *** [_eval_model] *)

(** The body, as one device runs it on its shard, up to the collective. *)
Definition _eval_model_device (params : ParameterContainer) (batch : Batch)
    (rng : RandomState) : result (dict num) :=
  let '(outputs, _) :=
    model_fn params batch None EVAL rng (Some (S754_zero false)) None false in
  let ssim_vals :=
    ssim (targets batch) outputs (mean batch) (std batch) (volume_max batch) in
  let ssim_sum := jnp_sum ssim_vals in
  l ← loss_fn (targets batch) outputs;
  let loss := jnp_sum l in
  Ok [ ("ssim"%string, ssim_sum);
       ("loss"%string, loss);
       ("weight"%string, jnp_sum (weights batch)) ].

(** The values the devices hold under key [k], in device order. *)
Definition across_devices (ms : list (dict num)) (k : string) : list num :=
  flat_map (fun m => match dict_get m k with
                     | Ok v => [v]
                     | Raise _ => []
                     end) ms.

(** [jax.lax.psum(metrics, axis_name='batch')]: on every device, each
    entry becomes the sum of that entry over all devices. *)
Definition psum (ms : list (dict num)) : list (dict num) :=
  List.map (fun m => List.map (fun kv => (fst kv, fsum (across_devices ms (fst kv)))) m) ms.

(** The size of the leading axis; a rank-0 array has none. *)
Definition leading (t : tensor) : option nat :=
  match t with
  | Arr xs => Some (length xs)
  | Scalar _ => None
  end.

(** [t[i]] along the leading axis. *)
Definition slice0 (i : nat) (t : tensor) : tensor :=
  match t with
  | Arr xs => nth i xs t
  | Scalar _ => t
  end.

Definition batch_leaves (b : Batch) : list tensor :=
  [inputs b; targets b; mean b; std b; volume_max b; weights b].

Definition batch_slice (i : nat) (b : Batch) : Batch :=
  {| inputs := slice0 i (inputs b);
     targets := slice0 i (targets b);
     mean := slice0 i (mean b);
     std := slice0 i (std b);
     volume_max := slice0 i (volume_max b);
     weights := slice0 i (weights b) |}.

(** [jax.pmap] with [in_axes=(None, 0, 0, 0)] on [(self, params, batch,
    rng)]: the leading axis of every leaf of the parameters, of the batch
    and of the keys is split, one slice per device.  An axis longer than
    the number of local devices raises [ValueError], and so do leaves
    whose leading axes differ in size. *)
Definition pmap_shards (params : ParameterContainer) (batch : Batch)
    (rngs : list RandomState) : result (list Shard) :=
  let n := length rngs in
  if bool_decide (n <= local_device_count)
     && forallb (fun t => bool_decide (leading t = Some n))
          (tree_leaves params ++ batch_leaves batch)
  then
    Ok (imap (fun i r => {| shard_params := tree_map (slice0 i) params;
                            shard_batch := batch_slice i batch;
                            shard_rng := r |}) rngs)
  else Raise ValueError.

(** The pmapped method: one result per device. *)
Definition _eval_model (params : ParameterContainer) (batch : Batch)
    (rngs : list RandomState) : result (list (dict num)) :=
  shards ← pmap_shards params batch rngs;
  locals ← result_mapM (fun s => _eval_model_device (shard_params s) (shard_batch s)
                                   (shard_rng s)) shards;
  Ok (psum locals).

(** [synced_metrics[k][i]] *)
Definition synced_get (synced : list (dict num)) (k : string) (i : nat) : result num :=
  vs ← result_mapM (fun m => dict_get m k) synced;
  match vs !! i with
  | Some v => Ok v
  | None => Raise IndexError
  end.

(** *** Python scalars *)

(** [v + x] for a JAX scalar [x] *)
Definition py_add (v : pyval) (x : num) : pyval :=
  match v with
  | PyFloat y => JaxArray (fadd y x)
  | JaxArray y => JaxArray (fadd y x)
  end.

(** [v.item()]: a Python [float] has no such attribute *)
Definition py_item (v : pyval) : result pyval :=
  match v with
  | JaxArray x => Ok (PyFloat x)
  | PyFloat _ => Raise AttributeError
  end.

(** [v / w] *)
Definition py_truediv (v w : pyval) : result pyval :=
  match v, w with
  | PyFloat x, PyFloat y =>
      if feqb y fzero then Raise ZeroDivisionError else Ok (PyFloat (fdiv x y))
  | PyFloat x, JaxArray y => Ok (JaxArray (fdiv x y))
  | JaxArray x, PyFloat y => Ok (JaxArray (fdiv x y))
  | JaxArray x, JaxArray y => Ok (JaxArray (fdiv x y))
  end.

(** [float(v)] *)
Definition py_float (v : pyval) : pyval :=
  match v with
  | PyFloat x => PyFloat x
  | JaxArray x => PyFloat x
  end.

(** *** [_eval_model_on_split] *)

(** [next(self._eval_iters[split])] *)
Definition next_batch (self : Workload) (split : string) : result (Batch * Workload) :=
  match _eval_iters self !! split with
  | None => Raise KeyError
  | Some it =>
      Ok (it_stream it (it_pos it),
          set_eval_iters self
            (<[split := {| it_stream := it_stream it; it_pos := S (it_pos it) |}]>
               (_eval_iters self)))
  end.

(** [{k: v + synced_metrics[k][0] for k, v in total_metrics.items()}] *)
Definition accumulate (total_metrics : dict pyval) (synced_metrics : list (dict num))
  : result (dict pyval) :=
  result_mapM (fun kv => x ← synced_get synced_metrics (fst kv) 0;
                         Ok (fst kv, py_add (snd kv) x)) total_metrics.

(** The [for _ in range(num_batches)] loop. *)
Fixpoint eval_loop (n : nat) (self : Workload) (split : string)
    (params : ParameterContainer) (eval_rngs : list RandomState)
    (total_metrics : dict pyval) : Workload * result (dict pyval) :=
  match n with
  | O => (self, Ok total_metrics)
  | S n' =>
      match next_batch self split with
      | Raise e => (self, Raise e)
      | Ok (batch, self1) =>
          match synced_metrics ← _eval_model params batch eval_rngs;
                accumulate total_metrics synced_metrics with
          | Raise e => (self1, Raise e)
          | Ok total_metrics' =>
              eval_loop n' self1 split params eval_rngs total_metrics'
          end
      end
  end.

(** The last two lines: pop the weight, divide the rest by it. *)
Definition normalize (total_metrics : dict pyval) : result (dict pyval) :=
  '(num_examples, total_metrics) ← dict_pop total_metrics "weight";
  result_mapM (fun kv => x ← py_item (snd kv);
                         q ← py_truediv x num_examples;
                         Ok (fst kv, py_float q)) total_metrics.

Definition _eval_model_on_split (self : Workload)
    (split : string) (num_examples global_batch_size : Z)
    (params : ParameterContainer) (model_state : ModelAuxiliaryState)
    (rng : RandomState) (data_dir : string) (global_step : Z)
  : Workload * result (dict pyval) :=
  let data_rng := prng_split rng 2 0 in
  let model_rng := prng_split rng 2 1 in
  let self :=
    match _eval_iters self !! split with
    | Some _ => self
    | None =>
        let q := {| qc_rng := data_rng; qc_split := split;
                    qc_data_dir := data_dir;
                    qc_global_batch_size := global_batch_size |} in
        set_eval_iters (log_queue self q)
          (<[split := {| it_stream := build_input_queue data_rng split data_dir
                                        global_batch_size true;
                         it_pos := 0 |}]> (_eval_iters self))
    end in
  let total_metrics :=
    [ ("ssim"%string, PyFloat fzero);
      ("loss"%string, PyFloat fzero);
      ("weight"%string, PyFloat fzero) ] in
  match num_batches num_examples global_batch_size with
  | Raise e => (self, Raise e)
  | Ok nb =>
      let eval_rngs := List.map (prng_split model_rng local_device_count)
                         (seq 0 local_device_count) in
      let '(self, r) :=
        eval_loop (Z.to_nat nb) self split params eval_rngs total_metrics in
      (self, r ≫= normalize)
  end.
End FastMRIWorkload.

(** ** Vocabulary of the statements *)

(** The device-0 entries of one batch's synced metrics, the three values
    one pass of the loop adds to the running totals. *)
Record SyncedMetrics `{A : Arith} : Type := {
  m_ssim : num;
  m_loss : num;
  m_weight : num
}.

Section Vocabulary.
Context `{A : Arith} `{E : !Externals}.

Definition synced_first (params : ParameterContainer) (rngs : list RandomState)
    (batch : Batch) : result SyncedMetrics :=
  synced ← _eval_model params batch rngs;
  s ← synced_get synced "ssim" 0;
  l ← synced_get synced "loss" 0;
  w ← synced_get synced "weight" 0;
  Ok {| m_ssim := s; m_loss := l; m_weight := w |}.

(** The mapping [_eval_model] builds from three values. *)
Definition metrics_dict (m : SyncedMetrics) : dict num :=
  [ ("ssim"%string, m_ssim m); ("loss"%string, m_loss m);
    ("weight"%string, m_weight m) ].

(** The forward pass of the evaluator on one shard: evaluation mode,
    dropout rate 0. *)
Definition eval_outputs (s : Shard) : tensor :=
  fst (model_fn (shard_params s) (shard_batch s) None EVAL (shard_rng s)
         (Some (S754_zero false)) None false).

(** The next [n] batches an iterator yields. *)
Definition drawn (it : Iterator) (n : nat) : list Batch :=
  List.map (fun i => it_stream it (it_pos it + i)) (seq 0 n).

(** The iterator after [n] more calls of [next]. *)
Definition advance (it : Iterator) (n : nat) : Iterator :=
  {| it_stream := it_stream it; it_pos := it_pos it + n |}.

(** The iterator an evaluation of [split] draws from: the cached one, or a
    fresh one over the queue built from the call's arguments. *)
Definition split_iterator (self : Workload) (split : string) (rng : RandomState)
    (data_dir : string) (global_batch_size : Z) : Iterator :=
  match _eval_iters self !! split with
  | Some it => it
  | None => {| it_stream := build_input_queue (prng_split rng 2 0) split data_dir
                              global_batch_size true;
               it_pos := 0 |}
  end.

(** [prng.split(model_rng, jax.local_device_count())] *)
Definition eval_rngs (rng : RandomState) : list RandomState :=
  List.map (prng_split (prng_split rng 2 1) local_device_count)
    (seq 0 local_device_count).

(** The mapping an evaluation returns for accumulated sums [s], [l] and
    total weight [w]. *)
Definition normalized (s l w : num) : dict pyval :=
  [ ("ssim"%string, PyFloat (fdiv s w)); ("loss"%string, PyFloat (fdiv l w)) ].
End Vocabulary.

(** The claim about the batch count, as a predicate: the call leaves the
    split's iterator [k] batches further. *)
Definition pulls_batches `{A : Arith} `{E : !Externals} (self : Workload)
    (split : string) (num_examples global_batch_size : Z)
    (params : ParameterContainer) (model_state : ModelAuxiliaryState)
    (rng : RandomState) (data_dir : string) (global_step : Z) (k : nat) : Prop :=
  _eval_iters (fst (_eval_model_on_split self split num_examples global_batch_size
                      params model_state rng data_dir global_step)) !! split
  = Some (advance (split_iterator self split rng data_dir global_batch_size) k).

(** ** A concrete instance of the libraries

    One device, a network that returns its input, a similarity score that
    returns the [volume_max] entry, and a given sequence of batches.  It
    serves the examples below. *)

Definition identity_net (A : Arith) (queue : nat -> Batch) : Externals := {|
  RandomState := nat;
  prng_split := fun rng n i => (rng * n + i)%nat;
  local_device_count := 1;
  unet_init := fun _ _ =>
    {| params_collection :=
         Node [("conv"%string, Leaf (Arr [Arr [Scalar fzero; Scalar fzero]]))] |};
  unet_apply := fun _ _ x _ _ => x;
  ssim := fun _ _ _ _ v => v;
  jax_nn_softmax := fun z => z;
  jax_nn_sigmoid := fun z => z;
  build_input_queue := fun _ _ _ _ _ => queue
|}.

(** A batch for one device holding one example with one pixel. *)
Definition pixel_batch `{A : Arith} (x t w : num) : Batch := {|
  inputs := Arr [Arr [Arr [Scalar x]]];
  targets := Arr [Arr [Arr [Scalar t]]];
  mean := Arr [Arr [Scalar fzero]];
  std := Arr [Arr [Scalar fzero]];
  volume_max := Arr [Arr [Scalar fzero]];
  weights := Arr [Arr [Scalar w]]
|}.

Definition empty_workload `{A : Arith} `{E : !Externals} : Workload :=
  {| _param_shapes := None; _eval_iters := ∅; queues_built := [] |}.

(** binary32 constants: [m * 2^e], rounded *)
Definition f32 (m e : Z) : spec_float := binary_normalize 24 128 m e false.

(** The number of passes of the loop: [range(num_batches)] is empty for a
    count that is not positive, and no pass is made when the count cannot
    be computed. *)
Definition batch_count (num_examples global_batch_size : Z) : nat :=
  match num_batches num_examples global_batch_size with
  | Ok nb => Z.to_nat nb
  | Raise _ => 0
  end.

(** The claim about the sign and the zeros of the loss, as a predicate:
    every per-example value is at least zero, and is zero exactly when the
    example's outputs equal its targets element by element. *)
Definition loss_nonneg_zero_iff_equal `{A : Arith} (outputs targets : tensor) : Prop :=
  forall os ts ls,
    outputs = Arr os -> targets = Arr ts ->
    loss_fn targets outputs = Ok (Arr ls) ->
    forall (i : nat) o t l,
      os !! i = Some o -> ts !! i = Some t -> ls !! i = Some (Scalar l) ->
      fleb fzero l = true
      /\ (feqb l fzero = true
          <-> Forall2 (fun x y => feqb x y = true) (flatten o) (flatten t)).

(** binary32 classes *)
Definition SF_is_finite (x : spec_float) : bool :=
  match x with
  | S754_zero _ | S754_finite _ _ _ => true
  | S754_infinity _ | S754_nan => false
  end.

Definition SF_is_zero (x : spec_float) : bool :=
  match x with
  | S754_zero _ => true
  | _ => false
  end.

(** The sign of a float that is not a NaN. *)
Definition has_sign (s : bool) (x : spec_float) : Prop :=
  match x with
  | S754_zero s' | S754_infinity s' | S754_finite s' _ _ => s' = s
  | S754_nan => False
  end.

(** A zero of either sign, a positive number or plus infinity. *)
Definition nonneg32 (x : spec_float) : Prop :=
  match x with
  | S754_zero _ => True
  | S754_infinity s | S754_finite s _ _ => s = false
  | S754_nan => False
  end.

(** The part of the claim about the loss that survives rounding: every
    per-example value is at least zero, and is zero when the example's
    outputs equal its targets element by element. *)
Definition loss_nonneg_zero_if_equal `{A : Arith} (outputs targets : tensor) : Prop :=
  forall os ts ls,
    outputs = Arr os -> targets = Arr ts ->
    loss_fn targets outputs = Ok (Arr ls) ->
    forall (i : nat) o t l,
      os !! i = Some o -> ts !! i = Some t -> ls !! i = Some (Scalar l) ->
      fleb fzero l = true
      /\ (Forall2 (fun x y => feqb x y = true) (flatten o) (flatten t)
          -> feqb l fzero = true).

(** ** Concrete inputs of the examples *)

(** One example of two pixels: the outputs differ from the targets by the
    smallest positive binary32 number in one pixel. *)
Definition tiny_outputs : tensor (A := binary32) :=
  Arr [Arr [Scalar (A := binary32) (S754_finite false 1 (-149));
            Scalar (A := binary32) (S754_zero false)]].
Definition tiny_targets : tensor (A := binary32) :=
  Arr [Arr [Scalar (A := binary32) (S754_zero false);
            Scalar (A := binary32) (S754_zero false)]].

(** One example of one pixel, infinite in outputs and targets alike. *)
Definition inf_outputs : tensor (A := binary32) :=
  Arr [Arr [Scalar (A := binary32) (S754_infinity false)]].

(** Three batches whose losses are 1, 2^-24 and 2^-24, and the same
    batches with the large one last. *)
Definition large_first : nat -> Batch (A := binary32) := fun i =>
  pixel_batch (A := binary32)
    (match i with
     | O => f32 1 0
     | _ => f32 1 (-24)
     end) (S754_zero false) (f32 1 0).
Definition large_last : nat -> Batch (A := binary32) := fun i =>
  pixel_batch (A := binary32)
    (match i with
     | 2%nat => f32 1 0
     | _ => f32 1 (-24)
     end) (S754_zero false) (f32 1 0).

(** Batches of weight zero. *)
Definition weightless : nat -> Batch (A := binary32) := fun _ =>
  pixel_batch (A := binary32) (f32 1 0) (S754_zero false) (S754_zero false).

(** Exact batches: losses 1/3 and 2/3, in both orders. *)
Definition third_first : nat -> Batch (A := exactQ) := fun i =>
  pixel_batch (A := exactQ)
    (match i with
     | O => Q2Qc (1 # 3)
     | _ => Q2Qc (2 # 3)
     end) 0%Qc 1%Qc.
Definition third_last : nat -> Batch (A := exactQ) := fun i =>
  pixel_batch (A := exactQ)
    (match i with
     | 1%nat => Q2Qc (1 # 3)
     | _ => Q2Qc (2 # 3)
     end) 0%Qc 1%Qc.

(** Parameters replicated for one device. *)
Definition no_params `{A : Arith} : ParameterContainer := Leaf (Arr [Scalar fzero]).

(** A workload whose cache holds an iterator over [queue] for the split
    ["validation"]. *)
Definition cached_workload `{A : Arith} `{E : !Externals} (queue : nat -> Batch) : Workload :=
  {| _param_shapes := None;
     _eval_iters := {[ "validation"%string := {| it_stream := queue; it_pos := 0 |} ]};
     queues_built := [] |}.

Definition synced32 (s l w : spec_float) : SyncedMetrics (A := binary32) :=
  @Build_SyncedMetrics binary32 s l w.

(** ** [model_params_types]

    The property reads and writes one more field of [self], the cache
    [_param_types]; the record adds it to the fields above.  [T] is the
    type of the value [param_utils.jax_param_types] returns. *)
Record TypedWorkload `{A : Arith} `{E : !Externals} (T : Type) : Type := {
  tw_fields : Workload;
  _param_types : option T
}.
Arguments tw_fields {A E T} _.
Arguments _param_types {A E T} _.

Section ModelParamsTypes.
Context `{A : Arith} `{E : !Externals} {T : Type}.

(** [param_utils.jax_param_types], applied to the value of [_param_shapes]
    ([None] before [init_model_fn] has run) *)
Variable jax_param_types : option (pytree (list nat)) -> result T.

Definition model_params_types (self : TypedWorkload T) : TypedWorkload T * result T :=
  match _param_types self with
  | Some types => (self, Ok types)
  | None =>
      match jax_param_types (_param_shapes (tw_fields self)) with
      | Ok types =>
          ({| tw_fields := tw_fields self; _param_types := Some types |}, Ok types)
      | Raise e => (self, Raise e)
      end
  end.
End ModelParamsTypes.

(** A stand-in for [param_utils.jax_param_types] in the examples: the rank
    of every parameter. *)
Definition rank_types (shapes : option (pytree (list nat))) : result (pytree nat) :=
  match shapes with
  | Some s => Ok (tree_map (length (A := nat)) s)
  | None => Raise TypeError
  end.

(** Batches of one example on one device, the second of which has no row
    of weights for the device. *)
Definition ragged_second : nat -> Batch (A := binary32) := fun i =>
  {| inputs := Arr [Arr [Arr [Scalar (A := binary32) (f32 1 0)]]];
     targets := Arr [Arr [Arr [Scalar (A := binary32) (S754_zero false)]]];
     mean := Arr [Arr [Scalar (A := binary32) (S754_zero false)]];
     std := Arr [Arr [Scalar (A := binary32) (S754_zero false)]];
     volume_max := Arr [Arr [Scalar (A := binary32) (S754_zero false)]];
     weights := Arr (match i with
                     | 1%nat => []
                     | _ => [Arr [Scalar (A := binary32) (f32 1 0)]]
                     end) |}.

(** Batches whose network output is a NaN. *)
Definition nan_batches : nat -> Batch (A := binary32) := fun _ =>
  pixel_batch (A := binary32) S754_nan (S754_zero false) (f32 1 0).

(** One example of two pixels, the first a NaN. *)
Definition nan_outputs : tensor (A := binary32) :=
  Arr [Arr [Scalar (A := binary32) S754_nan;
            Scalar (A := binary32) (S754_zero false)]].

(** One example without any pixel. *)
Definition empty_example : tensor (A := binary32) := Arr [Arr []].

(** The rows of an array along its leading axis. *)
Definition rows `{A : Arith} (t : tensor) : list tensor :=
  match t with
  | Arr xs => xs
  | Scalar _ => []
  end.

(** ** The words of the specification, in exact arithmetic

    Written without the functions of the embedding: sums are right folds
    of rational addition, and the quantities of an example are defined by
    recursion on the arrays themselves. *)

(** The sum of a list of rationals. *)
Definition Qc_total (l : list Qc) : Qc := foldr Qcplus 0%Qc l.

(** The sum of the absolute differences between the elements of two
    arrays of one shape. *)
Fixpoint abs_diff_total (o t : tensor (A := exactQ)) {struct o} : Qc :=
  match o, t with
  | Scalar x, Scalar y => Qcabs (x - y)
  | Arr xs, Arr ys =>
      (fix go (xs ys : list (tensor (A := exactQ))) {struct xs} : Qc :=
         match xs, ys with
         | x :: xs', y :: ys' => (abs_diff_total x y + go xs' ys')%Qc
         | _, _ => 0%Qc
         end) xs ys
  | _, _ => 0%Qc
  end.

(** The number of elements of an array. *)
Fixpoint element_count `{A : Arith} (t : tensor) : nat :=
  match t with
  | Scalar _ => 1
  | Arr xs => list_sum (List.map element_count xs)
  end.

(** The mean absolute error of one example: the sum of the absolute
    differences over all its elements, divided by their number. *)
Definition spec_mean_abs_error (o t : tensor (A := exactQ)) : Qc :=
  (abs_diff_total o t / Q2Qc (Z.of_nat (element_count o) # 1))%Qc.

(** The per-example values of a batch. *)
Definition spec_example_losses (outputs targets : tensor (A := exactQ)) : list Qc :=
  zip_with spec_mean_abs_error (rows outputs) (rows targets).

(** The leaf of a parameter tree at a path of keys, if there is one. *)
Fixpoint tree_get {T} (t : pytree T) (path : list string) {struct t} : option T :=
  match t, path with
  | Leaf x, [] => Some x
  | Node cs, k :: path' =>
      (fix go (cs : list (string * pytree T)) : option T :=
         match cs with
         | [] => None
         | (k', c) :: cs' => if decide (k' = k) then tree_get c path' else go cs'
         end) cs
  | _, _ => None
  end.

(** ** An instance with several devices

    As [identity_net], on [devices] local devices. *)
Definition identity_devices (A : Arith) (devices : nat) (queue : nat -> Batch)
  : Externals := {|
  RandomState := nat;
  prng_split := fun rng n i => (rng * n + i)%nat;
  local_device_count := devices;
  unet_init := fun _ _ =>
    {| params_collection :=
         Node [("conv"%string, Leaf (Arr [Arr [Scalar fzero; Scalar fzero]]))] |};
  unet_apply := fun _ _ x _ _ => x;
  ssim := fun _ _ _ _ v => v;
  jax_nn_softmax := fun z => z;
  jax_nn_sigmoid := fun z => z;
  build_input_queue := fun _ _ _ _ _ => queue
|}.

(** An exact pixel. *)
Definition px (n : Z) (d : positive) : tensor (A := exactQ) :=
  Scalar (A := exactQ) (Q2Qc (n # d)).

(** A batch for two devices: two examples of two pixels on each.  The
    mean absolute errors are 3/2 and 1/2 on the first device, 1 and 1/3 on
    the second; the scores (the [volume_max] entries, for the instance
    above) are 1/4 and 1/2, then 1/8 and 1/8; the weights are 1 and 1,
    then 1 and 0. *)
Definition two_device_batch : Batch (A := exactQ) :=
  {| inputs := Arr [Arr [Arr [px 1 1; px 2 1]; Arr [px 1 2; px 0 1]];
                    Arr [Arr [px 3 1; px 1 1]; Arr [px 0 1; px 0 1]]];
     targets := Arr [Arr [Arr [px 0 1; px 0 1]; Arr [px 0 1; px 1 2]];
                     Arr [Arr [px 1 1; px 1 1]; Arr [px 1 3; px 1 3]]];
     mean := Arr [Arr [px 0 1; px 0 1]; Arr [px 0 1; px 0 1]];
     std := Arr [Arr [px 1 1; px 1 1]; Arr [px 1 1; px 1 1]];
     volume_max := Arr [Arr [px 1 4; px 1 2]; Arr [px 1 8; px 1 8]];
     weights := Arr [Arr [px 1 1; px 1 1]; Arr [px 1 1; px 0 1]] |}.

(** Parameters replicated for two devices. *)
Definition two_device_params : pytree (tensor (A := exactQ)) :=
  Leaf (Arr [px 0 1; px 0 1]).

(** * Properties *)

(** ** Fallible computations *)

Lemma result_bind_Ok {X Y} (m : result X) (f : X -> result Y) y :
  m ≫= f = Ok y -> exists x, m = Ok x /\ f x = Ok y.
Proof. destruct m as [x | e]; simpl; [eauto | discriminate]. Qed.

(** Split a successful [x ← m; k] into the success of [m] and of [k]. *)
Ltac bind_Ok H x Hx :=
  apply result_bind_Ok in H; destruct H as (x & Hx & H).

(** ** Python's integer division and ceiling on binary64 *)

Section PythonNumbersFacts.
Local Open Scope Z_scope.
Lemma digits2_pos_size p : digits2_pos p = Pos.size p.
Proof. induction p; simpl; congruence. Qed.

Lemma Zdigits2_bounds q d :
  0 < d -> 2 ^ (d - 1) <= q < 2 ^ d -> Zdigits2 q = d.
Proof.
  intros Hd [Hlo Hhi].
  assert (0 < q) by (pose proof (Z.pow_pos_nonneg 2 (d - 1)); lia).
  destruct q as [|p|p]; try lia.
  simpl. rewrite digits2_pos_size.
  pose proof (Pos.size_gt p) as Hgt.
  pose proof (Pos.size_le p) as Hle.
  assert (Hgt' : Z.pos p < 2 ^ Z.pos (Pos.size p)).
  { rewrite <- Pos2Z.inj_pow. lia. }
  assert (Hle' : 2 ^ Z.pos (Pos.size p) <= 2 * Z.pos p).
  { rewrite <- Pos2Z.inj_pow. lia. }
  destruct (Z.lt_trichotomy (Z.pos (Pos.size p)) d) as [Hlt | [Heq | Hgt2]]; auto.
  - exfalso.
    assert (2 ^ Z.pos (Pos.size p) <= 2 ^ (d - 1)) by (apply Z.pow_le_mono_r; lia).
    lia.
  - exfalso.
    assert (2 ^ (d + 1) <= 2 ^ Z.pos (Pos.size p)) by (apply Z.pow_le_mono_r; lia).
    rewrite Z.pow_add_r in H0 by lia. lia.
Qed.

Lemma Zdigits2_range q : 0 < q -> 0 < Zdigits2 q /\ 2 ^ (Zdigits2 q - 1) <= q < 2 ^ Zdigits2 q.
Proof.
  intros Hq. destruct q as [|p|p]; try lia.
  cbn [Zdigits2]. rewrite digits2_pos_size.
  pose proof (Pos.size_gt p) as Hgt.
  pose proof (Pos.size_le p) as Hle.
  assert (Hgt' : Z.pos p < 2 ^ Z.pos (Pos.size p)).
  { rewrite <- Pos2Z.inj_pow. lia. }
  assert (Hle' : 2 ^ Z.pos (Pos.size p) <= 2 * Z.pos p).
  { rewrite <- Pos2Z.inj_pow. lia. }
  split; [lia|]. split; [|lia].
  replace (Z.pos (Pos.size p)) with (Z.pos (Pos.size p) - 1 + 1) in Hle' by lia.
  rewrite Z.pow_add_r in Hle' by lia. change (2 ^ 1) with 2 in Hle'. lia.
Qed.


Lemma rne_range q l : q <= round_nearest_even q l <= q + 1.
Proof. unfold round_nearest_even. destruct l as [|[]]; try destruct (Z.even q); lia. Qed.

Lemma shr_1_m q r s : 0 < q -> shr_m (shr_1 {| shr_m := q; shr_r := r; shr_s := s |}) = q / 2.
Proof.
  intros. destruct q as [|p|p]; try lia.
  destruct p; simpl.
  - apply Z.div_unique with (r := 1); lia.
  - apply Z.div_unique with (r := 0); lia.
  - reflexivity.
Qed.

Lemma shr_record_of_loc_m q l : shr_m (shr_record_of_loc q l) = q.
Proof. destruct l as [|[]]; reflexivity. Qed.

Lemma loc_of_shr_record_of_loc q l : loc_of_shr_record (shr_record_of_loc q l) = l.
Proof. destruct l as [|[]]; reflexivity. Qed.

Lemma shr_fexp_53 q e l :
  2 ^ 52 <= q < 2 ^ 53 -> -1074 <= e ->
  shr_fexp 53 1024 q e l = (shr_record_of_loc q l, e).
Proof.
  intros Hq He. unfold shr_fexp.
  rewrite (Zdigits2_bounds q 53) by (simpl; lia).
  unfold fexp, emin.
  replace (Z.max (53 + e - 53) (3 - 1024 - 53) - e) with 0 by lia.
  reflexivity.
Qed.

Lemma shr_fexp_54 q e l :
  2 ^ 53 <= q < 2 ^ 54 -> -1074 <= e ->
  shr_fexp 53 1024 q e l = (shr_1 (shr_record_of_loc q l), e + 1).
Proof.
  intros Hq He. unfold shr_fexp.
  rewrite (Zdigits2_bounds q 54) by (simpl; lia).
  unfold fexp, emin.
  replace (Z.max (54 + e - 53) (3 - 1024 - 53) - e) with 1 by lia.
  reflexivity.
Qed.

(* second normalisation: significand in [2^52, 2^53] *)
Lemma renorm_53 sx m1 e :
  2 ^ 52 <= m1 <= 2 ^ 53 -> -1074 <= e <= 960 ->
  exists m j,
    (let '(mrs, e'') := shr_fexp 53 1024 m1 e loc_Exact in
     match shr_m mrs with
     | Z0 => S754_zero sx
     | Zpos m => if Z.leb e'' (1024 - 53) then S754_finite sx m e'' else S754_infinity sx
     | _ => S754_nan
     end) = S754_finite sx m (e + j) /\ 0 <= j /\ Z.pos m * 2 ^ j = m1.
Proof.
  intros Hm He.
  destruct (Z_lt_le_dec m1 (2 ^ 53)) as [Hlt | Hge].
  - rewrite shr_fexp_53 by lia. simpl shr_m.
    destruct m1 as [|p|p]; try lia.
    exists p, 0. replace (e + 0) with e by lia.
    replace (e <=? 1024 - 53) with true by (symmetry; apply Z.leb_le; lia).
    split; [reflexivity|]. split; lia.
  - assert (m1 = 2 ^ 53) by lia. subst m1.
    rewrite shr_fexp_54 by lia.
    exists (4503599627370496%positive), 1.
    replace (e + 1 <=? 1024 - 53) with true by (symmetry; apply Z.leb_le; lia).
    simpl. split; [reflexivity|]. split; [lia | reflexivity].
Qed.

Lemma binary_round_aux_54 sx q e l :
  2 ^ 52 <= q < 2 ^ 54 -> -1074 <= e <= 950 ->
  exists m j,
    binary_round_aux 53 1024 sx q e l = S754_finite sx m (e + j) /\
    0 <= j /\ Z.pos m * 2 ^ j = Mround q l.
Proof.
  intros Hq He. unfold binary_round_aux, Mround.
  destruct (Z.ltb_spec q (2 ^ 53)) as [Hlt | Hge].
  - rewrite shr_fexp_53 by lia.
    rewrite shr_record_of_loc_m, loc_of_shr_record_of_loc.
    pose proof (rne_range q l). 
    apply renorm_53; lia.
  - rewrite shr_fexp_54 by lia.
    assert (Hm : shr_m (shr_1 (shr_record_of_loc q l)) = q / 2).
    { destruct l as [|[]]; apply shr_1_m; lia. }
    rewrite Hm. fold (halve_loc q l). 
    pose proof (rne_range (q / 2) (halve_loc q l)).
    assert (2 ^ 52 <= q / 2 < 2 ^ 53).
    { split; [apply Z.div_le_lower_bound | apply Z.div_lt_upper_bound]; lia. }
    destruct (renorm_53 sx (round_nearest_even (q / 2) (halve_loc q l)) (e + 1)) as (m & j & Heq & Hj & Hv); try lia.
    exists m, (1 + j). replace (e + (1 + j)) with (e + 1 + j) by lia.
    split; [exact Heq|]. split; [lia|].
    rewrite Z.pow_add_r by lia. change (2 ^ 1) with 2. lia.
Qed.
Lemma halve_loc_spec q l :
  0 < q ->
  halve_loc q l =
    match Z.odd q, l with
    | false, loc_Exact => loc_Exact
    | false, loc_Inexact _ => loc_Inexact Lt
    | true, loc_Exact => loc_Inexact Eq
    | true, loc_Inexact _ => loc_Inexact Gt
    end.
Proof.
  intros Hq. destruct q as [|p|p]; try lia.
  unfold halve_loc. destruct p, l as [|[]]; reflexivity.
Qed.

Lemma new_location_cases b r :
  0 <= r < b ->
  (r = 0 /\ new_location b r = loc_Exact) \/
  (0 < r /\ 2 * r < b /\ new_location b r = loc_Inexact Lt) \/
  (0 < r /\ 2 * r = b /\ new_location b r = loc_Inexact Eq) \/
  (0 < r /\ b < 2 * r /\ new_location b r = loc_Inexact Gt).
Proof.
  intros Hr. unfold new_location, new_location_even, new_location_odd.
  destruct (Z.eqb_spec r 0) as [-> | Hnz].
  - left. destruct (Z.even b); auto.
  - right. assert (Hz : (r =? 0) = false) by (apply Z.eqb_neq; lia).
    destruct (Z.even b) eqn:Hev; rewrite Hz.
    + destruct (Z.compare_spec (2 * r) b); [right; left | left | right; right]; repeat split; auto; lia.
    + assert (Hodd : Z.odd b = true) by (rewrite <- Z.negb_even, Hev; reflexivity).
      apply Z.odd_spec in Hodd. destruct Hodd as [c Hc].
      destruct (Z.compare_spec (2 * r + 1) b); [left | left | right; right]; repeat split; auto; lia.
Qed.

Lemma div_eucl_div_mod a b : Z.div_eucl a b = (a / b, a mod b).
Proof. unfold Z.div, Z.modulo. destruct (Z.div_eucl a b); reflexivity. Qed.

Lemma SFdiv_core_small n b :
  0 < n <= 2 ^ 53 -> 0 < b <= 2 ^ 53 ->
  let s := 53 + Zdigits2 b - Zdigits2 n in
  SFdiv_core_binary 53 1024 n 0 b 0
    = (n * 2 ^ s / b, - s, new_location b ((n * 2 ^ s) mod b))
  /\ 0 <= s <= 106 /\ 2 ^ 52 <= n * 2 ^ s / b < 2 ^ 54.
Proof.
  intros Hn Hb s.
  destruct (Zdigits2_range n) as (Hd1 & Hn1 & Hn2); [lia|].
  destruct (Zdigits2_range b) as (Hd2 & Hb1 & Hb2); [lia|].
  set (d1 := Zdigits2 n) in *. set (d2 := Zdigits2 b) in *.
  assert (Hd1' : d1 <= 54).
  { destruct (Z_le_gt_dec d1 54); auto. exfalso.
    assert (2 ^ 54 <= 2 ^ (d1 - 1)) by (apply Z.pow_le_mono_r; lia). lia. }
  assert (Hd2' : d2 <= 54).
  { destruct (Z_le_gt_dec d2 54); auto. exfalso.
    assert (2 ^ 54 <= 2 ^ (d2 - 1)) by (apply Z.pow_le_mono_r; lia). lia. }
  assert (Hs : 0 <= s <= 106) by (unfold s; lia).
  split; [|split; [exact Hs|]].
  - unfold SFdiv_core_binary. fold d1 d2. unfold fexp, emin.
    replace (Z.min (Z.max (d1 + 0 - (d2 + 0) - 53) (3 - 1024 - 53)) (0 - 0)) with (- s)
      by (unfold s; lia).
    replace (0 - 0 - - s) with s by lia.
    assert (Hm : match s with Z.pos _ => Z.shiftl n s | 0 => n | Z.neg _ => 0 end = n * 2 ^ s).
    { destruct s as [|p|p] eqn:Es; try lia.
      - rewrite Z.shiftl_mul_pow2 by lia. reflexivity. }
    rewrite Hm, div_eucl_div_mod. reflexivity.
  - assert (Hp1 : 2 ^ (d1 - 1) * 2 ^ s = 2 ^ 52 * 2 ^ d2).
    { rewrite <- !Z.pow_add_r by lia. f_equal. unfold s. lia. }
    assert (Hp2 : 2 ^ d1 * 2 ^ s = 2 ^ 54 * 2 ^ (d2 - 1)).
    { rewrite <- !Z.pow_add_r by lia. f_equal. unfold s. lia. }
    assert (Hps : 0 < 2 ^ s) by (apply Z.pow_pos_nonneg; lia).
    split.
    + apply Z.div_le_lower_bound; [lia|]. nia.
    + apply Z.div_lt_upper_bound; [lia|]. nia.
Qed.

Lemma rne_exact q : round_nearest_even q loc_Exact = q.
Proof. reflexivity. Qed.

Lemma Mround_ceil n b s :
  0 < n <= 2 ^ 53 -> 0 < b -> 0 <= s ->
  2 ^ 52 <= n * 2 ^ s / b < 2 ^ 54 ->
  let M := Mround (n * 2 ^ s / b) (new_location b ((n * 2 ^ s) mod b)) in
  (ceil_div n b - 1) * 2 ^ s < M <= ceil_div n b * 2 ^ s.
Proof.
  intros Hn Hb Hs Hq M.
  set (P := 2 ^ s) in *.
  assert (HP : 0 < P) by (apply Z.pow_pos_nonneg; lia).
  assert (HPeven : s = 0 /\ P = 1 \/ exists P', P = 2 * P' /\ 0 < P').
  { destruct (Z.eq_dec s 0) as [-> | Hs0]; [left; split; reflexivity | right].
    exists (2 ^ (s - 1)). split.
    - unfold P. replace s with (1 + (s - 1)) at 1 by lia.
      rewrite Z.pow_add_r by lia. reflexivity.
    - apply Z.pow_pos_nonneg; lia. }
  set (k := n / b). set (r0 := n mod b).
  assert (Hnk : n = b * k + r0) by (apply Z.div_mod; lia).
  assert (Hr0 : 0 <= r0 < b) by (apply Z.mod_pos_bound; lia).
  set (q := n * P / b) in *. set (r := (n * P) mod b) in *.
  assert (Hqr : n * P = b * q + r) by (apply Z.div_mod; lia).
  assert (Hr : 0 <= r < b) by (apply Z.mod_pos_bound; lia).
  assert (Hk0 : 0 <= k) by (apply Z.div_pos; lia).
  set (t := q - k * P).
  assert (Ht : b * t + r = r0 * P) by (unfold t; nia).
  assert (Ht0 : 0 <= t < P) by nia.
  assert (Hq' : q = k * P + t) by (unfold t; lia).
  assert (Hhalf : 2 * (q / 2) + Z.b2z (Z.odd q) = q).
  { rewrite <- Z.div2_div. symmetry. apply Z.div2_odd. }
  assert (HK : ceil_div n b = if r0 =? 0 then k else k + 1).
  { unfold ceil_div. destruct (Z.eqb_spec r0 0) as [E | E].
    - symmetry. apply Z.div_unique with (r := b - 1); lia.
    - symmetry. apply Z.div_unique with (r := r0 - 1); lia. }
  rewrite HK. clear HK.
  assert (Hodd_t : (exists P', P = 2 * P' /\ 0 < P') -> Z.odd q = Z.odd t).
  { intros (P' & HP' & _). rewrite Hq', HP'.
    replace (k * (2 * P') + t) with (t + 2 * (k * P')) by lia.
    apply Z.odd_add_mul_2. }
  assert (Hodd_t1 : Z.odd t = true -> t <> 0 /\ (forall P', P = 2 * P' -> t + 1 <= P)).
  { intros Ho. split.
    - intros ->. discriminate.
    - intros P' HP'. apply Z.odd_spec in Ho. destruct Ho as [c Hc]. lia. }
  unfold M, Mround. clear M.
  destruct (new_location_cases b r Hr) as [(Er & El) | Hcases].
  - (* the scaled quotient is exact *)
    rewrite El.
    destruct (Z.eqb_spec r0 0) as [E0 | E0].
    + assert (Et : t = 0) by nia.
      destruct (Z.ltb_spec q (2 ^ 53)) as [Hlt | Hge].
      * rewrite rne_exact. lia.
      * rewrite halve_loc_spec by lia.
        assert (Hev : Z.odd q = false).
        { destruct HPeven as [(_ & HP1) | Hex].
          - assert (Eb : b = 1) by nia. assert (Eq53 : q = 2 ^ 53) by nia.
            rewrite Eq53. reflexivity.
          - rewrite (Hodd_t Hex), Et. reflexivity. }
        rewrite Hev. cbv iota. rewrite rne_exact. rewrite Hev in Hhalf. cbn [Z.b2z] in Hhalf. lia.
    + assert (Ht1 : 0 < t) by nia.
      destruct (Z.ltb_spec q (2 ^ 53)) as [Hlt | Hge].
      * rewrite rne_exact. lia.
      * rewrite halve_loc_spec by lia.
        destruct (Z.odd q) eqn:Hoq; cbn [Z.b2z] in Hhalf.
        -- destruct HPeven as [(_ & HP1) | Hex]; [lia|].
           pose proof (Hodd_t Hex) as Hot. try rewrite Hoq in Hot. symmetry in Hot.
           destruct (Hodd_t1 Hot) as (_ & Hup).
           destruct Hex as (P' & HP' & HP'0). specialize (Hup P' HP').
           assert (t <> 1).
           { intros E1. assert (b * k < 2 ^ 53) by lia.
             assert (2 ^ 53 <= k * P) by lia. nia. }
           assert (3 <= t).
           { apply Z.odd_spec in Hot. destruct Hot as [c Hc]. lia. }
           pose proof (rne_range (q / 2) (loc_Inexact Eq)). lia.
        -- rewrite rne_exact. lia.
  - (* the scaled quotient is inexact *)
    assert (E0 : 0 < r0) by (destruct Hcases as [H|[H|H]]; nia).
    assert (Hbk : b * k < 2 ^ 53) by lia.
    destruct (Z.eqb_spec r0 0) as [? | _]; [lia|].
    destruct (Z.ltb_spec q (2 ^ 53)) as [Hlt | Hge].
    + pose proof (rne_range q (new_location b r)) as Hrr.
      split; [|lia].
      destruct (Z.eq_dec t 0) as [Et | Et]; [|lia].
      assert (HkP : q = k * P) by lia.
      assert (Hk1 : 0 < k).
      { destruct (Z.eq_dec k 0) as [Ek | Ek]; [|lia].
        rewrite Ek, Z.mul_0_l in HkP. lia. }
      assert (HbP : b < 2 * P).
      { apply (Z.mul_lt_mono_pos_r k); lia. }
      assert (HrP : P <= r).
      { assert (Er : r = r0 * P) by (rewrite Et, Z.mul_0_r in Ht; lia).
        rewrite Er. rewrite <- (Z.mul_1_l P) at 1.
        apply Z.mul_le_mono_nonneg_r; lia. }
      destruct Hcases as [(_ & H2 & _)|[(_ & H2 & _)|(_ & _ & El)]]; try lia.
      rewrite El. unfold round_nearest_even. lia.
    + destruct HPeven as [(_ & HP1) | Hex]; [nia|].
      pose proof (Hodd_t Hex) as Hot.
      assert (Hloc : exists c, new_location b r = loc_Inexact c).
      { destruct Hcases as [(_ & _ & El)|[(_ & _ & El)|(_ & _ & El)]]; rewrite El; eauto. }
      destruct Hloc as [c Hc]. rewrite Hc, halve_loc_spec by lia.
      destruct (Z.odd q) eqn:Hoq; cbn [Z.b2z] in Hhalf.
      * symmetry in Hot. destruct (Hodd_t1 Hot) as (_ & Hup).
        destruct Hex as (P' & HP' & HP'0). specialize (Hup P' HP').
        unfold round_nearest_even. lia.
      * unfold round_nearest_even.
        assert (t <> 0).
        { intros Et. assert (2 ^ 53 <= k * P) by lia. nia. }
        lia.
Qed.

Lemma math_ceil_char m s j K :
  0 <= s -> 0 <= j ->
  (K - 1) * 2 ^ s < Z.pos m * 2 ^ j <= K * 2 ^ s ->
  math_ceil (S754_finite false m (- s + j)) = Ok K.
Proof.
  intros Hs Hj HK. unfold math_ceil, cond_Zopp. f_equal.
  assert (HPs : 0 < 2 ^ s) by (apply Z.pow_pos_nonneg; lia).
  assert (HPj : 0 < 2 ^ j) by (apply Z.pow_pos_nonneg; lia).
  destruct (Z.leb_spec 0 (- s + j)) as [Hle | Hlt].
  - assert (E : 2 ^ j = 2 ^ (- s + j) * 2 ^ s).
    { rewrite <- Z.pow_add_r by lia. f_equal. lia. }
    rewrite E in HK. nia.
  - assert (E : 2 ^ s = 2 ^ j * 2 ^ (- (- s + j))).
    { rewrite <- Z.pow_add_r by lia. f_equal. lia. }
    set (T := 2 ^ (- (- s + j))) in *.
    assert (HT : 0 < T) by (apply Z.pow_pos_nonneg; lia).
    rewrite E in HK.
    assert (Hdiv : - Z.pos m / T = - K).
    { symmetry. apply Z.div_unique with (r := K * T - Z.pos m); nia. }
    rewrite Hdiv. lia.
Qed.

(** Values Python computes: [1 / 3], [10 / 4], and the batch counts of a
    few calls. *)
Example true_divide_1_3 :
  int_true_divide 1 3 = Ok (S754_finite false 6004799503160661 (-54)).
Proof. reflexivity. Qed.

Example true_divide_10_4 :
  int_true_divide 10 4 = Ok (S754_finite false 5629499534213120 (-51)).
Proof. reflexivity. Qed.

Example num_batches_10_4 : num_batches 10 4 = Ok 3.
Proof. reflexivity. Qed.

Example num_batches_12_4 : num_batches 12 4 = Ok 3.
Proof. reflexivity. Qed.

Example num_batches_by_zero : num_batches 10 0 = Raise ZeroDivisionError.
Proof. reflexivity. Qed.

Example num_batches_rounds : num_batches (2 ^ 53 + 1) (2 ^ 53) = Ok 1.
Proof. reflexivity. Qed.

Example num_batches_overflow : num_batches (2 ^ 1024) 1 = Raise OverflowError.
Proof. reflexivity. Qed.

(** For operands up to [2^53] the float detour is harmless: the batch
    count is the mathematical ceiling. *)
Lemma num_batches_small n b :
  0 < n <= 2 ^ 53 -> 0 < b <= 2 ^ 53 ->
  num_batches n b = Ok (ceil_div n b).
Proof.
  intros Hn Hb. unfold num_batches, int_true_divide.
  replace (b =? 0) with false by (symmetry; apply Z.eqb_neq; lia).
  replace (n =? 0) with false by (symmetry; apply Z.eqb_neq; lia).
  replace (n <? 0) with false by (symmetry; apply Z.ltb_ge; lia).
  replace (b <? 0) with false by (symmetry; apply Z.ltb_ge; lia).
  rewrite !Z.abs_eq by lia.
  destruct (SFdiv_core_small n b Hn Hb) as (Hcore & Hs & Hq).
  rewrite Hcore.
  set (s := 53 + Zdigits2 b - Zdigits2 n) in *.
  destruct (binary_round_aux_54 (xorb false false) (n * 2 ^ s / b) (- s)
              (new_location b ((n * 2 ^ s) mod b)))
    as (m & j & Hround & Hj & Hval); [lia | lia |].
  rewrite Hround. simpl xorb. cbn [mbind result_bind].
  apply math_ceil_char; [lia | lia |].
  rewrite Hval. apply Mround_ceil; lia.
Qed.

End PythonNumbersFacts.

(** ** Tensors and trees *)

Section TensorFacts.
Context `{A : Arith}.

Lemma tensor_ind' (P : tensor -> Prop) :
  (forall x, P (Scalar x)) ->
  (forall xs, Forall P xs -> P (Arr xs)) ->
  forall t, P t.
Proof.
  intros HS HA. fix IH 1. intros [x | xs].
  - apply HS.
  - apply HA. induction xs as [|y ys IHys]; constructor; [apply IH | exact IHys].
Qed.

Lemma pytree_ind' {T} (P : pytree T -> Prop) :
  (forall x, P (Leaf x)) ->
  (forall cs, Forall (fun kv => P (snd kv)) cs -> P (Node cs)) ->
  forall t, P t.
Proof.
  intros HL HN. fix IH 1. intros [x | cs].
  - apply HL.
  - apply HN. induction cs as [|[k c] cs IHcs]; constructor; [apply IH | exact IHcs].
Qed.

Lemma tree_leaves_map {T U} (f : T -> U) (t : pytree T) :
  tree_leaves (tree_map f t) = List.map f (tree_leaves t).
Proof.
  induction t as [x | cs IH] using pytree_ind'; [reflexivity|].
  cbn [tree_map tree_leaves]. rewrite List.map_map. cbn [snd].
  rewrite concat_map, List.map_map. f_equal.
  induction IH as [|kv cs Hkv _ IHcs]; [reflexivity|].
  cbn [List.map]. rewrite Hkv, IHcs. reflexivity.
Qed.

Lemma tree_get_map {T U} (f : T -> U) (t : pytree T) : forall path,
  tree_get (tree_map f t) path = f <$> tree_get t path.
Proof.
  induction t as [x | cs IH] using pytree_ind'; intros [|k path]; try reflexivity.
  cbn [tree_map tree_get].
  induction IH as [|[k' c] cs Hc _ IHcs]; [reflexivity|].
  cbn [List.map fst snd] in *. destruct (decide (k' = k)); [apply Hc | exact IHcs].
Qed.

(** [x.shape] is the shape of [has_shape] for an array without an empty
    axis. *)
Lemma shape_has_shape sh : forall t : tensor,
  has_shape sh t = true -> Forall (fun d => 0 < d) sh -> shape t = sh.
Proof.
  induction sh as [|n sh IH]; intros [x | xs] Ht Hpos; try discriminate; [reflexivity|].
  cbn [has_shape] in Ht. apply andb_true_iff in Ht. destruct Ht as [Hl Hx].
  apply Nat.eqb_eq in Hl. inversion Hpos as [|? ? Hn Hpos']; subst.
  destruct xs as [|x xs]; [cbn in Hn; lia|].
  cbn [forallb] in Hx. apply andb_true_iff in Hx. destruct Hx as [Hx _].
  cbn [shape]. f_equal. apply IH; assumption.
Qed.

Lemma has_shape_zeros sh : has_shape sh (jnp_zeros sh) = true.
Proof.
  induction sh as [|n sh IH]; [reflexivity|].
  cbn [jnp_zeros has_shape]. rewrite length_replicate, Nat.eqb_refl. cbn [andb].
  apply forallb_forall. intros t Ht.
  apply list_elem_of_In, elem_of_replicate in Ht. destruct Ht as [-> _]. exact IH.
Qed.

Lemma zeros_all_zero sh : all_elements (fun x => x = fzero) (jnp_zeros sh).
Proof.
  unfold all_elements. induction sh as [|n sh IH]; cbn [jnp_zeros flatten].
  - repeat constructor.
  - apply Forall_concat, Forall_forall. intros l Hl.
    apply list_elem_of_In, in_map_iff in Hl. destruct Hl as (t & <- & Ht).
    apply list_elem_of_In, elem_of_replicate in Ht. destruct Ht as [-> _]. exact IH.
Qed.

Lemma flatten_tmap (g : num -> num) (t : tensor) :
  flatten (tmap g t) = List.map g (flatten t).
Proof.
  induction t as [x | xs IH] using tensor_ind'; [reflexivity|].
  cbn [tmap flatten]. rewrite List.map_map, concat_map, List.map_map. f_equal.
  induction IH as [|y ys Hy _ IHys]; [reflexivity|].
  cbn [List.map]. rewrite Hy, IHys. reflexivity.
Qed.

Lemma tmap2_Arr (f : num -> num -> num) xs : forall ys,
  length xs = length ys ->
  tmap2 f (Arr xs) (Arr ys)
  = (zs ← result_mapM (fun xy => tmap2 f (fst xy) (snd xy)) (zip xs ys); Ok (Arr zs)).
Proof.
  intros ys Hlen. cbn [tmap2]. f_equal.
  revert ys Hlen. induction xs as [|x xs IH]; intros [|y ys] Hlen; try discriminate;
    [reflexivity|].
  cbn [zip zip_with result_mapM fst snd].
  destruct (tmap2 f x y) as [z | e]; [|reflexivity].
  cbn [mbind result_bind]. rewrite IH by (now injection Hlen). reflexivity.
Qed.

(** On two arrays of one shape an elementwise operation succeeds, keeps
    the shape, and acts on the elements position by position. *)
Lemma tmap2_same_shape (f : num -> num -> num) sh : forall a b,
  has_shape sh a = true -> has_shape sh b = true ->
  exists c, tmap2 f a b = Ok c
    /\ has_shape sh c = true
    /\ flatten c = zip_with f (flatten a) (flatten b)
    /\ length (flatten a) = length (flatten b).
Proof.
  induction sh as [|n sh IH]; intros a b Ha Hb.
  - destruct a as [x | xs], b as [y | ys]; try discriminate.
    exists (Scalar (f x y)). repeat split.
  - destruct a as [x | xs], b as [y | ys]; try discriminate.
    cbn [has_shape] in Ha, Hb.
    apply andb_true_iff in Ha, Hb. destruct Ha as [Hlx Hx], Hb as [Hly Hy].
    apply Nat.eqb_eq in Hlx, Hly.
    rewrite tmap2_Arr by congruence.
    assert (Hrows : exists zs,
      result_mapM (fun xy => tmap2 f (fst xy) (snd xy)) (zip xs ys) = Ok zs
      /\ length zs = length xs
      /\ forallb (has_shape sh) zs = true
      /\ concat (List.map flatten zs)
         = zip_with f (concat (List.map flatten xs)) (concat (List.map flatten ys))
      /\ length (concat (List.map flatten xs)) = length (concat (List.map flatten ys))).
    { assert (Hlen : length xs = length ys) by congruence.
      clear Hlx Hly. revert ys Hy Hlen.
      induction xs as [|x xs IHxs]; intros [|y ys] Hy Hlen; try discriminate.
      - exists []. repeat split.
      - cbn [forallb] in Hx, Hy. apply andb_true_iff in Hx, Hy.
        destruct Hx as [Hx Hxs], Hy as [Hy Hys].
        destruct (IH x y Hx Hy) as (z & Hz & Hzs & Hzf & Hzl).
        destruct (IHxs Hxs ys Hys) as (zs & Hzs' & Hlz & Hall & Hflat & Hl);
          [now injection Hlen|].
        exists (z :: zs).
        cbn [zip zip_with result_mapM fst snd]. rewrite Hz. cbn [mbind result_bind].
        rewrite Hzs'. cbn [mbind result_bind].
        split; [reflexivity|]. split; [cbn; congruence|].
        split; [cbn; rewrite Hzs, Hall; reflexivity|].
        cbn [List.map concat]. split.
        + rewrite zip_with_app by exact Hzl. rewrite Hzf, Hflat. reflexivity.
        + rewrite !length_app. congruence. }
    destruct Hrows as (zs & Hzs & Hlz & Hall & Hflat & Hl).
    rewrite Hzs. cbn [mbind result_bind].
    exists (Arr zs). split; [reflexivity|].
    cbn [has_shape flatten]. rewrite Hlz, Hlx, Nat.eqb_refl, Hall.
    repeat split; assumption.
Qed.

(** The rows of an elementwise operation on two arrays of one shape. *)
Lemma tmap2_rows (f : num -> num -> num) sh : forall xs ys,
  length xs = length ys ->
  forallb (has_shape sh) xs = true -> forallb (has_shape sh) ys = true ->
  exists zs,
    result_mapM (fun xy => tmap2 f (fst xy) (snd xy)) (zip xs ys) = Ok zs
    /\ Forall2 (fun xy z => flatten z = zip_with f (flatten (fst xy)) (flatten (snd xy))
                           /\ length (flatten (fst xy)) = length (flatten (snd xy)))
         (zip xs ys) zs.
Proof.
  induction xs as [|x xs IH]; intros [|y ys] Hlen Hx Hy; try discriminate.
  - exists []. split; [reflexivity | constructor].
  - cbn [forallb] in Hx, Hy. apply andb_true_iff in Hx, Hy.
    destruct Hx as [Hx Hxs], Hy as [Hy Hys].
    destruct (tmap2_same_shape f sh x y Hx Hy) as (z & Hz & _ & Hzf & Hzl).
    destruct (IH ys) as (zs & Hzs & Hall); [now injection Hlen | assumption | assumption |].
    exists (z :: zs). cbn [zip zip_with result_mapM fst snd].
    rewrite Hz. cbn [mbind result_bind]. rewrite Hzs. cbn [mbind result_bind].
    split; [reflexivity|]. constructor; [split; assumption | exact Hall].
Qed.

End TensorFacts.

(** ** The evaluation loop *)

Section LoopFacts.
Context `{A : Arith} `{E : !Externals}.

Lemma accumulate_three a b c synced :
  accumulate [("ssim"%string, a); ("loss"%string, b); ("weight"%string, c)] synced
  = (s ← synced_get synced "ssim" 0;
     l ← synced_get synced "loss" 0;
     w ← synced_get synced "weight" 0;
     Ok [("ssim"%string, py_add a s); ("loss"%string, py_add b l);
         ("weight"%string, py_add c w)]).
Proof.
  unfold accumulate. cbn [result_mapM fst snd].
  destruct (synced_get synced "ssim" 0); cbn; [|reflexivity].
  destruct (synced_get synced "loss" 0); cbn; [|reflexivity].
  destruct (synced_get synced "weight" 0); cbn; reflexivity.
Qed.

Lemma step_three params rngs batch a b c :
  (synced ← _eval_model params batch rngs;
   accumulate [("ssim"%string, a); ("loss"%string, b); ("weight"%string, c)] synced)
  = (m ← synced_first params rngs batch;
     Ok [("ssim"%string, py_add a (m_ssim m)); ("loss"%string, py_add b (m_loss m));
         ("weight"%string, py_add c (m_weight m))]).
Proof.
  unfold synced_first.
  destruct (_eval_model params batch rngs) as [synced | e];
    cbn [mbind result_bind]; [|reflexivity].
  rewrite accumulate_three.
  destruct (synced_get synced "ssim" 0); cbn; [|reflexivity].
  destruct (synced_get synced "loss" 0); cbn; [|reflexivity].
  destruct (synced_get synced "weight" 0); cbn; reflexivity.
Qed.

Lemma advance_0 (it : Iterator) : advance it 0 = it.
Proof. destruct it. unfold advance. cbn. f_equal. lia. Qed.

Lemma advance_S (it : Iterator) n :
  advance {| it_stream := it_stream it; it_pos := S (it_pos it) |} n = advance it (S n).
Proof. unfold advance. cbn. f_equal. lia. Qed.

Lemma drawn_S (it : Iterator) n :
  drawn it (S n)
  = it_stream it (it_pos it)
    :: drawn {| it_stream := it_stream it; it_pos := S (it_pos it) |} n.
Proof.
  unfold drawn. cbn [seq List.map it_stream it_pos].
  rewrite Nat.add_0_r. f_equal.
  rewrite <- seq_shift, List.map_map.
  apply List.map_ext. intros i. f_equal. lia.
Qed.

Lemma set_eval_iters_id (self : Workload) : set_eval_iters self (_eval_iters self) = self.
Proof. destruct self. reflexivity. Qed.

(** A run of the loop in which every drawn batch evaluates: the iterator
    advances by [n] and the totals grow by the synced values, in order. *)
Lemma eval_loop_Ok n : forall (self : Workload) split params rngs it a b c ms,
  _eval_iters self !! split = Some it ->
  result_mapM (synced_first params rngs) (drawn it n) = Ok ms ->
  eval_loop n self split params rngs
    [("ssim"%string, a); ("loss"%string, b); ("weight"%string, c)]
  = (set_eval_iters self (<[split := advance it n]> (_eval_iters self)),
     Ok [("ssim"%string, fold_left py_add (List.map m_ssim ms) a);
         ("loss"%string, fold_left py_add (List.map m_loss ms) b);
         ("weight"%string, fold_left py_add (List.map m_weight ms) c)]).
Proof.
  induction n as [|n IH]; intros self split params rngs it a b c ms Hit Hms.
  - cbn in Hms. injection Hms as <-. cbn.
    rewrite advance_0, insert_id by exact Hit.
    rewrite set_eval_iters_id. reflexivity.
  - rewrite drawn_S in Hms. cbn [result_mapM] in Hms.
    bind_Ok Hms m Hm.
    bind_Ok Hms ms' Hms'.
    injection Hms as <-.
    cbn [eval_loop]. unfold next_batch. rewrite Hit.
    rewrite step_three, Hm. cbn [mbind result_bind].
    erewrite IH; [| cbn; apply lookup_insert_eq | exact Hms'].
    cbn [_eval_iters set_eval_iters]. rewrite insert_insert_eq, advance_S.
    reflexivity.
Qed.

(** Whatever happens in the loop, it touches one cache entry only, and
    only by drawing from it. *)
Lemma eval_loop_state n : forall (self : Workload) split params rngs it tot,
  _eval_iters self !! split = Some it ->
  exists k, k <= n /\
    fst (eval_loop n self split params rngs tot)
    = set_eval_iters self (<[split := advance it k]> (_eval_iters self)).
Proof.
  induction n as [|n IH]; intros self split params rngs it tot Hit.
  - exists 0. split; [lia|]. cbn.
    rewrite advance_0, insert_id by exact Hit.
    rewrite set_eval_iters_id. reflexivity.
  - cbn [eval_loop]. unfold next_batch. rewrite Hit.
    destruct (synced_metrics ← _eval_model params (it_stream it (it_pos it)) rngs;
              accumulate tot synced_metrics) as [tot' | e].
    + destruct (IH (set_eval_iters self
                      (<[split := {| it_stream := it_stream it; it_pos := S (it_pos it) |}]>
                         (_eval_iters self))) split params rngs
                  {| it_stream := it_stream it; it_pos := S (it_pos it) |} tot')
        as (k & Hk & Hst).
      { cbn. apply lookup_insert_eq. }
      exists (S k). split; [lia|]. rewrite Hst.
      cbn [_eval_iters set_eval_iters]. rewrite insert_insert_eq, advance_S.
      reflexivity.
    + exists 1. split; [lia|]. cbn [fst]. f_equal. f_equal.
      unfold advance. f_equal. lia.
Qed.

Lemma fold_py_add_JaxArray xs : forall y,
  fold_left py_add xs (JaxArray y) = JaxArray (fold_left fadd xs y).
Proof. induction xs as [|x xs IH]; intros y; cbn; [reflexivity | apply IH]. Qed.

Lemma fold_py_add_PyFloat xs y :
  xs <> [] -> fold_left py_add xs (PyFloat y) = JaxArray (fold_left fadd xs y).
Proof. destruct xs as [|x xs]; [congruence|]. intros _. cbn. apply fold_py_add_JaxArray. Qed.

Lemma normalize_JaxArray s l w :
  normalize [("ssim"%string, JaxArray s); ("loss"%string, JaxArray l);
             ("weight"%string, JaxArray w)]
  = Ok (normalized s l w).
Proof. reflexivity. Qed.

Lemma normalize_PyFloat s l w :
  normalize [("ssim"%string, PyFloat s); ("loss"%string, PyFloat l);
             ("weight"%string, PyFloat w)]
  = Raise AttributeError.
Proof. reflexivity. Qed.

End LoopFacts.

Section SplitEvaluation.
Context `{A : Arith} `{E : !Externals}.

Lemma result_mapM_length {X Y} (f : X -> result Y) l : forall ys,
  result_mapM f l = Ok ys -> length ys = length l.
Proof.
  induction l as [|x l IH]; intros ys Hys; cbn in Hys.
  - injection Hys as <-. reflexivity.
  - bind_Ok Hys y Hy.
    bind_Ok Hys ys' Hys'.
    injection Hys as <-. cbn. f_equal. apply IH, Hys'.
Qed.

Lemma drawn_length (it : Iterator) n : length (drawn it n) = n.
Proof. unfold drawn. rewrite length_map, length_seq. reflexivity. Qed.

(** The state after the lazy construction of the split's iterator. *)
Lemma lazy_build_lookup (self : Workload) split rng data_dir gbs :
  _eval_iters
    match _eval_iters self !! split with
    | Some _ => self
    | None =>
        set_eval_iters
          (log_queue self
             {| qc_rng := prng_split rng 2 0; qc_split := split;
                qc_data_dir := data_dir; qc_global_batch_size := gbs |})
          (<[split := {| it_stream := build_input_queue (prng_split rng 2 0) split
                                       data_dir gbs true;
                         it_pos := 0 |}]> (_eval_iters self))
    end !! split
  = Some (split_iterator self split rng data_dir gbs).
Proof.
  unfold split_iterator.
  destruct (_eval_iters self !! split) as [it|] eqn:Hit.
  - exact Hit.
  - cbn. apply lookup_insert_eq.
Qed.

Lemma ceil_div_pos n b : (0 < n)%Z -> (0 < b)%Z -> (1 <= ceil_div n b)%Z.
Proof.
  intros Hn Hb. unfold ceil_div.
  apply Z.div_le_lower_bound; lia.
Qed.

(** The call, for a batch count [nb] the float computation returns and
    drawn batches that all evaluate. *)
Lemma eval_model_on_split_Ok (self : Workload) split n b params model_state rng
    data_dir global_step nb ms :
  num_batches n b = Ok nb ->
  result_mapM (synced_first params (eval_rngs rng))
    (drawn (split_iterator self split rng data_dir b) (Z.to_nat nb)) = Ok ms ->
  pulls_batches self split n b params model_state rng data_dir global_step (Z.to_nat nb)
  /\ snd (_eval_model_on_split self split n b params model_state rng data_dir global_step)
     = normalize
         [("ssim"%string, fold_left py_add (List.map m_ssim ms) (PyFloat fzero));
          ("loss"%string, fold_left py_add (List.map m_loss ms) (PyFloat fzero));
          ("weight"%string, fold_left py_add (List.map m_weight ms) (PyFloat fzero))].
Proof.
  intros Hnb Hms. unfold pulls_batches, _eval_model_on_split.
  rewrite Hnb.
  pose proof (lazy_build_lookup self split rng data_dir b) as Hit.
  set (self1 := match _eval_iters self !! split with
                | Some _ => self
                | None => _
                end) in *.
  fold (eval_rngs rng).
  rewrite (eval_loop_Ok _ self1 split params (eval_rngs rng) _ _ _ _ ms Hit Hms).
  cbn [fst snd _eval_iters set_eval_iters mbind result_bind].
  split; [apply lookup_insert_eq | reflexivity].
Qed.

(** Every call leaves the workload as the lazy construction made it, but
    for the split's iterator, which is some batches further. *)
Lemma eval_model_on_split_state (self : Workload) split n b params model_state rng
    data_dir global_step :
  exists k,
    fst (_eval_model_on_split self split n b params model_state rng data_dir global_step)
    = {| _param_shapes := _param_shapes self;
         _eval_iters := <[split := advance (split_iterator self split rng data_dir b) k]>
                          (_eval_iters self);
         queues_built :=
           match _eval_iters self !! split with
           | Some _ => queues_built self
           | None => {| qc_rng := prng_split rng 2 0; qc_split := split;
                        qc_data_dir := data_dir; qc_global_batch_size := b |}
                     :: queues_built self
           end |}.
Proof.
  unfold _eval_model_on_split.
  pose proof (lazy_build_lookup self split rng data_dir b) as Hit.
  set (self1 := match _eval_iters self !! split with
                | Some _ => self
                | None => _
                end) in *.
  set (it0 := split_iterator self split rng data_dir b) in *.
  assert (Hself1 : forall k,
    set_eval_iters self1 (<[split := advance it0 k]> (_eval_iters self1))
    = {| _param_shapes := _param_shapes self;
         _eval_iters := <[split := advance it0 k]> (_eval_iters self);
         queues_built :=
           match _eval_iters self !! split with
           | Some _ => queues_built self
           | None => {| qc_rng := prng_split rng 2 0; qc_split := split;
                        qc_data_dir := data_dir; qc_global_batch_size := b |}
                     :: queues_built self
           end |}).
  { intros k. unfold self1. destruct (_eval_iters self !! split); [reflexivity|].
    unfold set_eval_iters, log_queue. cbn. rewrite insert_insert_eq. reflexivity. }
  destruct (num_batches n b) as [nb | e].
  - destruct (eval_loop_state (Z.to_nat nb) self1 split params
                (List.map (prng_split (prng_split rng 2 1) local_device_count)
                   (seq 0 local_device_count))
                it0
                [("ssim"%string, PyFloat fzero); ("loss"%string, PyFloat fzero);
                 ("weight"%string, PyFloat fzero)] Hit) as (k & _ & Hk).
    exists k. rewrite <- Hself1, <- Hk.
    destruct (eval_loop _ _ _ _ _ _). reflexivity.
  - exists 0. cbn [fst]. rewrite <- Hself1.
    rewrite advance_0, insert_id by exact Hit.
    rewrite set_eval_iters_id. reflexivity.
Qed.

(** With no pass of the loop the totals are still Python floats, and the
    normalisation fails on [.item()]. *)
Remark eval_model_on_split_no_batches (self : Workload) split n b params model_state
    rng data_dir global_step nb :
  num_batches n b = Ok nb -> (nb <= 0)%Z ->
  snd (_eval_model_on_split self split n b params model_state rng data_dir global_step)
  = Raise AttributeError.
Proof.
  intros Hnb Hle. unfold _eval_model_on_split. rewrite Hnb.
  replace (Z.to_nat nb) with 0%nat by lia. reflexivity.
Qed.

End SplitEvaluation.

(** ** The pmapped evaluator *)

Section EvalModelFacts.
Context `{A : Arith} `{E : !Externals}.

Lemma across_devices_metrics (ms : list SyncedMetrics) :
  across_devices (List.map metrics_dict ms) "ssim" = List.map m_ssim ms
  /\ across_devices (List.map metrics_dict ms) "loss" = List.map m_loss ms
  /\ across_devices (List.map metrics_dict ms) "weight" = List.map m_weight ms.
Proof.
  unfold across_devices.
  induction ms as [|m ms (IH1 & IH2 & IH3)]; [repeat split|].
  cbn [List.map flat_map]. rewrite IH1, IH2, IH3. repeat split.
Qed.

(** The collective on the evaluator's mappings: every device ends up with
    the three sums over all devices. *)
Lemma psum_metrics (ms : list SyncedMetrics) :
  psum (List.map metrics_dict ms)
  = replicate (length ms)
      (metrics_dict {| m_ssim := fsum (List.map m_ssim ms);
                       m_loss := fsum (List.map m_loss ms);
                       m_weight := fsum (List.map m_weight ms) |}).
Proof.
  unfold psum. destruct (across_devices_metrics ms) as (H1 & H2 & H3).
  rewrite List.map_map. set (all := List.map metrics_dict ms) in *.
  transitivity (List.map (fun _ : SyncedMetrics =>
    metrics_dict {| m_ssim := fsum (List.map m_ssim ms);
                    m_loss := fsum (List.map m_loss ms);
                    m_weight := fsum (List.map m_weight ms) |}) ms).
  - apply List.map_ext. intros m. unfold metrics_dict. cbn [List.map fst snd].
    rewrite H1, H2, H3. reflexivity.
  - generalize (metrics_dict {| m_ssim := fsum (List.map m_ssim ms);
                                m_loss := fsum (List.map m_loss ms);
                                m_weight := fsum (List.map m_weight ms) |}) as d.
    intros d. clear. induction ms as [|m ms IH]; [reflexivity|].
    cbn [List.map length replicate]. f_equal. exact IH.
Qed.

Lemma map_zip_with_l {X Y Z W} (f : X -> Y -> Z) (g : Z -> W) (h : X -> W) xs : forall ys,
  length ys = length xs -> (forall x y, g (f x y) = h x) ->
  List.map g (zip_with f xs ys) = List.map h xs.
Proof.
  induction xs as [|x xs IH]; intros [|y ys] Hlen Hgf; try discriminate; [reflexivity|].
  cbn. rewrite Hgf. f_equal. apply IH; [now injection Hlen | exact Hgf].
Qed.

Lemma map_zip_with_r {X Y Z W} (f : X -> Y -> Z) (g : Z -> W) (h : Y -> W) xs : forall ys,
  length ys = length xs -> (forall x y, g (f x y) = h y) ->
  List.map g (zip_with f xs ys) = List.map h ys.
Proof.
  induction xs as [|x xs IH]; intros [|y ys] Hlen Hgf; try discriminate; [reflexivity|].
  cbn. rewrite Hgf. f_equal. apply IH; [now injection Hlen | exact Hgf].
Qed.

Lemma eval_model_device_metrics (s : Shard) :
  _eval_model_device (shard_params s) (shard_batch s) (shard_rng s)
  = (l ← loss_fn (targets (shard_batch s)) (eval_outputs s);
     Ok (metrics_dict
           {| m_ssim := jnp_sum (ssim (targets (shard_batch s)) (eval_outputs s)
                                   (mean (shard_batch s)) (std (shard_batch s))
                                   (volume_max (shard_batch s)));
              m_loss := jnp_sum l;
              m_weight := jnp_sum (weights (shard_batch s)) |})).
Proof. reflexivity. Qed.

Lemma eval_model_devices (shards : list Shard) : forall ls,
  result_mapM (fun s => loss_fn (targets (shard_batch s)) (eval_outputs s)) shards = Ok ls ->
  result_mapM (fun s => _eval_model_device (shard_params s) (shard_batch s) (shard_rng s))
    shards
  = Ok (List.map metrics_dict
          (zip_with (fun s l =>
             {| m_ssim := jnp_sum (ssim (targets (shard_batch s)) (eval_outputs s)
                                     (mean (shard_batch s)) (std (shard_batch s))
                                     (volume_max (shard_batch s)));
                m_loss := jnp_sum l;
                m_weight := jnp_sum (weights (shard_batch s)) |}) shards ls)).
Proof.
  induction shards as [|s shards IH]; intros ls Hls; cbn [result_mapM] in *.
  - injection Hls as <-. reflexivity.
  - bind_Ok Hls l Hl.
    bind_Ok Hls ls' Hls'.
    injection Hls as <-.
    rewrite eval_model_device_metrics, Hl. cbn [mbind result_bind].
    rewrite (IH ls' Hls'). reflexivity.
Qed.

End EvalModelFacts.

(** ** The claims *)

Section Claims.
Context `{A : Arith} `{E : !Externals}.

(** C1 (amended).  For [0 < num_examples <= 2^53] and
    [0 < global_batch_size <= 2^53], and drawn batches that all evaluate,
    [_eval_model_on_split] pulls exactly
    [ceil (num_examples / global_batch_size)] batches from the split's
    iterator, adds up their device-summed ['ssim'], ['loss'] and ['weight']
    values, and returns the mapping with ['ssim'] and ['loss'] equal to
    their sums divided by the summed weight, without a ['weight'] entry. *)
Theorem eval_model_on_split_normalized (self : Workload) split n b params
    model_state rng data_dir global_step ms :
  (0 < n <= 2 ^ 53)%Z -> (0 < b <= 2 ^ 53)%Z ->
  result_mapM (synced_first params (eval_rngs rng))
    (drawn (split_iterator self split rng data_dir b) (Z.to_nat (ceil_div n b))) = Ok ms ->
  pulls_batches self split n b params model_state rng data_dir global_step
    (Z.to_nat (ceil_div n b))
  /\ snd (_eval_model_on_split self split n b params model_state rng data_dir global_step)
     = Ok (normalized (fsum (List.map m_ssim ms)) (fsum (List.map m_loss ms))
             (fsum (List.map m_weight ms))).
Proof.
  intros Hn Hb Hms.
  destruct (eval_model_on_split_Ok self split n b params model_state rng data_dir
              global_step (ceil_div n b) ms (num_batches_small n b Hn Hb) Hms)
    as (Hpull & Hres).
  split; [exact Hpull|]. rewrite Hres.
  assert (Hne : ms <> []).
  { intros ->. apply result_mapM_length in Hms. rewrite drawn_length in Hms.
    pose proof (ceil_div_pos n b). cbn in Hms. lia. }
  rewrite !fold_py_add_PyFloat by (destruct ms; [congruence | discriminate]).
  apply normalize_JaxArray.
Qed.

(** C4.  [output_activation_fn] returns its logits unchanged for
    [MEAN_SQUARED_ERROR] and [MEAN_ABSOLUTE_ERROR], and raises [KeyError]
    if and only if the loss kind is none of the four kinds of its
    mapping. *)
Theorem output_activation_fn_lookup (logits : tensor) :
  output_activation_fn logits MEAN_SQUARED_ERROR = Ok logits
  /\ output_activation_fn logits MEAN_ABSOLUTE_ERROR = Ok logits
  /\ forall loss_type,
       output_activation_fn logits loss_type = Raise KeyError
       <-> ~ In loss_type [SOFTMAX_CROSS_ENTROPY; SIGMOID_CROSS_ENTROPY;
                           MEAN_SQUARED_ERROR; MEAN_ABSOLUTE_ERROR].
Proof.
  split; [reflexivity|]. split; [reflexivity|].
  intros loss_type. split.
  - intros Hraise Hin. cbn in Hin.
    destruct Hin as [<- | [<- | [<- | [<- | []]]]]; discriminate Hraise.
  - intros Hnot. destruct loss_type; cbn; try reflexivity;
      exfalso; apply Hnot; cbn; tauto.
Qed.

(** C5.  [model_fn] returns a pair whose second component is [None], and
    it applies the network with [train] (the flag that enables dropout)
    set exactly when the mode is [TRAIN]. *)
Theorem model_fn_train_flag params batch model_state mode rng dropout_rate
    aux_dropout_rate update_batch_norm :
  snd (model_fn params batch model_state mode rng dropout_rate aux_dropout_rate
         update_batch_norm) = None
  /\ exists train : bool,
       fst (model_fn params batch model_state mode rng dropout_rate aux_dropout_rate
              update_batch_norm)
       = unet_apply dropout_rate {| params_collection := params |} (inputs batch)
           [("dropout"%string, rng)] train
       /\ (train = true <-> mode = TRAIN).
Proof.
  split; [reflexivity|].
  exists (bool_decide (mode = TRAIN)). split; [reflexivity|].
  apply bool_decide_eq_true.
Qed.

(** C6.  [init_model_fn] initialises the network on an all-zero input of
    shape (13, 320, 320); it records in [_param_shapes] a tree with the
    keys of the parameters that holds, at every path, the shape of the
    parameter there; it returns the tree with the same keys that holds, at
    every path, one copy of the parameter per local device; the auxiliary
    state it returns is [None], and the cache of iterators is left as it
    is.  Shapes are those of [has_shape], for arrays without an empty
    axis. *)
Theorem init_model_fn_replicated (self : Workload) (rng : RandomState) :
  let x := jnp_zeros [13; 320; 320]%nat in
  let params := params_collection (unet_init [("params"%string, rng)] x) in
  let self' := fst (init_model_fn self rng) in
  let replicated := fst (snd (init_model_fn self rng)) in
  has_shape [13; 320; 320]%nat x = true
  /\ all_elements (fun v => v = fzero) x
  /\ (exists shapes,
        _param_shapes self' = Some shapes
        /\ (forall path, tree_get shapes path = None <-> tree_get params path = None)
        /\ (forall path leaf sh,
              tree_get params path = Some leaf ->
              has_shape sh leaf = true -> Forall (fun d => 0 < d) sh ->
              tree_get shapes path = Some sh))
  /\ (forall path,
        tree_get replicated path
        = (fun leaf => Arr (replicate local_device_count leaf)) <$> tree_get params path)
  /\ tree_leaves replicated
     = List.map (fun leaf => Arr (replicate local_device_count leaf)) (tree_leaves params)
  /\ _eval_iters self' = _eval_iters self
  /\ snd (snd (init_model_fn self rng)) = None.
Proof.
  intros x params self' replicated.
  split; [apply has_shape_zeros|]. split; [apply zeros_all_zero|].
  split; [|split; [|split; [|split; reflexivity]]].
  - exists (tree_map shape params). split; [reflexivity|]. split.
    + intros path. rewrite tree_get_map.
      destruct (tree_get params path); cbn; split; intros H; congruence.
    + intros path leaf sh Hleaf Hsh Hpos. rewrite tree_get_map, Hleaf. cbn.
      f_equal. apply shape_has_shape; assumption.
  - intros path. subst replicated. unfold init_model_fn, jax_utils_replicate.
    cbn [fst snd]. apply tree_get_map.
  - subst replicated. unfold init_model_fn, jax_utils_replicate. cbn [fst snd].
    apply tree_leaves_map.
Qed.

(** C7.  [_eval_model_on_split] builds an input iterator for a split only
    if the cache [_eval_iters] has no entry for it, and stores it; a call
    that finds an entry draws from that iterator without building one, so
    every later call for the split reuses it; entries of other splits are
    left unchanged. *)
Theorem eval_iters_cache (self : Workload) split n b params model_state rng
    data_dir global_step :
  let self' :=
    fst (_eval_model_on_split self split n b params model_state rng data_dir global_step) in
  (forall s, s <> split -> _eval_iters self' !! s = _eval_iters self !! s)
  /\ match _eval_iters self !! split with
     | Some it =>
         queues_built self' = queues_built self
         /\ exists k, _eval_iters self' !! split = Some (advance it k)
     | None =>
         queues_built self'
         = {| qc_rng := prng_split rng 2 0; qc_split := split;
              qc_data_dir := data_dir; qc_global_batch_size := b |} :: queues_built self
         /\ exists k, _eval_iters self' !! split
                      = Some (advance {| it_stream := build_input_queue (prng_split rng 2 0)
                                                        split data_dir b true;
                                         it_pos := 0 |} k)
     end
  /\ exists it', _eval_iters self' !! split = Some it'
       /\ forall n2 b2 params2 model_state2 rng2 data_dir2 global_step2,
            let self'' :=
              fst (_eval_model_on_split self' split n2 b2 params2 model_state2 rng2
                     data_dir2 global_step2) in
            queues_built self'' = queues_built self'
            /\ exists k, _eval_iters self'' !! split = Some (advance it' k).
Proof.
  intros self'.
  destruct (eval_model_on_split_state self split n b params model_state rng data_dir
              global_step) as (k & Hk).
  fold self' in Hk.
  assert (Hsplit : _eval_iters self' !! split
                   = Some (advance (split_iterator self split rng data_dir b) k)).
  { rewrite Hk. cbn. apply lookup_insert_eq. }
  split; [|split].
  - intros s Hs. rewrite Hk. cbn. apply lookup_insert_ne. congruence.
  - unfold split_iterator in Hsplit.
    destruct (_eval_iters self !! split) as [it|] eqn:Hit;
      (split; [rewrite Hk; reflexivity | exists k; exact Hsplit]).
  - eexists. split; [exact Hsplit|].
    intros n2 b2 params2 model_state2 rng2 data_dir2 global_step2 self''.
    destruct (eval_model_on_split_state self' split n2 b2 params2 model_state2 rng2
                data_dir2 global_step2) as (k2 & Hk2).
    fold self'' in Hk2. rewrite Hk2. cbn [queues_built _eval_iters].
    unfold split_iterator. rewrite Hsplit.
    split; [reflexivity|]. exists k2. apply lookup_insert_eq.
Qed.

End Claims.

(** ** The loss *)

Section LossFacts.
Context `{A : Arith}.

Lemma mean_all_abs_diff (o t z : tensor) :
  flatten z = zip_with fsub (flatten o) (flatten t) ->
  length (flatten o) = length (flatten t) ->
  mean_all (jnp_abs z) = mean_abs_error o t.
Proof.
  intros Hz Hlen. unfold mean_all, mean_abs_error, jnp_sum, jnp_abs.
  rewrite flatten_tmap, Hz. f_equal.
  - f_equal. clear Hz. revert Hlen. generalize (flatten t) as lt.
    induction (flatten o) as [|x lo IH]; intros [|y lt] Hlen; try discriminate;
      [reflexivity|].
    cbn. f_equal. apply IH. now injection Hlen.
  - f_equal. rewrite length_map, length_zip_with. lia.
Qed.

Lemma loss_rows (os : list tensor) : forall ts zs,
  length os = length ts ->
  Forall2 (fun xy z => flatten z = zip_with fsub (flatten (fst xy)) (flatten (snd xy))
                       /\ length (flatten (fst xy)) = length (flatten (snd xy)))
    (zip os ts) zs ->
  List.map (mean_from_axis 0) (List.map (tmap fabs) zs)
  = zip_with (fun o t => Scalar (mean_abs_error o t)) os ts.
Proof.
  induction os as [|o os IH]; intros [|t ts] zs Hlen Hall; try discriminate.
  - inversion Hall. reflexivity.
  - cbn [zip zip_with] in Hall. inversion Hall as [|xy z l zs' [Hz Hl] Hall' E1 E2]; subst.
    cbn [List.map zip_with fst snd] in *. f_equal.
    + cbn [mean_from_axis]. f_equal. apply mean_all_abs_diff; assumption.
    + apply IH; [now injection Hlen | exact Hall'].
Qed.

(** The loss of two arrays given by their rows. *)
Lemma loss_fn_rows sh (os ts : list tensor) :
  length os = length ts ->
  forallb (has_shape sh) os = true ->
  forallb (has_shape sh) ts = true ->
  loss_fn (Arr ts) (Arr os)
  = Ok (Arr (zip_with (fun o t => Scalar (mean_abs_error o t)) os ts)).
Proof.
  intros Hlen Ho Ht.
  unfold loss_fn, jnp_sub. rewrite tmap2_Arr by exact Hlen.
  destruct (tmap2_rows fsub sh os ts Hlen Ho Ht) as (zs & Hzs & Hall).
  rewrite Hzs. cbn [mbind result_bind]. f_equal.
  unfold jnp_abs. cbn [tmap mean_from_axis]. f_equal.
  apply loss_rows; [exact Hlen | exact Hall].
Qed.

Lemma flatten_length sh : forall t : tensor,
  has_shape sh t = true -> length (flatten t) = foldr Nat.mul 1 sh.
Proof.
  induction sh as [|n sh IH]; intros [x | xs] Ht; try discriminate; [reflexivity|].
  cbn [has_shape] in Ht. apply andb_true_iff in Ht. destruct Ht as [Hl Hx].
  apply Nat.eqb_eq in Hl. subst n. cbn [flatten foldr].
  induction xs as [|x xs IHxs]; [reflexivity|].
  cbn [forallb] in Hx. apply andb_true_iff in Hx. destruct Hx as [Hx Hxs].
  cbn [List.map concat length]. rewrite length_app, (IH x Hx), (IHxs Hxs). lia.
Qed.

(** The rows of the loss, one by one. *)
Lemma loss_fn_lookup n sh (os ts ls : list tensor) :
  has_shape (n :: sh) (Arr os) = true ->
  has_shape (n :: sh) (Arr ts) = true ->
  loss_fn (Arr ts) (Arr os) = Ok (Arr ls) ->
  forall (i : nat) o t l,
    os !! i = Some o -> ts !! i = Some t -> ls !! i = Some (Scalar l) ->
    l = mean_abs_error o t
    /\ length (flatten o) = foldr Nat.mul 1 sh
    /\ length (flatten t) = foldr Nat.mul 1 sh.
Proof.
  intros Ho Ht Hloss i o t l Hoi Hti Hli.
  cbn [has_shape] in Ho, Ht. apply andb_true_iff in Ho, Ht.
  destruct Ho as [Hlo Ho], Ht as [Hlt Ht]. apply Nat.eqb_eq in Hlo, Hlt.
  rewrite (loss_fn_rows sh os ts) in Hloss by (congruence || assumption).
  injection Hloss as <-.
  rewrite lookup_zip_with, Hoi, Hti in Hli. cbn in Hli. injection Hli as <-.
  rewrite forallb_forall in Ho, Ht.
  split; [reflexivity|]. split; apply flatten_length.
  - apply Ho. eapply list_elem_of_In, list_elem_of_lookup_2, Hoi.
  - apply Ht. eapply list_elem_of_In, list_elem_of_lookup_2, Hti.
Qed.

End LossFacts.

(** ** The loss in exact arithmetic *)

Section ExactLoss.
Local Open Scope Qc_scope.

Lemma Qc_fold_nonneg (l : list Qc) : forall a,
  0 <= a -> Forall (fun x => 0 <= x) l -> 0 <= fold_left Qcplus l a.
Proof.
  induction l as [|x l IH]; intros a Ha Hl; [exact Ha|].
  inversion Hl as [|? ? Hx Hl']; subst. cbn. apply IH; [|exact Hl'].
  rewrite <- (Qcplus_0_l 0). apply Qcplus_le_compat; assumption.
Qed.

Lemma Qc_sum_zero (a x : Qc) : 0 <= a -> 0 <= x -> a + x = 0 -> a = 0 /\ x = 0.
Proof.
  intros Ha Hx Hs.
  assert (Hax : a <= a + x).
  { rewrite <- (Qcplus_0_r a) at 1. apply Qcplus_le_compat; [apply Qcle_refl | exact Hx]. }
  assert (Hxa : x <= a + x).
  { rewrite <- (Qcplus_0_l x) at 1. apply Qcplus_le_compat; [exact Ha | apply Qcle_refl]. }
  rewrite Hs in Hax, Hxa. split; apply Qcle_antisym; assumption.
Qed.

Lemma Qc_fold_zero (l : list Qc) : forall a,
  0 <= a -> Forall (fun x => 0 <= x) l ->
  (fold_left Qcplus l a = 0 <-> a = 0 /\ Forall (fun x => x = 0) l).
Proof.
  induction l as [|x l IH]; intros a Ha Hl.
  - cbn. split; [intros ->; split; [reflexivity | constructor] | intros [-> _]; reflexivity].
  - inversion Hl as [|? ? Hx Hl']; subst. cbn [fold_left].
    assert (Hax : 0 <= a + x).
    { rewrite <- (Qcplus_0_l 0). apply Qcplus_le_compat; assumption. }
    rewrite (IH (a + x) Hax Hl'). split.
    + intros [Hs Hall]. destruct (Qc_sum_zero a x Ha Hx Hs) as [-> ->].
      split; [reflexivity | constructor; [reflexivity | exact Hall]].
    + intros [-> Hall]. inversion Hall as [|? ? -> Hall']; subst.
      split; [apply Qcplus_0_l | exact Hall'].
Qed.

Lemma Qc_count_pos (n : nat) : (0 < n)%nat -> 0 < Q2Qc (inject_Z (Z.of_nat n)).
Proof.
  intros Hn. unfold Qclt. cbn [this Q2Qc]. rewrite !Qred_correct.
  unfold Qlt. cbn. lia.
Qed.

Lemma Qc_div_nonneg (s d : Qc) : 0 <= s -> 0 < d -> 0 <= s / d.
Proof.
  intros Hs Hd. unfold Qcdiv.
  rewrite <- (Qcmult_0_l (/ d)). apply Qcmult_le_compat_r; [exact Hs|].
  unfold Qcle, Qcinv. cbn [this Q2Qc]. rewrite !Qred_correct.
  apply Qinv_le_0_compat. apply Qlt_le_weak. exact Hd.
Qed.

Lemma Qc_div_zero (s d : Qc) : d <> 0 -> (s / d = 0 <-> s = 0).
Proof.
  intros Hd. split.
  - intros Hq. rewrite <- (Qcmult_div_r s d Hd), Hq. apply Qcmult_0_r.
  - intros ->. unfold Qcdiv. apply Qcmult_0_l.
Qed.

Lemma Qc_abs_diff_zero (x y : Qc) : Qcabs (x - y) = 0 <-> x = y.
Proof.
  split.
  - intros H. apply Qcabs_null in H.
    rewrite <- (Qcplus_0_l y), <- H. ring.
  - intros ->. replace (y - y) with 0 by ring. apply Qcabs_pos, Qcle_refl.
Qed.

Lemma Qc_eq_bool_iff (x y : Qc) : Qc_eq_bool x y = true <-> x = y.
Proof.
  split; [apply Qc_eq_bool_correct|].
  intros ->. unfold Qc_eq_bool. destruct (Qcanon.Qc_eq_dec y y); [reflexivity | congruence].
Qed.

Lemma Qcle_bool_iff (x y : Qc) : Qcle_bool x y = true <-> x <= y.
Proof. apply Qle_bool_iff. Qed.

Lemma abs_diffs_nonneg (lo lt : list Qc) :
  Forall (fun x => 0 <= x) (zip_with (fun o t => Qcabs (o - t)) lo lt).
Proof.
  revert lt. induction lo as [|o lo IH]; intros [|t lt]; cbn; constructor;
    [apply Qcabs_nonneg | apply IH].
Qed.

Lemma abs_diffs_zero (lo : list Qc) : forall lt,
  length lo = length lt ->
  (Forall (fun x => x = 0) (zip_with (fun o t => Qcabs (o - t)) lo lt)
   <-> Forall2 (fun x y => Qc_eq_bool x y = true) lo lt).
Proof.
  induction lo as [|o lo IH]; intros [|t lt] Hlen; try discriminate.
  - split; constructor.
  - cbn [zip_with]. injection Hlen as Hlen. split.
    + intros H. inversion H as [|? ? Ho Hl]; subst. constructor.
      * apply Qc_eq_bool_iff, Qc_abs_diff_zero, Ho.
      * apply IH; assumption.
    + intros H. inversion H as [|? ? ? ? Ho Hl]; subst. constructor.
      * apply Qc_abs_diff_zero, Qc_eq_bool_iff, Ho.
      * apply IH; assumption.
Qed.

(** In exact arithmetic the loss is non-negative, and zero exactly for
    equal outputs and targets. *)
Lemma loss_exact n sh (outputs targets : tensor (A := exactQ)) :
  has_shape (n :: sh) outputs = true ->
  has_shape (n :: sh) targets = true ->
  foldr Nat.mul 1%nat sh <> 0%nat ->
  loss_nonneg_zero_iff_equal (A := exactQ) outputs targets.
Proof.
  intros Ho Ht Hcount os ts ls -> -> Hloss i o t l Hoi Hti Hli.
  destruct (loss_fn_lookup (A := exactQ) n sh os ts ls Ho Ht Hloss i o t l Hoi Hti Hli)
    as (-> & Hlo & Hlt).
  unfold mean_abs_error, fsum. cbn [fleb feqb fadd fsub fabs fdiv fzero of_count exactQ].
  set (diffs := zip_with (fun o0 t0 => Qcabs (o0 - t0)) (flatten o) (flatten t)).
  set (d := Q2Qc (inject_Z (Z.of_nat (length (flatten o))))).
  assert (Hd : 0 < d) by (apply Qc_count_pos; lia).
  assert (Hd' : d <> 0) by (intros E; rewrite E in Hd; discriminate Hd).
  assert (Hnn : Forall (fun x => 0 <= x) diffs) by apply abs_diffs_nonneg.
  assert (Hs : 0 <= fold_left Qcplus diffs 0) by (apply Qc_fold_nonneg; [apply Qcle_refl | exact Hnn]).
  split.
  - apply Qcle_bool_iff, Qc_div_nonneg; assumption.
  - rewrite Qc_eq_bool_iff, (Qc_div_zero _ d Hd').
    change (fold_left Qcplus diffs 0 = 0
            <-> Forall2 (fun x y : Qc => Qc_eq_bool x y = true) (flatten o) (flatten t)).
    rewrite (Qc_fold_zero diffs 0 (Qcle_refl 0) Hnn).
    unfold diffs.
    rewrite <- abs_diffs_zero by (etransitivity; [exact Hlo | symmetry; exact Hlt]).
    tauto.
Qed.

(** *** Sums and means in exact arithmetic *)

Lemma fold_left_Qcplus (l : list Qc) : forall a,
  fold_left Qcplus l a = a + Qc_total l.
Proof.
  induction l as [|x l IH]; intros a; cbn [fold_left Qc_total foldr].
  - ring.
  - rewrite IH. unfold Qc_total. ring.
Qed.

(** The sum of the embedding is the sum of the specification. *)
Lemma fsum_exact (l : list Qc) : fsum (A := exactQ) l = Qc_total l.
Proof.
  unfold fsum. change (fold_left Qcplus l 0 = Qc_total l).
  rewrite fold_left_Qcplus. ring.
Qed.

Lemma Qc_total_app (l1 l2 : list Qc) :
  Qc_total (l1 ++ l2) = Qc_total l1 + Qc_total l2.
Proof.
  unfold Qc_total. induction l1 as [|x l1 IH]; cbn [app foldr]; [ring|].
  rewrite IH. ring.
Qed.

Lemma element_count_flatten (t : tensor (A := exactQ)) :
  length (flatten t) = element_count t.
Proof.
  induction t as [x | xs IH] using tensor_ind'; [reflexivity|].
  cbn [flatten element_count].
  induction IH as [|y ys Hy _ IHys]; [reflexivity|].
  cbn [List.map concat list_sum]. rewrite length_app, Hy, IHys. reflexivity.
Qed.

(** The differences [loss_fn] adds up, element by element in row-major
    order, have the total the specification defines on the arrays. *)
Lemma abs_diffs_total sh : forall o t : tensor (A := exactQ),
  has_shape sh o = true -> has_shape sh t = true ->
  Qc_total (zip_with (fun x y => Qcabs (x - y)) (flatten o) (flatten t))
  = abs_diff_total o t.
Proof.
  induction sh as [|n sh IH]; intros [x | xs] [y | ys] Ho Ht; try discriminate.
  - cbn. ring.
  - cbn [has_shape] in Ho, Ht. apply andb_true_iff in Ho, Ht.
    destruct Ho as [Hlo Ho], Ht as [Hlt Ht]. apply Nat.eqb_eq in Hlo, Hlt.
    assert (Hlen : length xs = length ys) by congruence. clear Hlo Hlt.
    revert ys Ht Hlen. induction xs as [|x xs IHxs]; intros [|y ys] Ht Hlen;
      try discriminate; [reflexivity|].
    cbn [forallb] in Ho, Ht. apply andb_true_iff in Ho, Ht.
    destruct Ho as [Hx Hxs], Ht as [Hy Hys].
    change (abs_diff_total (Arr (x :: xs)) (Arr (y :: ys)))
      with (abs_diff_total x y + abs_diff_total (Arr xs) (Arr ys)).
    rewrite <- (IH x y Hx Hy), <- (IHxs Hxs ys Hys) by (now injection Hlen).
    assert (Hxy : length (flatten x) = length (flatten y)).
    { rewrite (flatten_length sh x Hx), (flatten_length sh y Hy). reflexivity. }
    cbn [flatten List.map concat].
    rewrite (zip_with_app _ _ _ _ _ Hxy).
    apply Qc_total_app.
Qed.

(** The value [loss_fn] computes for an example is the mean absolute
    error of the specification. *)
Lemma mean_abs_error_exact sh (o t : tensor (A := exactQ)) :
  has_shape sh o = true -> has_shape sh t = true ->
  mean_abs_error o t = spec_mean_abs_error o t.
Proof.
  intros Ho Ht. unfold mean_abs_error, spec_mean_abs_error.
  rewrite fsum_exact.
  change (Qc_total (zip_with (fun x y => Qcabs (x - y)) (flatten o) (flatten t))
          / Q2Qc (Z.of_nat (length (flatten o)) # 1)
          = abs_diff_total o t / Q2Qc (Z.of_nat (element_count o) # 1)).
  rewrite (abs_diffs_total sh o t Ho Ht), element_count_flatten. reflexivity.
Qed.

Lemma loss_rows_exact sh (os : list (tensor (A := exactQ))) : forall ts,
  forallb (has_shape sh) os = true ->
  forallb (has_shape sh) ts = true ->
  zip_with (fun o t => Scalar (A := exactQ) (mean_abs_error o t)) os ts
  = zip_with (fun o t => Scalar (A := exactQ) (spec_mean_abs_error o t)) os ts.
Proof.
  induction os as [|o os IH]; intros [|t ts] Ho Ht; try reflexivity.
  cbn [forallb] in Ho, Ht. apply andb_true_iff in Ho, Ht.
  destruct Ho as [Hx Hxs], Ht as [Hy Hys].
  cbn [zip_with]. rewrite (mean_abs_error_exact sh o t Hx Hy), (IH ts Hxs Hys).
  reflexivity.
Qed.


End ExactLoss.

(** ** The sums of [_eval_model], in exact arithmetic *)

Section ExactSums.
#[local] Existing Instance exactQ.
Context `{E : !Externals (A := exactQ)}.

Lemma jnp_sum_exact (t : tensor (A := exactQ)) : jnp_sum t = Qc_total (flatten t).
Proof. apply fsum_exact. Qed.

Lemma map_jnp_sum_exact {X} (h : X -> tensor (A := exactQ)) (l : list X) :
  List.map (fun x => jnp_sum (h x)) l
  = List.map (fun x => Qc_total (flatten (A := exactQ) (h x))) l.
Proof. apply List.map_ext. intros x. apply jnp_sum_exact. Qed.

(** The evaluator on shards whose losses are computed. *)
Lemma eval_model_exact params batch rngs shards ls :
  pmap_shards params batch rngs = Ok shards ->
  result_mapM (fun s => loss_fn (targets (shard_batch s)) (eval_outputs s)) shards = Ok ls ->
  _eval_model params batch rngs
  = Ok (replicate (length shards)
          [ ("ssim"%string,
             Qc_total (List.map (fun s =>
                         Qc_total (flatten (A := exactQ) (ssim (targets (shard_batch s)) (eval_outputs s)
                                              (mean (shard_batch s)) (std (shard_batch s))
                                              (volume_max (shard_batch s)))))
                       shards));
            ("loss"%string, Qc_total (List.map (fun l => Qc_total (flatten (A := exactQ) l)) ls));
            ("weight"%string,
             Qc_total (List.map (fun s => Qc_total (flatten (A := exactQ) (weights (shard_batch s))))
                         shards)) ]).
Proof.
  intros Hshards Hls.
  unfold _eval_model. rewrite Hshards. cbn [mbind result_bind].
  rewrite (eval_model_devices shards ls Hls). cbn [mbind result_bind].
  rewrite psum_metrics. f_equal.
  assert (Hlen : length ls = length shards) by (apply result_mapM_length in Hls; exact Hls).
  rewrite length_zip_with, Hlen, Nat.min_id.
  unfold metrics_dict. cbn [m_ssim m_loss m_weight].
  rewrite (map_zip_with_l _ m_ssim
             (fun s => jnp_sum (ssim (targets (shard_batch s)) (eval_outputs s)
                                  (mean (shard_batch s)) (std (shard_batch s))
                                  (volume_max (shard_batch s)))))
    by (exact Hlen || reflexivity).
  rewrite (map_zip_with_l _ m_weight (fun s => jnp_sum (weights (shard_batch s))))
    by (exact Hlen || reflexivity).
  rewrite (map_zip_with_r _ m_loss jnp_sum) by (exact Hlen || reflexivity).
  rewrite !fsum_exact.
  rewrite (map_jnp_sum_exact
             (fun s => ssim (targets (shard_batch s)) (eval_outputs s)
                         (mean (shard_batch s)) (std (shard_batch s))
                         (volume_max (shard_batch s)))).
  rewrite (map_jnp_sum_exact (fun s => weights (shard_batch s))).
  rewrite (List.map_ext jnp_sum (fun l => Qc_total (flatten (A := exactQ) l)) jnp_sum_exact).
  reflexivity.
Qed.

Lemma pmap_shards_bound params batch rngs shards :
  pmap_shards (A := exactQ) (E := E) params batch rngs = Ok shards ->
  length shards = length rngs
  /\ length rngs <= local_device_count (A := exactQ) (Externals := E).
Proof.
  unfold pmap_shards.
  destruct (bool_decide (length rngs <= local_device_count)) eqn:Hb; [|discriminate].
  apply bool_decide_eq_true in Hb. cbn [andb].
  destruct (forallb _ _); [|discriminate].
  intros H. injection H as <-. split; [apply length_imap | exact Hb].
Qed.


End ExactSums.

(** ** The order of the batches *)

Section BatchOrder.
Context `{A : Arith} `{E : !Externals}.

Lemma result_mapM_Permutation {X Y} (f : X -> result Y) (l1 l2 : list X) :
  Permutation l1 l2 ->
  forall ms1, result_mapM f l1 = Ok ms1 ->
  exists ms2, result_mapM f l2 = Ok ms2 /\ Permutation ms1 ms2.
Proof.
  induction 1 as [| x l1 l2 Hp IH | x y l | l1 l2 l3 Hp1 IH1 Hp2 IH2];
    intros ms1 Hms1.
  - exists ms1. split; [exact Hms1 | reflexivity].
  - cbn [result_mapM] in *.
    bind_Ok Hms1 m Hm.
    bind_Ok Hms1 ms Hms.
    injection Hms1 as <-.
    destruct (IH ms Hms) as (ms2 & Hms2 & Hperm).
    exists (m :: ms2). rewrite Hm. cbn [mbind result_bind]. rewrite Hms2.
    split; [reflexivity | constructor; exact Hperm].
  - cbn [result_mapM] in *.
    bind_Ok Hms1 my Hy.
    bind_Ok Hms1 ms Hms.
    injection Hms1 as <-.
    bind_Ok Hms mx Hx.
    bind_Ok Hms ms' Hms'.
    injection Hms as <-.
    exists (mx :: my :: ms'). rewrite Hx. cbn [mbind result_bind].
    rewrite Hy. cbn [mbind result_bind]. rewrite Hms'.
    split; [reflexivity | apply perm_swap].
  - destruct (IH1 ms1 Hms1) as (ms2 & Hms2 & Hperm12).
    destruct (IH2 ms2 Hms2) as (ms3 & Hms3 & Hperm23).
    exists ms3. split; [exact Hms3 | etransitivity; eassumption].
Qed.

Lemma result_mapM_Forall_Ok {X Y} (f : X -> result Y) (l : list X) :
  Forall (fun x => is_Ok (f x)) l -> exists ms, result_mapM f l = Ok ms.
Proof.
  induction 1 as [|x l [m Hm] _ [ms Hms]]; [exists []; reflexivity|].
  exists (m :: ms). cbn [result_mapM]. rewrite Hm. cbn [mbind result_bind].
  rewrite Hms. reflexivity.
Qed.

Section ExactAddition.
Hypothesis fadd_assoc : forall x y z : num, fadd x (fadd y z) = fadd (fadd x y) z.
Hypothesis fadd_comm : forall x y : num, fadd x y = fadd y x.

Lemma py_add_swap v x y : py_add (py_add v x) y = py_add (py_add v y) x.
Proof.
  destruct v as [a | a]; cbn; f_equal;
    rewrite <- !fadd_assoc, (fadd_comm x y); reflexivity.
Qed.

Lemma fold_py_add_Permutation (l1 l2 : list num) :
  Permutation l1 l2 -> forall v, fold_left py_add l1 v = fold_left py_add l2 v.
Proof.
  induction 1 as [| x l1 l2 Hp IH | x y l | l1 l2 l3 Hp1 IH1 Hp2 IH2]; intros v.
  - reflexivity.
  - cbn. apply IH.
  - cbn. rewrite py_add_swap. reflexivity.
  - rewrite IH1. apply IH2.
Qed.

End ExactAddition.
End BatchOrder.

(** C9 (amended).  When the addition of the accumulated values is
    associative and commutative, as it is in exact arithmetic, and every
    drawn batch evaluates, the metrics [_eval_model_on_split] returns do
    not depend on the order in which the split's iterator yields a given
    collection of batches. *)
Theorem eval_order_invariant `{A : Arith} `{E : !Externals}
    (self1 self2 : Workload) split n b params model_state rng data_dir global_step :
  (forall x y z : num, fadd x (fadd y z) = fadd (fadd x y) z) ->
  (forall x y : num, fadd x y = fadd y x) ->
  Permutation
    (drawn (split_iterator self1 split rng data_dir b) (batch_count n b))
    (drawn (split_iterator self2 split rng data_dir b) (batch_count n b)) ->
  Forall (fun batch => is_Ok (synced_first params (eval_rngs rng) batch))
    (drawn (split_iterator self1 split rng data_dir b) (batch_count n b)) ->
  snd (_eval_model_on_split self1 split n b params model_state rng data_dir global_step)
  = snd (_eval_model_on_split self2 split n b params model_state rng data_dir global_step).
Proof.
  unfold batch_count. intros Hassoc Hcomm Hperm Hok.
  destruct (num_batches n b) as [nb | e] eqn:Hnb.
  - destruct (result_mapM_Forall_Ok _ _ Hok) as (ms1 & Hms1).
    destruct (result_mapM_Permutation _ _ _ Hperm ms1 Hms1) as (ms2 & Hms2 & Hms).
    destruct (eval_model_on_split_Ok self1 split n b params model_state rng data_dir
                global_step nb ms1 Hnb Hms1) as (_ & ->).
    destruct (eval_model_on_split_Ok self2 split n b params model_state rng data_dir
                global_step nb ms2 Hnb Hms2) as (_ & ->).
    rewrite (fold_py_add_Permutation Hassoc Hcomm _ _ (Permutation_map m_ssim Hms)).
    rewrite (fold_py_add_Permutation Hassoc Hcomm _ _ (Permutation_map m_loss Hms)).
    rewrite (fold_py_add_Permutation Hassoc Hcomm _ _ (Permutation_map m_weight Hms)).
    reflexivity.
  - unfold _eval_model_on_split. rewrite Hnb. reflexivity.
Qed.

(** ** binary32: rounding, infinities and division by zero *)

Section SignFacts.
Local Open Scope Z_scope.
Variables prec emax : Z.

Lemma iter_pos_invariant {X} (P : X -> Prop) (f : X -> X) :
  (forall x, P x -> P (f x)) -> forall p x, P x -> P (SpecFloat.iter_pos f p x).
Proof.
  intros Hf. induction p as [p IH | p IH |]; intros x Hx; cbn.
  - apply IH, IH, Hf, Hx.
  - apply IH, IH, Hx.
  - apply Hf, Hx.
Qed.

Lemma shr_1_nonneg mrs : 0 <= shr_m mrs -> 0 <= shr_m (shr_1 mrs).
Proof.
  destruct mrs as [m r s]. cbn [shr_m]. intros Hm.
  destruct m as [|p|p]; [cbn; lia | | lia].
  destruct p; cbn; lia.
Qed.

Lemma shr_fexp_nonneg m e l : 0 <= m -> 0 <= shr_m (fst (shr_fexp prec emax m e l)).
Proof.
  intros Hm. unfold shr_fexp, shr.
  assert (H0 : 0 <= shr_m (shr_record_of_loc m l)) by (destruct l as [|[]]; exact Hm).
  destruct (fexp prec emax (Zdigits2 m + e) - e); cbn [fst]; try exact H0.
  apply (iter_pos_invariant (fun r => 0 <= shr_m r)); [apply shr_1_nonneg | exact H0].
Qed.

Lemma round_nearest_even_nonneg m l : 0 <= m -> 0 <= round_nearest_even m l.
Proof. intros Hm. destruct l as [|[]]; cbn; try destruct (Z.even m); lia. Qed.

Lemma binary_round_aux_sign sx m e l :
  0 <= m -> has_sign sx (binary_round_aux prec emax sx m e l).
Proof.
  intros Hm. unfold binary_round_aux.
  pose proof (shr_fexp_nonneg m e l Hm) as H1.
  destruct (shr_fexp prec emax m e l) as [mrs' e'] eqn:E1. cbn [fst] in H1.
  pose proof (shr_fexp_nonneg _ e' loc_Exact
                (round_nearest_even_nonneg _ (loc_of_shr_record mrs') H1)) as H2.
  destruct (shr_fexp prec emax _ e' loc_Exact) as [mrs'' e''] eqn:E2. cbn [fst] in H2.
  destruct (shr_m mrs'') as [|p|p]; [reflexivity | | lia].
  destruct (e'' <=? emax - prec); reflexivity.
Qed.

Lemma binary_round_sign sx m e : has_sign sx (binary_round prec emax sx m e).
Proof.
  unfold binary_round. destruct (shl_align m e _) as [mz ez].
  apply binary_round_aux_sign. lia.
Qed.

Lemma binary_normalize_sign m e :
  has_sign (m <? 0) (binary_normalize prec emax m e false).
Proof.
  destruct m as [|p|p]; cbn [binary_normalize]; [reflexivity | |]; apply binary_round_sign.
Qed.
End SignFacts.

Section Binary32Facts.
Local Open Scope Z_scope.

Lemma nonneg32_leb x : nonneg32 x <-> SFleb (S754_zero false) x = true.
Proof.
  destruct x as [s | [] | | [] m e]; cbn; split; intros H;
    try reflexivity; try discriminate; try contradiction; exact I.
Qed.

Lemma has_sign_false_nonneg x : has_sign false x -> nonneg32 x.
Proof. destruct x as [s | s | | s m e]; cbn; auto. Qed.

Lemma has_sign_not_nan s x : has_sign s x -> x <> S754_nan.
Proof. destruct x; cbn; congruence. Qed.

Lemma SFsub_finite_not_nan x y :
  SF_is_finite x = true -> SF_is_finite y = true -> SFsub 24 128 x y <> S754_nan.
Proof.
  destruct x as [sx | sx | | sx mx ex], y as [sy | sy | | sy my ey];
    cbn [SF_is_finite]; intros Hx Hy; try discriminate Hx; try discriminate Hy.
  - destruct sx, sy; cbn; discriminate.
  - cbn; discriminate.
  - cbn; discriminate.
  - cbn [SFsub]. eapply has_sign_not_nan, binary_normalize_sign.
Qed.

Lemma SFabs_nonneg x : x <> S754_nan -> nonneg32 (SFabs x).
Proof. destruct x; cbn; congruence || auto. Qed.

Lemma SFadd_nonneg x y : nonneg32 x -> nonneg32 y -> nonneg32 (SFadd 24 128 x y).
Proof.
  destruct x as [sx | sx | | sx mx ex], y as [sy | sy | | sy my ey]; cbn [nonneg32];
    try contradiction; intros Hx Hy; subst; try exact I; try reflexivity.
  - destruct sx, sy; exact I.
  - cbn [SFadd cond_Zopp]. apply has_sign_false_nonneg.
    apply (binary_normalize_sign 24 128 (Z.pos _ + Z.pos _)).
Qed.

Lemma fsum_nonneg32 (l : list spec_float) : forall a,
  nonneg32 a -> Forall nonneg32 l -> nonneg32 (fold_left (SFadd 24 128) l a).
Proof.
  induction l as [|x l IH]; intros a Ha Hl; [exact Ha|].
  inversion Hl as [|? ? Hx Hl']; subst. cbn. apply IH; [|exact Hl'].
  apply SFadd_nonneg; assumption.
Qed.

Lemma SFdiv_nonneg x m e :
  nonneg32 x -> nonneg32 (SFdiv 24 128 x (S754_finite false m e)).
Proof.
  destruct x as [sx | sx | | sx mx ex]; cbn [nonneg32]; try contradiction; intros Hx.
  - exact I.
  - subst. reflexivity.
  - subst. cbn [SFdiv xorb]. unfold SFdiv_core_binary.
    set (m' := match _ with Z.pos _ => Z.shiftl (Z.pos mx) _ | 0 => Z.pos mx | Z.neg _ => 0 end).
    assert (Hm' : 0 <= m').
    { unfold m'. destruct (ex - e - _); try lia. apply Z.shiftl_nonneg. lia. }
    rewrite div_eucl_div_mod. apply has_sign_false_nonneg, binary_round_aux_sign.
    apply Z.div_pos; lia.
Qed.

Lemma of_count32_finite (n : nat) :
  (1 <= n)%nat -> Z.of_nat n < 2 ^ 24 ->
  exists m e, binary_normalize 24 128 (Z.of_nat n) 0 false = S754_finite false m e.
Proof.
  intros Hn Hlt. destruct (Z.of_nat n) as [|p|p] eqn:Ep; try lia.
  cbn [binary_normalize]. unfold binary_round.
  destruct (Zdigits2_range (Z.pos p)) as (Hd0 & Hd1 & Hd2); [lia|].
  cbn [Zdigits2] in Hd0, Hd1, Hd2. set (d := Z.pos (digits2_pos p)) in *.
  assert (Hd : d <= 24).
  { destruct (Z_le_gt_dec d 24); auto. exfalso.
    assert (2 ^ 24 <= 2 ^ (d - 1)) by (apply Z.pow_le_mono_r; lia). lia. }
  assert (Hal : exists mz, shl_align p 0 (fexp 24 128 (d + 0)) = (mz, d - 24)
                           /\ 2 ^ 23 <= Z.pos mz < 2 ^ 24).
  { unfold shl_align, fexp, emin.
    replace (Z.max (d + 0 - 24) (3 - 128 - 24)) with (d - 24) by lia.
    rewrite Z.sub_0_r.
    destruct (d - 24) as [|k|k] eqn:Ek; try lia.
    - exists p. replace d with 24 in * by lia. split; [reflexivity|]. lia.
    - exists (Pos.iter xO p k). split; [reflexivity|].
      change (Pos.iter xO p k) with (shift_pos k p). rewrite shift_pos_correct.
      change (Z.pow_pos 2 k) with (2 ^ Z.pos k).
      assert (E1 : 2 ^ Z.pos k * 2 ^ (d - 1) = 2 ^ 23).
      { rewrite <- Z.pow_add_r by lia. f_equal. lia. }
      assert (E2 : 2 ^ Z.pos k * 2 ^ d = 2 ^ 24).
      { rewrite <- Z.pow_add_r by lia. f_equal. lia. }
      assert (0 < 2 ^ Z.pos k) by (apply Z.pow_pos_nonneg; lia).
      nia. }
  destruct Hal as (mz & Hal & Hmz). rewrite Hal.
  exists mz, (d - 24).
  assert (Hshr : forall l, shr_fexp 24 128 (Z.pos mz) (d - 24) l
                           = (shr_record_of_loc (Z.pos mz) l, d - 24)).
  { intros l. unfold shr_fexp. rewrite (Zdigits2_bounds (Z.pos mz) 24) by (simpl; lia).
    unfold fexp, emin.
    replace (Z.max (24 + (d - 24) - 24) (3 - 128 - 24) - (d - 24)) with 0 by lia.
    reflexivity. }
  unfold binary_round_aux. rewrite Hshr. cbn [shr_record_of_loc shr_m loc_of_shr_record round_nearest_even].
  rewrite Hshr. cbn [shr_record_of_loc shr_m].
  replace (d - 24 <=? 128 - 24) with true by (symmetry; apply Z.leb_le; lia).
  reflexivity.
Qed.

Lemma SFeqb_finite_eq s1 m1 e1 s2 m2 e2 :
  SFeqb (S754_finite s1 m1 e1) (S754_finite s2 m2 e2) = true ->
  s1 = s2 /\ m1 = m2 /\ e1 = e2.
Proof.
  unfold SFeqb, SFcompare. destruct s1, s2; try discriminate;
    destruct (Z.compare_spec e1 e2); try discriminate;
    destruct (Pos.compare_cont Eq m1 m2) eqn:Hc; try discriminate; intros _;
    apply Pos.compare_eq in Hc; auto.
Qed.

Lemma SFabs_sub_eq x y :
  SF_is_finite x = true -> SF_is_finite y = true -> SFeqb x y = true ->
  SFabs (SFsub 24 128 x y) = S754_zero false.
Proof.
  destruct x as [sx | sx | | sx mx ex], y as [sy | sy | | sy my ey];
    cbn [SF_is_finite]; intros Hx Hy Heq; try discriminate Hx; try discriminate Hy.
  - destruct sx, sy; reflexivity.
  - destruct sy; discriminate.
  - destruct sx; discriminate.
  - apply SFeqb_finite_eq in Heq. destruct Heq as (-> & -> & ->).
    cbn [SFsub]. rewrite Z.min_id. unfold shl_align. rewrite Z.sub_diag. cbn [fst].
    reflexivity.
Qed.

End Binary32Facts.

Section Binary32.

(** binary32 addition is not associative. *)
Example binary32_add_not_assoc :
  SFadd 24 128 (SFadd 24 128 (f32 1 0) (f32 1 (-24))) (f32 1 (-24))
  <> SFadd 24 128 (f32 1 0) (SFadd 24 128 (f32 1 (-24)) (f32 1 (-24))).
Proof. vm_compute. discriminate. Qed.

Lemma fsum_zeros32 (l : list spec_float) :
  Forall (fun x => SF_is_zero x = true) l ->
  fold_left (SFadd 24 128) l (S754_zero false) = S754_zero false.
Proof.
  induction 1 as [|x l Hx _ IH]; [reflexivity|].
  cbn [fold_left]. destruct x as [[] | | |]; try discriminate; exact IH.
Qed.

Lemma SFdiv_zero_not_finite (x : spec_float) :
  SF_is_finite (SFdiv 24 128 x (S754_zero false)) = false.
Proof. destruct x as [[] | [] | | [] m e]; reflexivity. Qed.

(** C10.  When at least one batch is evaluated and every evaluated batch
    has total weight zero, the accumulated weight is zero, the division by
    it is reached without any exception, and the returned ['ssim'] and
    ['loss'] values are not finite numbers (an infinity or a NaN). *)
Theorem zero_weight_not_finite (E : Externals (A := binary32)) (self : Workload)
    split n b params model_state rng data_dir global_step
    (ms : list (SyncedMetrics (A := binary32))) :
  (1 <= batch_count n b)%nat ->
  result_mapM (synced_first params (eval_rngs rng))
    (drawn (split_iterator self split rng data_dir b) (batch_count n b)) = Ok ms ->
  Forall (fun m : SyncedMetrics (A := binary32) => SF_is_zero (m_weight m) = true) ms ->
  fsum (A := binary32) (List.map m_weight ms) = S754_zero false
  /\ exists x y,
       snd (_eval_model_on_split self split n b params model_state rng data_dir global_step)
       = Ok [("ssim"%string, PyFloat x); ("loss"%string, PyFloat y)]
       /\ x = SFdiv 24 128 (fsum (A := binary32) (List.map m_ssim ms)) (S754_zero false)
       /\ y = SFdiv 24 128 (fsum (A := binary32) (List.map m_loss ms)) (S754_zero false)
       /\ SF_is_finite x = false /\ SF_is_finite y = false.
Proof.
  unfold batch_count. intros Hk Hms Hzero.
  destruct (num_batches n b) as [nb | e] eqn:Hnb; [|lia].
  assert (Hw : fsum (A := binary32) (List.map m_weight ms) = S754_zero false).
  { apply fsum_zeros32. apply Forall_map. exact Hzero. }
  split; [exact Hw|].
  destruct (eval_model_on_split_Ok self split n b params model_state rng data_dir
              global_step nb ms Hnb Hms) as (_ & Hres).
  assert (Hne : ms <> []).
  { intros ->. apply result_mapM_length in Hms. rewrite drawn_length in Hms.
    cbn in Hms. lia. }
  rewrite !fold_py_add_PyFloat in Hres by (destruct ms; [congruence | discriminate]).
  rewrite normalize_JaxArray in Hres. unfold normalized in Hres.
  change (fold_left fadd (List.map m_weight ms) fzero)
    with (fsum (A := binary32) (List.map m_weight ms)) in Hres.
  rewrite Hw in Hres.
  eexists _, _. split; [exact Hres|].
  split; [reflexivity|]. split; [reflexivity|].
  split; apply SFdiv_zero_not_finite.
Qed.

End Binary32.

(** ** The sign and the zeros of the loss *)

Section LossSign.
Local Open Scope Z_scope.

Lemma abs_diffs_nonneg32 (lo : list spec_float) : forall lt,
  Forall (fun x => SF_is_finite x = true) lo ->
  Forall (fun x => SF_is_finite x = true) lt ->
  Forall nonneg32 (zip_with (fun o t => SFabs (SFsub 24 128 o t)) lo lt).
Proof.
  induction lo as [|o lo IH]; intros [|t lt] Ho Ht; cbn [zip_with]; try constructor.
  - inversion Ho; inversion Ht; subst.
    apply SFabs_nonneg, SFsub_finite_not_nan; assumption.
  - inversion Ho; inversion Ht; subst. apply IH; assumption.
Qed.

Lemma abs_diffs_zero32 (lo : list spec_float) : forall lt,
  Forall (fun x => SF_is_finite x = true) lo ->
  Forall (fun x => SF_is_finite x = true) lt ->
  Forall2 (fun x y => SFeqb x y = true) lo lt ->
  Forall (fun x => SF_is_zero x = true)
    (zip_with (fun o t => SFabs (SFsub 24 128 o t)) lo lt).
Proof.
  induction lo as [|o lo IH]; intros [|t lt] Ho Ht Heq; cbn [zip_with]; try constructor.
  - inversion Ho; inversion Ht; inversion Heq; subst.
    rewrite SFabs_sub_eq by assumption. reflexivity.
  - inversion Ho; inversion Ht; inversion Heq; subst. apply IH; assumption.
Qed.

Lemma example_finite (P : spec_float -> Prop) (os : list (tensor (A := binary32))) i o :
  all_elements (A := binary32) P (Arr os) -> os !! i = Some o ->
  Forall P (flatten (A := binary32) o).
Proof.
  unfold all_elements. cbn [flatten]. intros Hall Hi.
  rewrite Forall_concat, Forall_forall in Hall. apply Hall.
  apply list_elem_of_In, in_map, list_elem_of_In. eapply list_elem_of_lookup_2, Hi.
Qed.

(** In binary32, on finite values, the loss is at least zero (it can be
    plus infinity), and zero for equal outputs and targets. *)
Lemma loss_binary32 n sh (outputs targets : tensor (A := binary32)) :
  has_shape (n :: sh) outputs = true ->
  has_shape (n :: sh) targets = true ->
  all_elements (A := binary32) (fun x => SF_is_finite x = true) outputs ->
  all_elements (A := binary32) (fun x => SF_is_finite x = true) targets ->
  (1 <= foldr Nat.mul 1 sh)%nat ->
  Z.of_nat (foldr Nat.mul 1%nat sh) < 2 ^ 24 ->
  loss_nonneg_zero_if_equal (A := binary32) outputs targets.
Proof.
  intros Ho Ht Hfo Hft Hc1 Hc2 os ts ls -> -> Hloss i o t l Hoi Hti Hli.
  destruct (loss_fn_lookup (A := binary32) n sh os ts ls Ho Ht Hloss i o t l Hoi Hti Hli)
    as (-> & Hlo & Hlt).
  pose proof (example_finite _ os i o Hfo Hoi) as Hfo'.
  pose proof (example_finite _ ts i t Hft Hti) as Hft'.
  unfold mean_abs_error, fsum. cbn [fleb feqb fadd fsub fabs fdiv fzero of_count binary32].
  rewrite Hlo.
  destruct (of_count32_finite (foldr Nat.mul 1%nat sh) Hc1 Hc2) as (m & e & ->).
  pose proof (abs_diffs_nonneg32 _ _ Hfo' Hft') as Hnn.
  split.
  - apply nonneg32_leb, SFdiv_nonneg, fsum_nonneg32; [exact I | exact Hnn].
  - intros Heq.
    pose proof (fsum_zeros32 _ (abs_diffs_zero32 _ _ Hfo' Hft' Heq)) as Hz.
    change (SFeqb
              (SFdiv 24 128
                 (fold_left (SFadd 24 128)
                    (zip_with (fun o0 t0 : spec_float => SFabs (SFsub 24 128 o0 t0))
                       (flatten o) (flatten t)) (S754_zero false))
                 (S754_finite false m e))
              (S754_zero false) = true).
    rewrite Hz. reflexivity.
Qed.

End LossSign.

(** C8 (amended).  For outputs and targets of one shape whose examples
    have at least one element: in binary32, when all elements are finite
    and an example has fewer than [2^24] elements, each per-example value
    of [loss_fn] is at least zero (it can be plus infinity) and is zero if
    every element of the example's outputs equals the corresponding
    element of the targets; in exact arithmetic each per-example value is
    at least zero, and is zero if and only if every element of the
    example's outputs equals the corresponding element of the targets. *)
Theorem loss_nonneg_zero (n : nat) (sh : list nat) :
  (1 <= foldr Nat.mul 1 sh)%nat ->
  (forall outputs targets : tensor (A := binary32),
     has_shape (n :: sh) outputs = true ->
     has_shape (n :: sh) targets = true ->
     all_elements (A := binary32) (fun x => SF_is_finite x = true) outputs ->
     all_elements (A := binary32) (fun x => SF_is_finite x = true) targets ->
     (Z.of_nat (foldr Nat.mul 1%nat sh) < 2 ^ 24)%Z ->
     loss_nonneg_zero_if_equal (A := binary32) outputs targets)
  /\ (forall outputs targets : tensor (A := exactQ),
       has_shape (n :: sh) outputs = true ->
       has_shape (n :: sh) targets = true ->
       loss_nonneg_zero_iff_equal (A := exactQ) outputs targets).
Proof.
  intros Hcount. split.
  - intros outputs targets Ho Ht Hfo Hft Hlt.
    apply (loss_binary32 n sh); assumption.
  - intros outputs targets Ho Ht.
    apply (loss_exact n sh); [assumption | assumption | lia].
Qed.

(** ** Examples on concrete inputs *)

(** C1, as stated, fails beyond [2^53]: for [2^53 + 1] examples in batches
    of [2^53], the quotient rounds to [1.0], and one batch is pulled where
    the ceiling of the quotient is two. *)
Lemma one_batch_where_ceiling_is_two :
  let E := identity_net binary32 large_first in
  ceil_div (2 ^ 53 + 1) (2 ^ 53) = 2%Z
  /\ pulls_batches (E := E) empty_workload "validation" (2 ^ 53 + 1) (2 ^ 53) no_params None
       0%nat "data" 0 1
  /\ ~ pulls_batches (E := E) empty_workload "validation" (2 ^ 53 + 1) (2 ^ 53) no_params None
         0%nat "data" 0 (Z.to_nat (ceil_div (2 ^ 53 + 1) (2 ^ 53))).
Proof.
  intros E. split; [reflexivity|].
  assert (H1 : pulls_batches (E := E) empty_workload "validation" (2 ^ 53 + 1) (2 ^ 53)
                 no_params None 0%nat "data" 0 1).
  { apply (eval_model_on_split_Ok (E := E) empty_workload "validation" (2 ^ 53 + 1)
             (2 ^ 53) no_params None 0%nat "data" 0%Z 1%Z
             [ synced32 (S754_zero false) (f32 1 0) (f32 1 0) ]).
    - reflexivity.
    - reflexivity. }
  split; [exact H1|].
  unfold pulls_batches in *. rewrite H1. intros H.
  apply (f_equal (fmap (M := option) it_pos)) in H. vm_compute in H. discriminate H.
Qed.

Lemma eval_model_on_split_normalized_witness :
  let E := identity_net binary32 large_first in
  let ms := [ synced32 (S754_zero false) (f32 1 0) (f32 1 0);
              synced32 (S754_zero false) (f32 1 (-24)) (f32 1 0);
              synced32 (S754_zero false) (f32 1 (-24)) (f32 1 0) ] in
  pulls_batches (E := E) empty_workload "validation" 3 1 no_params None 0%nat "data" 0
    (Z.to_nat (ceil_div 3 1))
  /\ snd (_eval_model_on_split (E := E) empty_workload "validation" 3 1 no_params None 0%nat "data" 0)
     = Ok (normalized (fsum (A := binary32) (List.map m_ssim ms))
             (fsum (A := binary32) (List.map m_loss ms))
             (fsum (A := binary32) (List.map m_weight ms))).
Proof.
  intros E ms.
  apply (eval_model_on_split_normalized (E := E) empty_workload "validation" 3 1
           no_params None 0%nat "data" 0%Z ms).
  - lia.
  - lia.
  - reflexivity.
Defined.

(** C8, as stated, fails in binary32.  A difference of [2^-149] in one of
    two pixels has a mean that rounds to zero: the loss is zero although
    outputs and targets differ.  An infinite pixel, equal in outputs and
    targets, gives [inf - inf], a NaN: the loss is neither zero nor at
    least zero although outputs and targets are equal. *)
Lemma loss_claim_fails_binary32 :
  ~ loss_nonneg_zero_iff_equal (A := binary32) tiny_outputs tiny_targets
  /\ ~ loss_nonneg_zero_iff_equal (A := binary32) inf_outputs inf_outputs.
Proof.
  split; intros H.
  - destruct (H _ _ [Scalar (A := binary32) (S754_zero false)] eq_refl eq_refl eq_refl
                0%nat _ _ (S754_zero false) eq_refl eq_refl eq_refl) as [_ [Hz _]].
    specialize (Hz eq_refl). inversion Hz as [|? ? ? ? Hx _]; subst.
    discriminate Hx.
  - destruct (H _ _ [Scalar (A := binary32) S754_nan] eq_refl eq_refl eq_refl
                0%nat _ _ S754_nan eq_refl eq_refl eq_refl) as [Hle _].
    discriminate Hle.
Qed.

Lemma loss_nonneg_zero_witness :
  loss_nonneg_zero_if_equal (A := binary32) tiny_outputs tiny_targets
  /\ loss_nonneg_zero_iff_equal (A := exactQ)
       (Arr [Arr [Scalar (A := exactQ) (Q2Qc (1 # 2)); Scalar (A := exactQ) 0%Qc]])
       (Arr [Arr [Scalar (A := exactQ) 0%Qc; Scalar (A := exactQ) 0%Qc]]).
Proof.
  assert (Hcount : (1 <= foldr Nat.mul 1 [2])%nat) by (cbn; lia).
  destruct (loss_nonneg_zero 1 [2%nat] Hcount) as [H32 HQ].
  split.
  - apply H32.
    + reflexivity.
    + reflexivity.
    + repeat constructor.
    + repeat constructor.
    + reflexivity.
  - apply HQ; reflexivity.
Defined.

(** C9, as stated, fails in binary32: the losses 1, 2^-24 and 2^-24 add up
    to 1 when the large one comes first, and to 1 + 2^-23 when it comes
    last. *)
Lemma eval_order_matters_binary32 :
  let E := identity_net binary32 large_first in
  Permutation
    (drawn (split_iterator (E := E) (cached_workload large_first) "validation" 0%nat "data" 1) 3)
    (drawn (split_iterator (E := E) (cached_workload large_last) "validation" 0%nat "data" 1) 3)
  /\ batch_count 3 1 = 3%nat
  /\ snd (_eval_model_on_split (E := E) (cached_workload large_first) "validation" 3 1 no_params
            None 0%nat "data" 0)
     <> snd (_eval_model_on_split (E := E) (cached_workload large_last) "validation" 3 1 no_params
               None 0%nat "data" 0).
Proof.
  intros E. split; [|split].
  - change (Permutation
              [large_first 0; large_first 1; large_first 2]
              [large_last 0; large_last 1; large_last 2]).
    change (large_last 0) with (large_first 1).
    change (large_last 1) with (large_first 2).
    change (large_last 2) with (large_first 0).
    change (large_first 2) with (large_first 1).
    eapply perm_trans; [apply perm_swap | apply perm_skip, perm_swap].
  - reflexivity.
  - assert (H1 : snd (_eval_model_on_split (E := E) (cached_workload large_first)
                        "validation" 3 1 no_params None 0%nat "data" 0)
                 = Ok (normalized (A := binary32) (S754_zero false)
                         (S754_finite false 8388608 (-23)) (f32 3 0))) by reflexivity.
    assert (H2 : snd (_eval_model_on_split (E := E) (cached_workload large_last)
                        "validation" 3 1 no_params None 0%nat "data" 0)
                 = Ok (normalized (A := binary32) (S754_zero false)
                         (S754_finite false 8388609 (-23)) (f32 3 0))) by reflexivity.
    rewrite H1, H2. intros H. injection H as H. discriminate H.
Qed.

Lemma eval_order_invariant_witness :
  let E := identity_net exactQ third_first in
  snd (_eval_model_on_split (E := E) (cached_workload third_first) "validation" 2 1 no_params
         None 0%nat "data" 0)
  = snd (_eval_model_on_split (E := E) (cached_workload third_last) "validation" 2 1 no_params
           None 0%nat "data" 0).
Proof.
  intros E.
  apply (eval_order_invariant (A := exactQ) (E := E)).
  - intros x y z. apply Qcplus_assoc.
  - intros x y. apply Qcplus_comm.
  - change (Permutation [third_first 0; third_first 1] [third_last 0; third_last 1]).
    change (third_last 0) with (third_first 1).
    change (third_last 1) with (third_first 0).
    apply perm_swap.
  - change (Forall (fun batch => is_Ok (synced_first (E := E) no_params
                                          (eval_rngs (E := E) 0%nat) batch))
              [third_first 0; third_first 1]).
    repeat constructor; eexists; reflexivity.
Defined.

Lemma zero_weight_not_finite_witness :
  let E := identity_net binary32 weightless in
  let ms := [ synced32 (S754_zero false) (f32 1 0) (S754_zero false) ] in
  fsum (A := binary32) (List.map m_weight ms) = S754_zero false
  /\ exists x y,
       snd (_eval_model_on_split (E := E) empty_workload "validation" 1 1 no_params None 0%nat
              "data" 0)
       = Ok [("ssim"%string, PyFloat x); ("loss"%string, PyFloat y)]
       /\ x = SFdiv 24 128 (fsum (A := binary32) (List.map m_ssim ms)) (S754_zero false)
       /\ y = SFdiv 24 128 (fsum (A := binary32) (List.map m_loss ms)) (S754_zero false)
       /\ SF_is_finite x = false /\ SF_is_finite y = false.
Proof.
  intros E ms.
  apply (zero_weight_not_finite E empty_workload "validation" 1 1 no_params None 0%nat
           "data" 0%Z ms).
  - vm_compute. lia.
  - reflexivity.
  - repeat constructor.
Defined.

(** * Further properties of the workload *)

(** ** The evaluation loop: what it reads, and how it fails *)

Section EvaluationFrame.
Context `{A : Arith} `{E : !Externals}.

(** The loop reads the workload through the split's cache entry only. *)
Lemma eval_loop_frame n : forall (self1 self2 : Workload) split params rngs tot,
  _eval_iters self1 !! split = _eval_iters self2 !! split ->
  snd (eval_loop n self1 split params rngs tot)
  = snd (eval_loop n self2 split params rngs tot)
  /\ _eval_iters (fst (eval_loop n self1 split params rngs tot)) !! split
     = _eval_iters (fst (eval_loop n self2 split params rngs tot)) !! split.
Proof.
  induction n as [|n IH]; intros self1 self2 split params rngs tot Heq.
  - cbn. split; [reflexivity | exact Heq].
  - cbn [eval_loop]. unfold next_batch. rewrite <- Heq.
    destruct (_eval_iters self1 !! split) as [it|] eqn:Hit.
    + destruct (synced_metrics ← _eval_model params (it_stream it (it_pos it)) rngs;
                accumulate tot synced_metrics) as [tot' | e].
      * apply IH. cbn. rewrite !lookup_insert_eq. reflexivity.
      * cbn. split; [reflexivity|]. rewrite !lookup_insert_eq. reflexivity.
    + cbn. split; [reflexivity|]. rewrite Hit. exact Heq.
Qed.

(** So does the whole call. *)
Lemma eval_model_on_split_frame (self1 self2 : Workload) split n b params model_state
    rng data_dir global_step :
  _eval_iters self1 !! split = _eval_iters self2 !! split ->
  snd (_eval_model_on_split self1 split n b params model_state rng data_dir global_step)
  = snd (_eval_model_on_split self2 split n b params model_state rng data_dir global_step)
  /\ _eval_iters (fst (_eval_model_on_split self1 split n b params model_state rng
                         data_dir global_step)) !! split
     = _eval_iters (fst (_eval_model_on_split self2 split n b params model_state rng
                           data_dir global_step)) !! split.
Proof.
  intros Heq. unfold _eval_model_on_split.
  pose proof (lazy_build_lookup self1 split rng data_dir b) as H1.
  pose proof (lazy_build_lookup self2 split rng data_dir b) as H2.
  assert (H12 : split_iterator self1 split rng data_dir b
                = split_iterator self2 split rng data_dir b).
  { unfold split_iterator. rewrite Heq. reflexivity. }
  set (s1 := match _eval_iters self1 !! split with
             | Some _ => self1
             | None => _
             end) in *.
  set (s2 := match _eval_iters self2 !! split with
             | Some _ => self2
             | None => _
             end) in *.
  assert (Hs : _eval_iters s1 !! split = _eval_iters s2 !! split) by congruence.
  destruct (num_batches n b) as [nb | e]; [|split; [reflexivity | exact Hs]].
  destruct (eval_loop_frame (Z.to_nat nb) s1 s2 split params
              (List.map (prng_split (prng_split rng 2 1) local_device_count)
                 (seq 0 local_device_count))
              [("ssim"%string, PyFloat fzero); ("loss"%string, PyFloat fzero);
               ("weight"%string, PyFloat fzero)] Hs) as [Hr Hl].
  destruct (eval_loop (Z.to_nat nb) s1 _ _ _ _) as [t1 r1].
  destruct (eval_loop (Z.to_nat nb) s2 _ _ _ _) as [t2 r2].
  cbn [fst snd] in *. split; [rewrite Hr; reflexivity | exact Hl].
Qed.

(** The cache entry of the split after a call. *)
Lemma eval_model_on_split_entry (self : Workload) split n b params model_state rng
    data_dir global_step :
  exists it,
    _eval_iters (fst (_eval_model_on_split self split n b params model_state rng
                        data_dir global_step)) !! split = Some it
    /\ _eval_iters (fst (_eval_model_on_split self split n b params model_state rng
                           data_dir global_step))
       = <[split := it]> (_eval_iters self).
Proof.
  destruct (eval_model_on_split_state self split n b params model_state rng data_dir
              global_step) as (k & Hk).
  eexists. rewrite Hk. cbn [_eval_iters]. split; [apply lookup_insert_eq | reflexivity].
Qed.

(** A run of the loop whose batch number [j] is the first that fails. *)
Lemma eval_loop_Raise n : forall (self : Workload) split params rngs it a b c j ms e,
  _eval_iters self !! split = Some it ->
  j < n ->
  result_mapM (synced_first params rngs) (drawn it j) = Ok ms ->
  synced_first params rngs (it_stream it (it_pos it + j)) = Raise e ->
  eval_loop n self split params rngs
    [("ssim"%string, a); ("loss"%string, b); ("weight"%string, c)]
  = (set_eval_iters self (<[split := advance it (S j)]> (_eval_iters self)), Raise e).
Proof.
  induction n as [|n IH]; intros self split params rngs it a b c j ms e Hit Hj Hms He;
    [lia|].
  cbn [eval_loop]. unfold next_batch. rewrite Hit. rewrite step_three.
  destruct j as [|j].
  - rewrite Nat.add_0_r in He. rewrite He. cbn [mbind result_bind].
    f_equal. f_equal. f_equal. unfold advance. f_equal. lia.
  - rewrite drawn_S in Hms. cbn [result_mapM] in Hms.
    bind_Ok Hms m Hm.
    bind_Ok Hms ms' Hms'.
    rewrite Hm. cbn [mbind result_bind].
    erewrite (IH _ _ _ _ {| it_stream := it_stream it; it_pos := S (it_pos it) |}
                _ _ _ j ms' e);
      [ | cbn; apply lookup_insert_eq | lia | exact Hms'
        | cbn [it_stream it_pos];
          replace (S (it_pos it) + j) with (it_pos it + S j) by lia; exact He ].
    cbn [_eval_iters set_eval_iters]. rewrite insert_insert_eq, advance_S.
    reflexivity.
Qed.

(** The first failure of a [mapM]. *)
Lemma result_mapM_Raise {X Y} (f : X -> result Y) (l : list X) : forall e,
  result_mapM f l = Raise e ->
  exists j x ms, l !! j = Some x /\ result_mapM f (take j l) = Ok ms /\ f x = Raise e.
Proof.
  induction l as [|a l IH]; intros e He; cbn [result_mapM] in He; [discriminate|].
  destruct (f a) as [y | e1] eqn:Hfa; cbn [mbind result_bind] in He.
  - destruct (result_mapM f l) as [ys | e2] eqn:Hl; cbn [mbind result_bind] in He;
      [discriminate|].
    injection He as ->.
    destruct (IH e eq_refl) as (j & x & ms & Hj & Hms & Hx).
    exists (S j), x, (y :: ms). split; [exact Hj|]. split; [|exact Hx].
    cbn [take result_mapM]. rewrite Hfa, Hms. reflexivity.
  - injection He as ->. exists 0, a, []. split; [reflexivity|]. split; [reflexivity | exact Hfa].
Qed.

Lemma drawn_lookup (it : Iterator) n j x :
  drawn it n !! j = Some x -> j < n /\ x = it_stream it (it_pos it + j).
Proof.
  unfold drawn. intros Hj.
  change (List.map ?f ?l) with (f <$> l) in Hj.
  rewrite list_lookup_fmap in Hj.
  destruct (seq 0 n !! j) as [i|] eqn:Hi; [|discriminate].
  apply lookup_seq in Hi. destruct Hi as [-> Hlt].
  cbn in Hj. injection Hj as <-. split; [exact Hlt | reflexivity].
Qed.

Lemma drawn_take (it : Iterator) n j : j <= n -> take j (drawn it n) = drawn it j.
Proof.
  intros Hj. unfold drawn. rewrite firstn_map, take_seq.
  replace (Init.Nat.min j n) with j by lia. reflexivity.
Qed.

End EvaluationFrame.

Section PythonNumbersEdge.
Local Open Scope Z_scope.

(** A quotient that is not positive gives a batch count that is not
    positive, unless it is too large for a float. *)
Lemma num_batches_nonpos n b :
  n <= 0 -> 0 < b ->
  num_batches n b = Raise OverflowError
  \/ exists nb, num_batches n b = Ok nb /\ nb <= 0.
Proof.
  intros Hn Hb. unfold num_batches, int_true_divide.
  destruct (Z.eqb_spec b 0) as [-> | _]; [lia|].
  destruct (Z.eqb_spec n 0) as [-> | Hn0].
  { right. exists 0. split; [reflexivity | lia]. }
  replace (n <? 0) with true by (symmetry; apply Z.ltb_lt; lia).
  replace (b <? 0) with false by (symmetry; apply Z.ltb_ge; lia).
  cbn [xorb].
  destruct (SFdiv_core_binary 53 1024 (Z.abs n) 0 (Z.abs b) 0) as [[q e] l] eqn:Hdiv.
  assert (Hq : 0 <= q).
  { unfold SFdiv_core_binary in Hdiv.
    destruct (Z.div_eucl _ _) as [q' r'] eqn:Hqr in Hdiv.
    injection Hdiv as <- _ _.
    rewrite div_eucl_div_mod in Hqr. injection Hqr as <- _.
    apply Z.div_pos.
    - match goal with
      | |- 0 <= match ?s with _ => _ end => destruct s
      end; [lia | | lia].
      apply Z.shiftl_nonneg. lia.
    - lia. }
  pose proof (binary_round_aux_sign 53 1024 true q e l Hq) as Hs.
  destruct (binary_round_aux 53 1024 true q e l) as [s | s | | s m e'];
    cbn [has_sign] in Hs; try contradiction; subst.
  - right. exists 0. split; [reflexivity | lia].
  - left. reflexivity.
  - right. eexists. split; [reflexivity|].
    cbn [cond_Zopp]. destruct (Z.leb_spec 0 e') as [He | He].
    + pose proof (Z.pow_nonneg 2 e'). nia.
    + assert (0 <= - Z.neg m / 2 ^ (- e')); [|lia].
      apply Z.div_pos; [lia|].
      apply Z.pow_pos_nonneg; lia.
Qed.
End PythonNumbersEdge.

(** ** [_eval_model_on_split]: edge cases, failures and composition *)

Section SplitEvaluationEdge.
Context `{A : Arith} `{E : !Externals}.

(** X1.  With [global_batch_size = 0] the call raises [ZeroDivisionError]
    from [num_examples / global_batch_size]; by then the split's iterator
    has been built for batch size 0 and cached when the cache had none,
    and no batch has been drawn from it. *)
Theorem eval_model_on_split_zero_batch_size (self : Workload) split n params
    model_state rng data_dir global_step :
  let r := _eval_model_on_split self split n 0 params model_state rng data_dir
             global_step in
  snd r = Raise ZeroDivisionError
  /\ _eval_iters (fst r) !! split = Some (split_iterator self split rng data_dir 0)
  /\ queues_built (fst r)
     = match _eval_iters self !! split with
       | Some _ => queues_built self
       | None => {| qc_rng := prng_split rng 2 0; qc_split := split;
                    qc_data_dir := data_dir; qc_global_batch_size := 0 |}
                 :: queues_built self
       end.
Proof.
  intros r. subst r. unfold _eval_model_on_split.
  change (num_batches n 0) with (@Raise Z ZeroDivisionError).
  cbn [fst snd]. split; [reflexivity|].
  split; [apply lazy_build_lookup|].
  destruct (_eval_iters self !! split); reflexivity.
Qed.

(** X2.  For [num_examples <= 0] and a positive batch size the call never
    returns metrics: the loop makes no pass, the totals are still Python
    floats and [.item()] raises [AttributeError] (or the quotient is too
    large for a float and the division raises [OverflowError]).  No batch
    is drawn. *)
Theorem eval_model_on_split_no_examples (self : Workload) split n b params
    model_state rng data_dir global_step :
  (n <= 0)%Z -> (0 < b)%Z ->
  let r := _eval_model_on_split self split n b params model_state rng data_dir
             global_step in
  (snd r = Raise AttributeError \/ snd r = Raise OverflowError)
  /\ pulls_batches self split n b params model_state rng data_dir global_step 0.
Proof.
  intros Hn Hb r. subst r. unfold pulls_batches, _eval_model_on_split.
  pose proof (lazy_build_lookup self split rng data_dir b) as Hit.
  set (self1 := match _eval_iters self !! split with
                | Some _ => self
                | None => _
                end) in *.
  rewrite advance_0.
  destruct (num_batches_nonpos n b Hn Hb) as [Hnb | (nb & Hnb & Hle)]; rewrite Hnb.
  - split; [right; reflexivity | exact Hit].
  - replace (Z.to_nat nb) with 0%nat by lia.
    split; [left; reflexivity | exact Hit].
Qed.

(** X3.  When the evaluation of a drawn batch raises, the call raises that
    error at once: with batch number [j] of the run the first to fail, the
    result is its error, and the iterator stays [j + 1] batches further,
    the failing batch included. *)
Theorem eval_model_on_split_failure (self : Workload) split n b params model_state
    rng data_dir global_step nb j ms e :
  let it := split_iterator self split rng data_dir b in
  num_batches n b = Ok nb ->
  j < Z.to_nat nb ->
  result_mapM (synced_first params (eval_rngs rng)) (drawn it j) = Ok ms ->
  synced_first params (eval_rngs rng) (it_stream it (it_pos it + j)) = Raise e ->
  snd (_eval_model_on_split self split n b params model_state rng data_dir global_step)
  = Raise e
  /\ pulls_batches self split n b params model_state rng data_dir global_step (S j).
Proof.
  intros it Hnb Hj Hms He. unfold pulls_batches, _eval_model_on_split.
  rewrite Hnb.
  pose proof (lazy_build_lookup self split rng data_dir b) as Hit.
  set (self1 := match _eval_iters self !! split with
                | Some _ => self
                | None => _
                end) in *.
  fold (eval_rngs rng). fold it in Hit |- *.
  rewrite (eval_loop_Raise _ self1 split params (eval_rngs rng) it _ _ _ j ms e
             Hit Hj Hms He).
  cbn [fst snd _eval_iters set_eval_iters mbind result_bind].
  split; [reflexivity | apply lookup_insert_eq].
Qed.

(** X4.  A second evaluation of a split continues where the first one
    stopped: after a call that drew [nb] batches, a call that draws [nb2]
    batches evaluates the batches [nb], ..., [nb + nb2 - 1] of the
    iterator, returns their normalised sums, and leaves the iterator
    [nb + nb2] batches further. *)
Theorem eval_model_on_split_resumes (self : Workload) split n b params model_state
    rng data_dir global_step nb ms
    n2 b2 params2 model_state2 rng2 data_dir2 global_step2 nb2 ms2 :
  let it := split_iterator self split rng data_dir b in
  let self1 :=
    fst (_eval_model_on_split self split n b params model_state rng data_dir
           global_step) in
  let r2 := _eval_model_on_split self1 split n2 b2 params2 model_state2 rng2
              data_dir2 global_step2 in
  num_batches n b = Ok nb ->
  result_mapM (synced_first params (eval_rngs rng)) (drawn it (Z.to_nat nb)) = Ok ms ->
  num_batches n2 b2 = Ok nb2 ->
  (0 < nb2)%Z ->
  result_mapM (synced_first params2 (eval_rngs rng2))
    (drawn (advance it (Z.to_nat nb)) (Z.to_nat nb2)) = Ok ms2 ->
  snd r2 = Ok (normalized (fsum (List.map m_ssim ms2)) (fsum (List.map m_loss ms2))
                 (fsum (List.map m_weight ms2)))
  /\ _eval_iters (fst r2) !! split = Some (advance it (Z.to_nat nb + Z.to_nat nb2)).
Proof.
  intros it self1 r2 Hnb Hms Hnb2 Hpos Hms2.
  destruct (eval_model_on_split_Ok self split n b params model_state rng data_dir
              global_step nb ms Hnb Hms) as (Hpull & _).
  unfold pulls_batches in Hpull. fold self1 it in Hpull.
  assert (Hit1 : split_iterator self1 split rng2 data_dir2 b2
                 = advance it (Z.to_nat nb)).
  { unfold split_iterator. rewrite Hpull. reflexivity. }
  rewrite <- Hit1 in Hms2.
  destruct (eval_model_on_split_Ok self1 split n2 b2 params2 model_state2 rng2
              data_dir2 global_step2 nb2 ms2 Hnb2 Hms2) as (Hpull2 & Hres2).
  unfold pulls_batches in Hpull2. fold r2 in Hpull2, Hres2.
  split.
  - rewrite Hres2.
    assert (Hne : ms2 <> []).
    { intros ->. apply result_mapM_length in Hms2. rewrite drawn_length in Hms2.
      cbn in Hms2. lia. }
    rewrite !fold_py_add_PyFloat by (destruct ms2; [congruence | discriminate]).
    apply normalize_JaxArray.
  - rewrite Hpull2, Hit1. unfold advance. cbn. do 2 f_equal. lia.
Qed.

(** X5.  Evaluations of two different splits do not interfere: each
    returns what it returns when run alone, whatever the outcome of the
    other, and both orders leave the same cache. *)
Theorem eval_model_on_split_splits_commute (self : Workload)
    split1 n1 b1 params1 model_state1 rng1 data_dir1 global_step1
    split2 n2 b2 params2 model_state2 rng2 data_dir2 global_step2 :
  split1 <> split2 ->
  let eval1 s := _eval_model_on_split s split1 n1 b1 params1 model_state1 rng1
                   data_dir1 global_step1 in
  let eval2 s := _eval_model_on_split s split2 n2 b2 params2 model_state2 rng2
                   data_dir2 global_step2 in
  snd (eval2 (fst (eval1 self))) = snd (eval2 self)
  /\ snd (eval1 (fst (eval2 self))) = snd (eval1 self)
  /\ _eval_iters (fst (eval2 (fst (eval1 self))))
     = _eval_iters (fst (eval1 (fst (eval2 self)))).
Proof.
  intros Hne eval1 eval2.
  destruct (eval_model_on_split_entry self split1 n1 b1 params1 model_state1 rng1
              data_dir1 global_step1) as (it1 & Hl1 & Hm1).
  destruct (eval_model_on_split_entry self split2 n2 b2 params2 model_state2 rng2
              data_dir2 global_step2) as (it2 & Hl2 & Hm2).
  fold (eval1 self) in Hl1, Hm1. fold (eval2 self) in Hl2, Hm2.
  assert (H12 : _eval_iters (fst (eval1 self)) !! split2 = _eval_iters self !! split2).
  { rewrite Hm1. apply lookup_insert_ne. exact Hne. }
  assert (H21 : _eval_iters (fst (eval2 self)) !! split1 = _eval_iters self !! split1).
  { rewrite Hm2. apply lookup_insert_ne. congruence. }
  destruct (eval_model_on_split_frame (fst (eval1 self)) self split2 n2 b2 params2
              model_state2 rng2 data_dir2 global_step2 H12) as (Hr2 & Hs2).
  destruct (eval_model_on_split_frame (fst (eval2 self)) self split1 n1 b1 params1
              model_state1 rng1 data_dir1 global_step1 H21) as (Hr1 & Hs1).
  fold (eval2 (fst (eval1 self))) (eval2 self) in Hr2, Hs2.
  fold (eval1 (fst (eval2 self))) (eval1 self) in Hr1, Hs1.
  split; [exact Hr2|]. split; [exact Hr1|].
  destruct (eval_model_on_split_entry (fst (eval1 self)) split2 n2 b2 params2
              model_state2 rng2 data_dir2 global_step2) as (it2' & Hl2' & Hm2').
  destruct (eval_model_on_split_entry (fst (eval2 self)) split1 n1 b1 params1
              model_state1 rng1 data_dir1 global_step1) as (it1' & Hl1' & Hm1').
  fold (eval2 (fst (eval1 self))) in Hl2', Hm2'.
  fold (eval1 (fst (eval2 self))) in Hl1', Hm1'.
  assert (it2' = it2) as -> by congruence.
  assert (it1' = it1) as -> by congruence.
  rewrite Hm2', Hm1', Hm1, Hm2.
  apply insert_insert_ne. congruence.
Qed.

(** X6.  [init_model_fn] and an evaluation do not interfere: the
    evaluation returns the same metrics before and after the model is
    initialised, it leaves [_param_shapes] as it finds it, and both orders
    leave the same workload. *)
Theorem init_model_fn_eval_commute (self : Workload) (rng0 : RandomState)
    split n b params model_state rng data_dir global_step :
  let eval s := _eval_model_on_split s split n b params model_state rng data_dir
                  global_step in
  snd (eval (fst (init_model_fn self rng0))) = snd (eval self)
  /\ _param_shapes (fst (eval self)) = _param_shapes self
  /\ fst (eval (fst (init_model_fn self rng0)))
     = fst (init_model_fn (fst (eval self)) rng0).
Proof.
  intros eval.
  set (self0 := fst (init_model_fn self rng0)).
  assert (H0 : _eval_iters self0 !! split = _eval_iters self !! split) by reflexivity.
  destruct (eval_model_on_split_frame self0 self split n b params model_state rng
              data_dir global_step H0) as (Hr & Hs).
  fold (eval self0) (eval self) in Hr, Hs.
  destruct (eval_model_on_split_state self split n b params model_state rng data_dir
              global_step) as (k & Hk).
  destruct (eval_model_on_split_state self0 split n b params model_state rng data_dir
              global_step) as (k0 & Hk0).
  fold (eval self) in Hk. fold (eval self0) in Hk0.
  split; [exact Hr|]. split; [rewrite Hk; reflexivity|].
  rewrite Hk0, Hk in Hs. cbn [_eval_iters] in Hs.
  rewrite !lookup_insert_eq in Hs.
  assert (Hadv : advance (split_iterator self0 split rng data_dir b) k0
                 = advance (split_iterator self split rng data_dir b) k)
    by congruence.
  rewrite Hk0, Hk, Hadv. reflexivity.
Qed.

(** X7.  The call returns metrics exactly when the batch count is
    computed and positive and every batch of the run evaluates; in every
    other case it raises. *)
Theorem eval_model_on_split_returns_iff (self : Workload) split n b params
    model_state rng data_dir global_step :
  is_Ok (snd (_eval_model_on_split self split n b params model_state rng data_dir
                global_step))
  <-> exists nb,
        num_batches n b = Ok nb /\ (0 < nb)%Z
        /\ is_Ok (result_mapM (synced_first params (eval_rngs rng))
                    (drawn (split_iterator self split rng data_dir b) (Z.to_nat nb))).
Proof.
  split.
  - intros [r Hr].
    destruct (num_batches n b) as [nb | e] eqn:Hnb.
    2:{ unfold _eval_model_on_split in Hr. rewrite Hnb in Hr. discriminate Hr. }
    exists nb. split; [reflexivity|].
    destruct (Z_lt_le_dec 0 nb) as [Hpos | Hle].
    2:{ rewrite (eval_model_on_split_no_batches self split n b params model_state rng
                   data_dir global_step nb Hnb Hle) in Hr. discriminate Hr. }
    split; [exact Hpos|].
    destruct (result_mapM (synced_first params (eval_rngs rng))
                (drawn (split_iterator self split rng data_dir b) (Z.to_nat nb)))
      as [ms | e] eqn:Hms; [exists ms; reflexivity|].
    exfalso.
    destruct (result_mapM_Raise _ _ e Hms) as (j & x & ms & Hj & Htake & Hx).
    apply drawn_lookup in Hj. destruct Hj as [Hj ->].
    rewrite drawn_take in Htake by lia.
    unfold _eval_model_on_split in Hr. rewrite Hnb in Hr.
    pose proof (lazy_build_lookup self split rng data_dir b) as Hit.
    set (self1 := match _eval_iters self !! split with
                  | Some _ => self
                  | None => _
                  end) in *.
    fold (eval_rngs rng) in Hr.
    rewrite (eval_loop_Raise _ self1 split params (eval_rngs rng) _ _ _ _ j ms e
               Hit Hj Htake Hx) in Hr.
    discriminate Hr.
  - intros (nb & Hnb & Hpos & ms & Hms).
    destruct (eval_model_on_split_Ok self split n b params model_state rng data_dir
                global_step nb ms Hnb Hms) as (_ & Hres).
    assert (Hne : ms <> []).
    { intros ->. apply result_mapM_length in Hms. rewrite drawn_length in Hms.
      cbn in Hms. lia. }
    rewrite !fold_py_add_PyFloat in Hres by (destruct ms; [congruence | discriminate]).
    rewrite normalize_JaxArray in Hres. eexists. exact Hres.
Qed.

(** X8.  After a first evaluation of a split, whatever its outcome,
    [data_dir] and [global_batch_size] reach a later evaluation of the
    split through the batch count only: two calls whose counts agree
    return the same result and leave the same workload, whatever directory
    and batch size they name. *)
Theorem eval_model_on_split_cached_args (self : Workload) split
    n0 b0 params0 model_state0 rng0 data_dir0 global_step0
    n b n' b' params model_state model_state' rng data_dir data_dir'
    global_step global_step' :
  let self1 :=
    fst (_eval_model_on_split self split n0 b0 params0 model_state0 rng0 data_dir0
           global_step0) in
  num_batches n b = num_batches n' b' ->
  _eval_model_on_split self1 split n b params model_state rng data_dir global_step
  = _eval_model_on_split self1 split n' b' params model_state' rng data_dir'
      global_step'.
Proof.
  intros self1 Hnb.
  destruct (eval_model_on_split_entry self split n0 b0 params0 model_state0 rng0
              data_dir0 global_step0) as (it & Hit & _).
  fold self1 in Hit.
  unfold _eval_model_on_split. rewrite Hit, Hnb. reflexivity.
Qed.

End SplitEvaluationEdge.

(** ** [init_model_fn] and the pmapped evaluator *)

Section InitAndPmap.
Context `{A : Arith} `{E : !Externals}.

Lemma tree_map_compose {T U V} (f : T -> U) (g : U -> V) (t : pytree T) :
  tree_map g (tree_map f t) = tree_map (fun x => g (f x)) t.
Proof.
  induction t as [x | cs IH] using pytree_ind'; [reflexivity|].
  cbn [tree_map]. f_equal. rewrite List.map_map. cbn [fst snd].
  induction IH as [|kv cs Hkv _ IHcs]; [reflexivity|].
  cbn [List.map]. rewrite Hkv, IHcs. reflexivity.
Qed.

Lemma tree_map_id {T} (f : T -> T) (t : pytree T) :
  (forall x, f x = x) -> tree_map f t = t.
Proof.
  intros Hf. induction t as [x | cs IH] using pytree_ind'; cbn [tree_map];
    [rewrite Hf; reflexivity|].
  f_equal. induction IH as [|[k c] cs Hkv _ IHcs]; [reflexivity|].
  cbn [List.map fst snd] in *. rewrite Hkv, IHcs. reflexivity.
Qed.

Lemma slice0_replicate n i (x : tensor) :
  i < n -> slice0 i (Arr (replicate n x)) = x.
Proof.
  intros Hi. cbn [slice0]. apply nth_lookup_Some, lookup_replicate_2, Hi.
Qed.

Lemma shape_replicate n (x : tensor) :
  0 < n -> shape (Arr (replicate n x)) = n :: shape x.
Proof.
  intros Hn. destruct n as [|n]; [lia|].
  cbn [shape replicate length]. rewrite length_replicate. reflexivity.
Qed.

Lemma eval_rngs_length rng : length (eval_rngs rng) = local_device_count.
Proof. unfold eval_rngs. rewrite length_map, length_seq. reflexivity. Qed.

(** X9.  The parameters [init_model_fn] returns fit the pmapped evaluator:
    with the device keys an evaluation makes and a batch whose leaves have
    one row per local device, the split over the devices succeeds, and
    every device gets the parameters as [UNet().init] returned them, its
    row of the batch and its key. *)
Theorem init_model_fn_params_fit_pmap (self : Workload) (rng0 rng : RandomState)
    (batch : Batch) :
  forallb (fun t => bool_decide (leading t = Some local_device_count))
    (batch_leaves batch) = true ->
  pmap_shards (fst (snd (init_model_fn self rng0))) batch (eval_rngs rng)
  = Ok (imap (fun i r =>
                {| shard_params :=
                     params_collection (unet_init [("params"%string, rng0)] fake_batch);
                   shard_batch := batch_slice i batch;
                   shard_rng := r |}) (eval_rngs rng)).
Proof.
  intros Hbatch. unfold pmap_shards, init_model_fn, jax_utils_replicate.
  cbn [fst snd]. rewrite eval_rngs_length.
  set (params := params_collection (unet_init [("params"%string, rng0)] fake_batch)).
  rewrite bool_decide_eq_true_2 by lia. cbn [andb].
  rewrite forallb_app, Hbatch, andb_true_r, tree_leaves_map.
  assert (Hleaves : forallb (fun t => bool_decide (leading t = Some local_device_count))
                      (List.map (fun x => Arr (replicate local_device_count x))
                         (tree_leaves params)) = true).
  { apply forallb_forall. intros t Ht. apply in_map_iff in Ht.
    destruct Ht as (x & <- & _). apply bool_decide_eq_true.
    cbn [leading]. rewrite length_replicate. reflexivity. }
  rewrite Hleaves. f_equal. apply imap_ext. intros i r Hi. cbn beta.
  f_equal. rewrite tree_map_compose. apply tree_map_id. intros x.
  apply slice0_replicate. apply lookup_lt_Some in Hi.
  rewrite eval_rngs_length in Hi. exact Hi.
Qed.

(** X10.  The shapes [init_model_fn] records are those of one device's
    copy: with at least one local device, the shape of every leaf of the
    returned parameters is the recorded shape of that leaf with the number
    of local devices in front. *)
Theorem init_model_fn_shapes (self : Workload) (rng : RandomState) :
  0 < local_device_count ->
  exists shapes,
    _param_shapes (fst (init_model_fn self rng)) = Some shapes
    /\ tree_map shape (fst (snd (init_model_fn self rng)))
       = tree_map (cons local_device_count) shapes.
Proof.
  intros Hd. eexists. split; [reflexivity|].
  unfold init_model_fn, jax_utils_replicate. cbn [fst snd].
  rewrite !tree_map_compose.
  generalize (params_collection (unet_init [("params"%string, rng)] fake_batch)) as t.
  intros t. induction t as [x | cs IH] using pytree_ind'; cbn [tree_map].
  - rewrite shape_replicate by exact Hd. reflexivity.
  - f_equal. induction IH as [|[k c] cs Hkv _ IHcs]; [reflexivity|].
    cbn [List.map fst snd] in *. rewrite Hkv, IHcs. reflexivity.
Qed.

End InitAndPmap.

(** ** [model_params_types] *)

Section ModelParamsTypesFacts.
Context `{A : Arith} `{E : !Externals} {T : Type}.
Variable jax_param_types : option (pytree (list nat)) -> result T.

(** X13.  [model_params_types] computes the types once: after a read that
    returned [types], every later read returns [types] again and leaves
    the object as it is, whatever the other fields hold by then; the
    types are not computed anew from the shapes a later [init_model_fn]
    records. *)
Theorem model_params_types_cached (self : TypedWorkload T) (types : T)
    (fields : Workload) :
  snd (model_params_types jax_param_types self) = Ok types ->
  let later :=
    {| tw_fields := fields;
       _param_types := _param_types (fst (model_params_types jax_param_types self)) |} in
  model_params_types jax_param_types later = (later, Ok types)
  /\ tw_fields (fst (model_params_types jax_param_types self)) = tw_fields self.
Proof.
  unfold model_params_types. intros Hread.
  destruct (_param_types self) as [t0|] eqn:Hc.
  - cbn [fst snd] in *. rewrite Hc. cbn. injection Hread as <-. split; reflexivity.
  - destruct (jax_param_types (_param_shapes (tw_fields self))) as [t0 | e];
      [|discriminate Hread].
    cbn [fst snd] in *. injection Hread as <-. split; reflexivity.
Qed.

(** X14.  A read of [model_params_types] that raises leaves the object as
    it is, the cache still empty: the next read calls
    [param_utils.jax_param_types] again, on the shapes recorded by
    then. *)
Theorem model_params_types_retry (self : TypedWorkload T) (e : PyError)
    (fields : Workload) :
  snd (model_params_types jax_param_types self) = Raise e ->
  let later :=
    {| tw_fields := fields;
       _param_types := _param_types (fst (model_params_types jax_param_types self)) |} in
  fst (model_params_types jax_param_types self) = self
  /\ snd (model_params_types jax_param_types later)
     = jax_param_types (_param_shapes fields).
Proof.
  unfold model_params_types. intros Hread.
  destruct (_param_types self) as [t0|] eqn:Hc; [discriminate Hread|].
  destruct (jax_param_types (_param_shapes (tw_fields self))) as [t0 | e0];
    [discriminate Hread|].
  cbn [fst snd] in *. rewrite Hc. cbn [_param_types tw_fields].
  split; [reflexivity|].
  destruct (jax_param_types (_param_shapes fields)); reflexivity.
Qed.

End ModelParamsTypesFacts.

(** ** The batch count covers the examples *)

Section Coverage.
Local Open Scope Z_scope.

(** X15.  For [0 < num_examples <= 2^53] and
    [0 < global_batch_size <= 2^53] the batch count is computed without
    error, and the batches hold room for every example with less than one
    batch to spare. *)
Theorem num_batches_covers n b :
  0 < n <= 2 ^ 53 -> 0 < b <= 2 ^ 53 ->
  exists nb, num_batches n b = Ok nb /\ n <= nb * b < n + b.
Proof.
  intros Hn Hb. exists (ceil_div n b).
  split; [apply num_batches_small; assumption|].
  unfold ceil_div.
  pose proof (Z.div_mod (n + b - 1) b ltac:(lia)) as Hdm.
  pose proof (Z.mod_pos_bound (n + b - 1) b ltac:(lia)) as Hmod.
  nia.
Qed.
End Coverage.

(** ** NaN and symmetry in binary32 *)

Section Binary32Loss.
Local Open Scope Z_scope.

Lemma fold_SFadd_nan (l : list spec_float) :
  fold_left (SFadd 24 128) l S754_nan = S754_nan.
Proof. induction l as [|x l IH]; [reflexivity | exact IH]. Qed.

Lemma SFadd_nan_r x : SFadd 24 128 x S754_nan = S754_nan.
Proof. destruct x; reflexivity. Qed.

(** A NaN among the terms makes the sum a NaN. *)
Lemma fold_SFadd_In_nan (l : list spec_float) : forall a,
  In S754_nan l -> fold_left (SFadd 24 128) l a = S754_nan.
Proof.
  induction l as [|x l IH]; intros a Hin; [destruct Hin|].
  cbn [fold_left]. destruct Hin as [-> | Hin].
  - rewrite SFadd_nan_r. apply fold_SFadd_nan.
  - apply IH, Hin.
Qed.

Lemma SFsub_nan_r x : SFsub 24 128 x S754_nan = S754_nan.
Proof. destruct x; reflexivity. Qed.

Lemma abs_diffs_nan (lo : list spec_float) : forall lt,
  length lo = length lt ->
  In S754_nan lo \/ In S754_nan lt ->
  In S754_nan (zip_with (fun o t => SFabs (SFsub 24 128 o t)) lo lt).
Proof.
  induction lo as [|o lo IH]; intros [|t lt] Hlen Hin; try discriminate.
  - destruct Hin as [[] | []].
  - cbn [zip_with]. injection Hlen as Hlen.
    destruct Hin as [[-> | Hin] | [-> | Hin]].
    + left. reflexivity.
    + right. apply IH; [exact Hlen | left; exact Hin].
    + left. rewrite SFsub_nan_r. reflexivity.
    + right. apply IH; [exact Hlen | right; exact Hin].
Qed.

(** The magnitude of a rounded value does not depend on its sign. *)
Lemma SFabs_binary_round_aux sx m e l :
  SFabs (binary_round_aux 24 128 sx m e l)
  = SFabs (binary_round_aux 24 128 false m e l).
Proof.
  unfold binary_round_aux.
  destruct (shr_fexp 24 128 m e l) as [mrs' e'].
  destruct (shr_fexp 24 128 _ e' loc_Exact) as [mrs'' e''].
  destruct (shr_m mrs''); [reflexivity | | reflexivity].
  destruct (e'' <=? 128 - 24); reflexivity.
Qed.

Lemma SFabs_binary_normalize_opp m e :
  SFabs (binary_normalize 24 128 (- m) e false)
  = SFabs (binary_normalize 24 128 m e false).
Proof.
  destruct m as [|p|p]; [reflexivity | |].
  - change (- Z.pos p) with (Z.neg p). cbn [binary_normalize].
    unfold binary_round. destruct (shl_align _ _ _) as [mz ez].
    apply SFabs_binary_round_aux.
  - change (- Z.neg p) with (Z.pos p). cbn [binary_normalize].
    unfold binary_round. destruct (shl_align _ _ _) as [mz ez].
    symmetry. apply SFabs_binary_round_aux.
Qed.

(** [|x - y| = |y - x|], rounding included. *)
Lemma SFabs_SFsub_comm x y :
  SFabs (SFsub 24 128 x y) = SFabs (SFsub 24 128 y x).
Proof.
  destruct x as [sx | sx | | sx mx ex], y as [sy | sy | | sy my ey];
    try reflexivity.
  - destruct sx, sy; reflexivity.
  - destruct sx, sy; reflexivity.
  - cbn [SFsub]. rewrite (Z.min_comm ey ex).
    rewrite <- SFabs_binary_normalize_opp. f_equal. f_equal. lia.
Qed.

Lemma abs_diffs_comm (lo : list spec_float) : forall lt,
  zip_with (fun o t => SFabs (SFsub 24 128 o t)) lo lt
  = zip_with (fun o t => SFabs (SFsub 24 128 o t)) lt lo.
Proof.
  induction lo as [|o lo IH]; intros [|t lt]; try reflexivity.
  cbn [zip_with]. rewrite SFabs_SFsub_comm, IH. reflexivity.
Qed.

(** X16.  In binary32 a NaN anywhere in an example, in its outputs or in
    its targets, makes the loss of that example a NaN: [loss_fn] raises
    nothing and hides nothing. *)
Theorem loss_fn_nan (n : nat) (sh : list nat) (os ts : list (tensor (A := binary32)))
    (i : nat) (o t : tensor (A := binary32)) :
  has_shape (n :: sh) (Arr os) = true ->
  has_shape (n :: sh) (Arr ts) = true ->
  os !! i = Some o -> ts !! i = Some t ->
  In S754_nan (flatten o) \/ In S754_nan (flatten t) ->
  exists ls, loss_fn (Arr ts) (Arr os) = Ok (Arr ls)
             /\ ls !! i = Some (Scalar (A := binary32) S754_nan).
Proof.
  intros Ho Ht Hoi Hti Hnan.
  pose proof Ho as Ho'. pose proof Ht as Ht'.
  cbn [has_shape] in Ho', Ht'. apply andb_true_iff in Ho', Ht'.
  destruct Ho' as [Hlo Hso], Ht' as [Hlt Hst]. apply Nat.eqb_eq in Hlo, Hlt.
  eexists. split.
  { apply (loss_fn_rows sh); [congruence | exact Hso | exact Hst]. }
  rewrite lookup_zip_with, Hoi, Hti. cbn [mbind option_bind]. do 2 f_equal.
  rewrite forallb_forall in Hso, Hst.
  assert (Hlen : length (flatten o) = length (flatten t)).
  { rewrite (flatten_length sh o), (flatten_length sh t); [reflexivity | |].
    - apply Hst. eapply list_elem_of_In, list_elem_of_lookup_2, Hti.
    - apply Hso. eapply list_elem_of_In, list_elem_of_lookup_2, Hoi. }
  unfold mean_abs_error, fsum.
  change (fold_left fadd ?l fzero) with (fold_left (SFadd 24 128) l (S754_zero false)).
  change (SFdiv 24 128
            (fold_left (SFadd 24 128)
               (zip_with (fun x y => SFabs (SFsub 24 128 x y)) (flatten o) (flatten t))
               (S754_zero false))
            (binary_normalize 24 128 (Z.of_nat (length (flatten o))) 0 false)
          = S754_nan).
  rewrite fold_SFadd_In_nan by (apply abs_diffs_nan; assumption).
  reflexivity.
Qed.

(** X17.  In binary32 [loss_fn] is symmetric: for two arrays of one shape,
    exchanging labels and outputs gives the same per-example values. *)
Theorem loss_fn_symmetric (n : nat) (sh : list nat) (a b : tensor (A := binary32)) :
  has_shape (n :: sh) a = true ->
  has_shape (n :: sh) b = true ->
  loss_fn a b = loss_fn b a.
Proof.
  intros Ha Hb.
  destruct a as [x | xs], b as [y | ys]; try discriminate.
  pose proof Ha as Ha'. pose proof Hb as Hb'.
  cbn [has_shape] in Ha', Hb'. apply andb_true_iff in Ha', Hb'.
  destruct Ha' as [Hla Hsa], Hb' as [Hlb Hsb]. apply Nat.eqb_eq in Hla, Hlb.
  rewrite (loss_fn_rows sh ys xs), (loss_fn_rows sh xs ys)
    by (congruence || assumption).
  do 2 f_equal.
  assert (Hlen : length xs = length ys) by congruence.
  clear Ha Hb Hla Hlb. revert ys Hsb Hlen.
  induction xs as [|x xs IH]; intros [|y ys] Hsb Hlen; try discriminate;
    [reflexivity|].
  cbn [forallb] in Hsa, Hsb. apply andb_true_iff in Hsa, Hsb.
  destruct Hsa as [Hx Hxs], Hsb as [Hy Hys].
  cbn [zip_with]. f_equal.
  - f_equal. unfold mean_abs_error.
    rewrite (flatten_length sh x Hx), (flatten_length sh y Hy).
    f_equal. f_equal. apply abs_diffs_comm.
  - apply IH; [exact Hxs | exact Hys | now injection Hlen].
Qed.

(** X18.  In binary32 an evaluation does not hide a NaN: when the
    device-summed loss of one evaluated batch is a NaN, the call returns,
    and the ['loss'] it returns is a NaN. *)
Theorem eval_model_on_split_nan_loss (E : Externals (A := binary32)) (self : Workload)
    split n b params model_state rng data_dir global_step nb
    (ms : list (SyncedMetrics (A := binary32))) :
  num_batches n b = Ok nb ->
  result_mapM (synced_first params (eval_rngs rng))
    (drawn (split_iterator self split rng data_dir b) (Z.to_nat nb)) = Ok ms ->
  In S754_nan (List.map m_loss ms) ->
  exists s : spec_float,
    snd (_eval_model_on_split self split n b params model_state rng data_dir global_step)
    = Ok [("ssim"%string, PyFloat (A := binary32) s);
          ("loss"%string, PyFloat (A := binary32) S754_nan)].
Proof.
  intros Hnb Hms Hnan.
  destruct (eval_model_on_split_Ok self split n b params model_state rng data_dir
              global_step nb ms Hnb Hms) as (_ & Hres).
  assert (Hne : ms <> []) by (intros ->; destruct Hnan).
  rewrite !fold_py_add_PyFloat in Hres by (destruct ms; [congruence | discriminate]).
  rewrite normalize_JaxArray in Hres. unfold normalized in Hres.
  change (fold_left fadd (List.map m_loss ms) fzero)
    with (fold_left (SFadd 24 128) (List.map m_loss ms) (S754_zero false)) in Hres.
  rewrite (fold_SFadd_In_nan _ _ Hnan) in Hres.
  eexists. exact Hres.
Qed.

(** X19.  In binary32 the loss of examples without elements is a NaN: the
    mean divides the empty sum, zero, by the count, zero. *)
Theorem loss_fn_empty_examples (n : nat) (sh : list nat)
    (os ts : list (tensor (A := binary32))) :
  has_shape (n :: sh) (Arr os) = true ->
  has_shape (n :: sh) (Arr ts) = true ->
  foldr Nat.mul 1%nat sh = 0%nat ->
  loss_fn (Arr ts) (Arr os)
  = Ok (Arr (replicate n (Scalar (A := binary32) S754_nan))).
Proof.
  intros Ho Ht Hsize.
  cbn [has_shape] in Ho, Ht. apply andb_true_iff in Ho, Ht.
  destruct Ho as [Hlo Hso], Ht as [Hlt Hst]. apply Nat.eqb_eq in Hlo, Hlt.
  rewrite (loss_fn_rows sh os ts) by (congruence || assumption).
  do 2 f_equal. subst n. revert ts Hlt Hst.
  induction os as [|o os IH]; intros [|t ts] Hlt Hst; try discriminate;
    [reflexivity|].
  cbn [forallb] in Hso, Hst. apply andb_true_iff in Hso, Hst.
  destruct Hso as [Hx Hxs], Hst as [Hy Hys].
  cbn [zip_with length replicate]. f_equal.
  - f_equal. unfold mean_abs_error.
    pose proof (flatten_length sh o Hx) as Hlen. rewrite Hsize in Hlen.
    destruct (flatten o); [reflexivity | discriminate Hlen].
  - apply IH; [exact Hxs | now injection Hlt | exact Hys].
Qed.

(** X20.  In binary32, when the device-summed loss of every evaluated
    batch is at least zero and the accumulated weight is a positive
    number, the call returns, and the ['loss'] it returns is at least
    zero, so it is not a NaN. *)
Theorem eval_model_on_split_loss_nonneg (E : Externals (A := binary32))
    (self : Workload) split n b params model_state rng data_dir global_step nb
    (ms : list (SyncedMetrics (A := binary32))) (m : positive) (e : Z) :
  num_batches n b = Ok nb ->
  result_mapM (synced_first params (eval_rngs rng))
    (drawn (split_iterator self split rng data_dir b) (Z.to_nat nb)) = Ok ms ->
  Forall (fun x : SyncedMetrics (A := binary32) =>
            SFleb (S754_zero false) (m_loss x) = true) ms ->
  fsum (A := binary32) (List.map m_weight ms) = S754_finite false m e ->
  exists s l : spec_float,
    snd (_eval_model_on_split self split n b params model_state rng data_dir global_step)
    = Ok [("ssim"%string, PyFloat (A := binary32) s);
          ("loss"%string, PyFloat (A := binary32) l)]
    /\ SFleb (S754_zero false) l = true.
Proof.
  intros Hnb Hms Hloss Hw.
  destruct (eval_model_on_split_Ok self split n b params model_state rng data_dir
              global_step nb ms Hnb Hms) as (_ & Hres).
  assert (Hne : ms <> []) by (intros ->; discriminate Hw).
  rewrite !fold_py_add_PyFloat in Hres by (destruct ms; [congruence | discriminate]).
  rewrite normalize_JaxArray in Hres. unfold normalized in Hres.
  change (fold_left fadd (List.map m_weight ms) fzero)
    with (fsum (A := binary32) (List.map m_weight ms)) in Hres.
  rewrite Hw in Hres.
  eexists _, _. split; [exact Hres|].
  apply nonneg32_leb. apply SFdiv_nonneg.
  apply fsum_nonneg32; [exact I|].
  apply Forall_map. eapply Forall_impl; [exact Hloss|].
  intros x Hx. apply nonneg32_leb, Hx.
Qed.

End Binary32Loss.

(** ** The loss of [_eval_model], in exact arithmetic *)

Section ExactEvaluator.
#[local] Existing Instance exactQ.
Context `{E : !Externals (A := exactQ)}.

Lemma flatten_scalars `{A : Arith} (l : list num) : flatten (Arr (List.map Scalar l)) = l.
Proof.
  cbn [flatten]. induction l as [|x l IH]; [reflexivity|].
  cbn [List.map concat app flatten]. f_equal. exact IH.
Qed.

Lemma zip_with_Scalar `{A : Arith} {X Y} (f : X -> Y -> num) xs : forall ys,
  zip_with (fun x y => Scalar (f x y)) xs ys = List.map Scalar (zip_with f xs ys).
Proof.
  induction xs as [|x xs IH]; intros [|y ys]; try reflexivity.
  cbn [zip_with List.map]. f_equal. apply IH.
Qed.

(** The loss of one device's shard whose outputs have the shape of its
    targets. *)
Lemma shard_loss_exact (s : Shard) n sh :
  has_shape (n :: sh) (eval_outputs s) = true ->
  has_shape (n :: sh) (targets (shard_batch s)) = true ->
  exists l, loss_fn (targets (shard_batch s)) (eval_outputs s) = Ok l
            /\ flatten l = spec_example_losses (eval_outputs s) (targets (shard_batch s)).
Proof.
  intros Ho Ht.
  destruct (eval_outputs s) as [x | os], (targets (shard_batch s)) as [y | ts];
    try discriminate.
  cbn [has_shape] in Ho, Ht. apply andb_true_iff in Ho, Ht.
  destruct Ho as [Hlo Hso], Ht as [Hlt Hst]. apply Nat.eqb_eq in Hlo, Hlt.
  eexists. split.
  { apply (loss_fn_rows sh); [congruence | exact Hso | exact Hst]. }
  unfold spec_example_losses. cbn [rows].
  rewrite (loss_rows_exact sh os ts Hso Hst), zip_with_Scalar.
  apply flatten_scalars.
Qed.

(** X12.  In exact arithmetic.  When the split over the devices succeeds
    and, on every device, the outputs of the network have the shape of
    the targets, with at least one element in every example, the ['loss']
    that [_eval_model] returns on every device is the sum, over the
    devices and over the examples of each, of the mean absolute error of
    the example. *)
Theorem eval_model_loss_sum params batch rngs shards synced :
  pmap_shards params batch rngs = Ok shards ->
  _eval_model params batch rngs = Ok synced ->
  Forall (fun s => exists n sh,
            has_shape (n :: sh) (eval_outputs s) = true
            /\ has_shape (n :: sh) (targets (shard_batch s)) = true
            /\ 1 <= foldr Nat.mul 1 sh) shards ->
  length synced = length rngs
  /\ Forall (fun d =>
       dict_get d "loss"
       = Ok (Qc_total (List.map (fun sd =>
                         Qc_total (spec_example_losses (eval_outputs sd)
                                     (targets (shard_batch sd)))) shards))) synced.
Proof.
  intros Hshards Hsynced Hshape.
  assert (Hls : exists ls,
    result_mapM (fun s => loss_fn (targets (shard_batch s)) (eval_outputs s)) shards
    = Ok ls
    /\ List.map (fun l => Qc_total (flatten (A := exactQ) l)) ls
       = List.map (fun sd => Qc_total (spec_example_losses (eval_outputs sd)
                                         (targets (shard_batch sd)))) shards).
  { clear Hshards Hsynced.
    induction Hshape as [|s shards (n & sh & Ho & Ht & _) _ (ls & Hls & Hsum)].
    - exists []. split; reflexivity.
    - destruct (shard_loss_exact s n sh Ho Ht) as (l & Hl & Hfl).
      exists (l :: ls). cbn [result_mapM List.map]. rewrite Hl, Hls, Hfl, Hsum.
      split; reflexivity. }
  destruct Hls as (ls & Hls & Hsum).
  rewrite (eval_model_exact params batch rngs shards ls Hshards Hls) in Hsynced.
  injection Hsynced as <-.
  destruct (pmap_shards_bound params batch rngs shards Hshards) as [Hlen _].
  split; [rewrite length_replicate; exact Hlen|].
  apply Forall_forall. intros d Hd.
  apply elem_of_replicate in Hd. destruct Hd as [-> _].
  rewrite Hsum. reflexivity.
Qed.

End ExactEvaluator.

(** ** Examples of the further properties *)

Lemma eval_model_on_split_no_examples_witness :
  let E := identity_net binary32 large_first in
  let r := _eval_model_on_split (E := E) empty_workload "validation" 0 4 no_params None
             0%nat "data" 0 in
  (snd r = Raise AttributeError \/ snd r = Raise OverflowError)
  /\ pulls_batches (E := E) empty_workload "validation" 0 4 no_params None 0%nat "data" 0 0.
Proof.
  intros E.
  apply (eval_model_on_split_no_examples (E := E) empty_workload "validation" 0 4
           no_params None 0%nat "data" 0%Z); lia.
Defined.

Lemma eval_model_on_split_failure_witness :
  let E := identity_net binary32 ragged_second in
  snd (_eval_model_on_split (E := E) empty_workload "validation" 3 1 no_params None
         0%nat "data" 0)
  = Raise ValueError
  /\ pulls_batches (E := E) empty_workload "validation" 3 1 no_params None 0%nat "data" 0 2.
Proof.
  intros E.
  apply (eval_model_on_split_failure (E := E) empty_workload "validation" 3 1
           no_params None 0%nat "data" 0%Z 3%Z 1%nat
           [ synced32 (S754_zero false) (f32 1 0) (f32 1 0) ] ValueError).
  - reflexivity.
  - vm_compute. lia.
  - reflexivity.
  - reflexivity.
Defined.

Lemma eval_model_on_split_resumes_witness :
  let E := identity_net binary32 large_first in
  let self1 :=
    fst (_eval_model_on_split (E := E) empty_workload "validation" 1 1 no_params None
           0%nat "data" 0) in
  let r2 := _eval_model_on_split (E := E) self1 "validation" 2 1 no_params None
              7%nat "elsewhere" 1 in
  let ms2 := [ synced32 (S754_zero false) (f32 1 (-24)) (f32 1 0);
               synced32 (S754_zero false) (f32 1 (-24)) (f32 1 0) ] in
  snd r2 = Ok (normalized (fsum (A := binary32) (List.map m_ssim ms2))
                 (fsum (A := binary32) (List.map m_loss ms2))
                 (fsum (A := binary32) (List.map m_weight ms2)))
  /\ _eval_iters (fst r2) !! "validation"%string
     = Some (advance (split_iterator (E := E) empty_workload "validation" 0%nat "data" 1)
               (Z.to_nat 1 + Z.to_nat 2)).
Proof.
  intros E self1 r2 ms2.
  apply (eval_model_on_split_resumes (E := E) empty_workload "validation" 1 1
           no_params None 0%nat "data" 0%Z 1%Z
           [ synced32 (S754_zero false) (f32 1 0) (f32 1 0) ]
           2 1 no_params None 7%nat "elsewhere" 1%Z 2%Z ms2).
  - reflexivity.
  - reflexivity.
  - reflexivity.
  - lia.
  - reflexivity.
Defined.

Lemma eval_model_on_split_splits_commute_witness :
  let E := identity_net binary32 large_first in
  let eval1 s := _eval_model_on_split (E := E) s "train" 1 1 no_params None 0%nat
                   "data" 0 in
  let eval2 s := _eval_model_on_split (E := E) s "validation" 2 1 no_params None 1%nat
                   "data" 0 in
  snd (eval2 (fst (eval1 empty_workload))) = snd (eval2 empty_workload)
  /\ snd (eval1 (fst (eval2 empty_workload))) = snd (eval1 empty_workload)
  /\ _eval_iters (fst (eval2 (fst (eval1 empty_workload))))
     = _eval_iters (fst (eval1 (fst (eval2 empty_workload)))).
Proof.
  intros E.
  apply (eval_model_on_split_splits_commute (E := E) empty_workload
           "train" 1 1 no_params None 0%nat "data" 0%Z
           "validation" 2 1 no_params None 1%nat "data" 0%Z).
  discriminate.
Defined.

Lemma eval_model_on_split_cached_args_witness :
  let E := identity_net binary32 large_first in
  let self1 :=
    fst (_eval_model_on_split (E := E) empty_workload "validation" 1 1 no_params None
           0%nat "data" 0) in
  _eval_model_on_split (E := E) self1 "validation" 3 1 no_params None 0%nat "data" 0
  = _eval_model_on_split (E := E) self1 "validation" 6 2 no_params None 0%nat
      "elsewhere" 5.
Proof.
  intros E.
  apply (eval_model_on_split_cached_args (E := E) empty_workload "validation"
           1 1 no_params None 0%nat "data" 0%Z
           3 1 6 2 no_params None None 0%nat "data" "elsewhere" 0%Z 5%Z).
  reflexivity.
Defined.

Lemma init_model_fn_params_fit_pmap_witness :
  let E := identity_net binary32 large_first in
  pmap_shards (E := E) (fst (snd (init_model_fn (E := E) empty_workload 0%nat)))
    (large_first 0) (eval_rngs (E := E) 0%nat)
  = Ok (imap (fun i r =>
                @Build_Shard binary32 E
                  (params_collection
                     (unet_init (Externals := E) [("params"%string, 0%nat)] fake_batch))
                  (batch_slice i (large_first 0)) r) (eval_rngs (E := E) 0%nat)).
Proof.
  intros E.
  apply (init_model_fn_params_fit_pmap (E := E) empty_workload 0%nat 0%nat (large_first 0)).
  reflexivity.
Defined.

Lemma init_model_fn_shapes_witness :
  let E := identity_net binary32 large_first in
  exists shapes,
    _param_shapes (fst (init_model_fn (E := E) empty_workload 0%nat)) = Some shapes
    /\ tree_map shape (fst (snd (init_model_fn (E := E) empty_workload 0%nat)))
       = tree_map (cons 1%nat) shapes.
Proof.
  intros E.
  apply (init_model_fn_shapes (E := E) empty_workload 0%nat).
  cbn. lia.
Defined.

Lemma model_params_types_cached_witness :
  let E := identity_net binary32 large_first in
  let self := {| tw_fields := fst (init_model_fn (E := E) empty_workload 0%nat);
                 _param_types := None |} in
  let later :=
    {| tw_fields := empty_workload (E := E);
       _param_types := _param_types (fst (model_params_types rank_types self)) |} in
  model_params_types rank_types later = (later, Ok (Node [("conv"%string, Leaf 2%nat)]))
  /\ tw_fields (fst (model_params_types rank_types self)) = tw_fields self.
Proof.
  intros E self.
  apply (model_params_types_cached (E := E) rank_types self
           (Node [("conv"%string, Leaf 2%nat)]) empty_workload).
  reflexivity.
Defined.

Lemma model_params_types_retry_witness :
  let E := identity_net binary32 large_first in
  let self := {| tw_fields := empty_workload (E := E); _param_types := None |} in
  let fields := fst (init_model_fn (E := E) empty_workload 0%nat) in
  let later :=
    {| tw_fields := fields;
       _param_types := _param_types (fst (model_params_types rank_types self)) |} in
  fst (model_params_types rank_types self) = self
  /\ snd (model_params_types rank_types later) = rank_types (_param_shapes fields).
Proof.
  intros E self fields.
  apply (model_params_types_retry (E := E) rank_types self TypeError fields).
  reflexivity.
Defined.

Lemma num_batches_covers_witness :
  exists nb, num_batches 10 4 = Ok nb /\ (10 <= nb * 4 < 10 + 4)%Z.
Proof. apply (num_batches_covers 10 4); lia. Defined.

Lemma loss_fn_nan_witness :
  exists ls, loss_fn tiny_targets nan_outputs = Ok (Arr ls)
             /\ ls !! 0%nat = Some (Scalar (A := binary32) S754_nan).
Proof.
  apply (loss_fn_nan 1 [2%nat]
           [Arr [Scalar (A := binary32) S754_nan; Scalar (A := binary32) (S754_zero false)]]
           [Arr [Scalar (A := binary32) (S754_zero false);
                 Scalar (A := binary32) (S754_zero false)]]
           0%nat
           (Arr [Scalar (A := binary32) S754_nan; Scalar (A := binary32) (S754_zero false)])
           (Arr [Scalar (A := binary32) (S754_zero false);
                 Scalar (A := binary32) (S754_zero false)])).
  - reflexivity.
  - reflexivity.
  - reflexivity.
  - reflexivity.
  - left. left. reflexivity.
Defined.

Lemma loss_fn_symmetric_witness :
  loss_fn tiny_outputs tiny_targets = loss_fn tiny_targets tiny_outputs.
Proof.
  apply (loss_fn_symmetric 1 [2%nat] tiny_outputs tiny_targets); reflexivity.
Defined.

Lemma loss_fn_empty_examples_witness :
  loss_fn empty_example empty_example
  = Ok (Arr (replicate 1 (Scalar (A := binary32) S754_nan))).
Proof.
  apply (loss_fn_empty_examples 1 [0%nat] [Arr []] [Arr []]); reflexivity.
Defined.

Lemma eval_model_on_split_nan_loss_witness :
  let E := identity_net binary32 nan_batches in
  exists s : spec_float,
    snd (_eval_model_on_split (E := E) empty_workload "validation" 1 1 no_params None
           0%nat "data" 0)
    = Ok [("ssim"%string, PyFloat (A := binary32) s);
          ("loss"%string, PyFloat (A := binary32) S754_nan)].
Proof.
  intros E.
  apply (eval_model_on_split_nan_loss E empty_workload "validation" 1 1 no_params None
           0%nat "data" 0%Z 1%Z [ synced32 (S754_zero false) S754_nan (f32 1 0) ]).
  - reflexivity.
  - reflexivity.
  - left. reflexivity.
Defined.

Lemma eval_model_on_split_loss_nonneg_witness :
  let E := identity_net binary32 large_first in
  exists s l : spec_float,
    snd (_eval_model_on_split (E := E) empty_workload "validation" 3 1 no_params None
           0%nat "data" 0)
    = Ok [("ssim"%string, PyFloat (A := binary32) s);
          ("loss"%string, PyFloat (A := binary32) l)]
    /\ SFleb (S754_zero false) l = true.
Proof.
  intros E.
  apply (eval_model_on_split_loss_nonneg E empty_workload "validation" 3 1 no_params
           None 0%nat "data" 0%Z 3%Z
           [ synced32 (S754_zero false) (f32 1 0) (f32 1 0);
             synced32 (S754_zero false) (f32 1 (-24)) (f32 1 0);
             synced32 (S754_zero false) (f32 1 (-24)) (f32 1 0) ]
           12582912%positive (-22)%Z).
  - reflexivity.
  - reflexivity.
  - repeat constructor.
  - reflexivity.
Defined.

Lemma eval_model_loss_sum_witness :
  let E := identity_devices exactQ 2 (fun _ => two_device_batch) in
  let synced :=
    match _eval_model (E := E) two_device_params two_device_batch [2%nat; 3%nat] with
    | Ok d => d
    | Raise _ => []
    end in
  _eval_model (E := E) two_device_params two_device_batch [2%nat; 3%nat] = Ok synced
  /\ length synced = 2%nat
  /\ Forall (fun d => exists l : Qc,
               dict_get (V := Qc) d "loss" = Ok l /\ l = Q2Qc (10 # 3)) synced.
Proof.
  intros E synced.
  destruct (eval_model_loss_sum (E := E) two_device_params two_device_batch
              [2%nat; 3%nat]
              [ @Build_Shard exactQ E (Leaf (px 0 1)) (batch_slice 0 two_device_batch) 2%nat;
                @Build_Shard exactQ E (Leaf (px 0 1)) (batch_slice 1 two_device_batch) 3%nat ]
              synced) as [Hlen Hall].
  - reflexivity.
  - reflexivity.
  - constructor; [exists 2%nat, [2%nat]; repeat split; reflexivity || (cbn; lia)|].
    constructor; [exists 2%nat, [2%nat]; repeat split; reflexivity || (cbn; lia)|].
    constructor.
  - split; [reflexivity|]. split; [exact Hlen|].
    eapply Forall_impl; [exact Hall|].
    intros d Hd. eexists. split; [exact Hd|].
    apply Qc_is_canon. vm_compute. reflexivity.
Defined.

(** ** Examples in exact arithmetic *)


